(** * PromptCat: the encrypted-vault subsystem of [scripts/promptcat.js]

    A shallow embedding of the vault logic of PromptCat: the
    [CryptoService] object (password-based encryption of text fields), the
    folder and prompt lock toggles, saving, and the bulk move between
    folders, followed by the properties the specification states about
    them.

    The browser primitives the script calls but does not define
    (TextEncoder/TextDecoder, btoa/atob, crypto.getRandomValues, PBKDF2 and
    AES-GCM of crypto.subtle) are operations of a [Platform]; what the proofs
    need from them is collected in [PlatformLaws] and [IdealCrypto]. *)

From Stdlib Require Import ZArith.
From Stdlib.Strings Require Import Byte Ascii.
From stdpp Require Import gmap strings pretty list.

Open Scope Z_scope.

#[global] Instance byte_eq_dec : EqDecision byte := Byte.byte_eq_dec.

(** ** JavaScript values stored in vault fields *)

(** The object [{ ct, iv, salt }] built by [CryptoService.encrypt]; the three
    properties are base64 strings. *)
Record Ciphertext := {
  ct : string;
  iv : string;
  salt : string;
}.

(** What [body], [notes] and [passwordCheck] hold at run time. *)
Inductive Value :=
| VUndefined
| VNull
| VStr (s : string)
| VObj (c : Ciphertext).

#[global] Instance Ciphertext_eq_dec : EqDecision Ciphertext.
Proof. solve_decision. Defined.
#[global] Instance Value_eq_dec : EqDecision Value.
Proof. solve_decision. Defined.

(** JavaScript truthiness, as used by [!text] and [!password]. *)
Definition truthy_str (s : string) : bool := negb (bool_decide (s = "")).

Definition truthy (v : Value) : bool :=
  match v with
  | VUndefined | VNull => false
  | VStr s => truthy_str s
  | VObj _ => true
  end.

(** ToString, applied by [TextEncoder.encode] to its argument. *)
Definition toString (v : Value) : string :=
  match v with
  | VUndefined => "undefined"
  | VNull => "null"
  | VStr s => s
  | VObj _ => "[object Object]"
  end.

(** [String(id)] for the integer ids of folders and prompts. *)
Definition String_ (id : Z) : string := pretty id.

(** Ciphertext-shaped: an object whose [ct] is present. *)
Definition is_ciphertext (v : Value) : bool :=
  match v with
  | VObj c => truthy_str (ct c)
  | _ => false
  end.

Definition is_plain_string (v : Value) : bool :=
  match v with
  | VStr _ => true
  | _ => false
  end.

(** Completion of a call: a normal return, or an uncaught [TypeError]. *)
Inductive Completion (A : Type) :=
| Normal (a : A)
| Throw.
Arguments Normal {A} a.
Arguments Throw {A}.

(** ** The browser platform *)

Class Platform := {
  (** A CryptoKey produced by [crypto.subtle.deriveKey]. *)
  CryptoKey : Type;
  (** [TextEncoder.encode] and [TextDecoder.decode]. *)
  utf8_encode : string → list byte;
  utf8_decode : list byte → string;
  (** [window.btoa] on a binary string, and [window.atob]; [None] is the
      InvalidCharacterError of [atob]. *)
  btoa : list byte → string;
  atob : string → option (list byte);
  (** [crypto.getRandomValues(new Uint8Array(len))], as the [n]-th draw. *)
  getRandomValues : nat → nat → list byte;
  (** PBKDF2 with SHA-256 and 100000 iterations, to a 256-bit AES-GCM key. *)
  pbkdf2 : list byte → list byte → CryptoKey;
  (** [crypto.subtle.encrypt] and [decrypt] with AES-GCM under a key and an
      iv; [None] is a rejected promise. *)
  aes_gcm_encrypt : CryptoKey → list byte → list byte → option (list byte);
  aes_gcm_decrypt : CryptoKey → list byte → list byte → option (list byte);
}.

(** Functional correctness of the primitives. *)
Class PlatformLaws (P : Platform) : Prop := {
  utf8_roundtrip : ∀ s, utf8_decode (utf8_encode s) = s;
  base64_roundtrip : ∀ bs, atob (btoa bs) = Some bs;
  btoa_nonempty : ∀ bs, bs ≠ [] → btoa bs ≠ "";
  aes_gcm_roundtrip : ∀ k n m c,
    aes_gcm_encrypt k n m = Some c → aes_gcm_decrypt k n c = Some m;
  (** the output carries the authentication tag, so it is never empty *)
  aes_gcm_tagged : ∀ k n m c, aes_gcm_encrypt k n m = Some c → c ≠ [];
}.

(** The idealised security properties: a key other than the one that sealed
    a message opens nothing, and distinct passwords give distinct keys. *)
Class IdealCrypto (P : Platform) : Prop := {
  aes_gcm_wrong_key : ∀ k k' n m c,
    aes_gcm_encrypt k n m = Some c → k ≠ k' → aes_gcm_decrypt k' n c = None;
  pbkdf2_inj : ∀ p p' s, pbkdf2 p s = pbkdf2 p' s → p = p';
}.

(** [encrypt] never fails on the platform. *)
Class TotalEncryption (P : Platform) :=
  aes_gcm_encrypt_total : ∀ k n m, is_Some (aes_gcm_encrypt k n m).

(** ** CryptoService *)

Module CryptoService.
Section WithPlatform.
Context {P : Platform}.

Definition _base64ToArrayBuffer (base64 : string) : option (list byte) :=
  atob base64.

Definition _arrayBufferToBase64 (buffer : list byte) : string :=
  btoa buffer.

Definition _deriveKey (password : string) (salt : list byte) : CryptoKey :=
  pbkdf2 (utf8_encode password) salt.

(** [encrypt] once the salt and the iv are drawn. *)
Definition encrypt_with (salt iv : list byte) (text : Value)
    (password : string) : Value :=
  if negb (truthy text) || negb (truthy_str password) then text
  else
    let key := _deriveKey password salt in
    match aes_gcm_encrypt key iv (utf8_encode (toString text)) with
    | Some encryptedContent =>
        VObj {| ct := _arrayBufferToBase64 encryptedContent;
                iv := _arrayBufferToBase64 iv;
                salt := _arrayBufferToBase64 salt |}
    | None => text
    end.

(** [encrypt] from the draw counter [n]: the result and the next
    counter.  Nothing is drawn when the guard returns early. *)
Definition encrypt (n : nat) (text : Value) (password : string)
    : Value * nat :=
  if negb (truthy text) || negb (truthy_str password) then (text, n)
  else
    let salt := getRandomValues n 16 in
    let iv := getRandomValues (S n) 12 in
    (encrypt_with salt iv text password, S (S n)).

Definition decrypt (encryptedData : Value) (password : string)
    : Completion Value :=
  match encryptedData with
  | VNull => Throw
  | VObj c =>
      if negb (truthy_str (ct c)) || negb (truthy_str password)
      then Normal encryptedData
      else
        match _base64ToArrayBuffer (salt c) with
        | None => Normal VNull
        | Some salt =>
            match _base64ToArrayBuffer (iv c) with
            | None => Normal VNull
            | Some iv =>
                let key := _deriveKey password salt in
                match _base64ToArrayBuffer (ct c) with
                | None => Normal VNull
                | Some data =>
                    match aes_gcm_decrypt key iv data with
                    | Some decryptedContent =>
                        Normal (VStr (utf8_decode decryptedContent))
                    | None => Normal VNull
                    end
                end
            end
        end
  | VUndefined | VStr _ => Normal encryptedData
  end.

End WithPlatform.
End CryptoService.

(** ** The data model *)

Module Folder.
Record t := mk {
  id : Z;
  name : string;
  isLocked : bool;
  passwordCheck : Value;
}.
Definition set_isLocked (b : bool) (f : t) : t :=
  mk (id f) (name f) b (passwordCheck f).
Definition set_passwordCheck (v : Value) (f : t) : t :=
  mk (id f) (name f) (isLocked f) v.
End Folder.

Module Prompt.
Record t := mk {
  id : Z;
  title : string;
  body : Value;
  notes : Value;
  folderId : option Z;
  tags : list string;
  isFavorite : bool;
  isLocked : bool;
  passwordCheck : Value;
  dateCreated : Z;
  dateModified : Z;
}.
Definition set_title (s : string) (p : t) : t :=
  mk (id p) s (body p) (notes p) (folderId p) (tags p) (isFavorite p)
     (isLocked p) (passwordCheck p) (dateCreated p) (dateModified p).
Definition set_body (v : Value) (p : t) : t :=
  mk (id p) (title p) v (notes p) (folderId p) (tags p) (isFavorite p)
     (isLocked p) (passwordCheck p) (dateCreated p) (dateModified p).
Definition set_notes (v : Value) (p : t) : t :=
  mk (id p) (title p) (body p) v (folderId p) (tags p) (isFavorite p)
     (isLocked p) (passwordCheck p) (dateCreated p) (dateModified p).
Definition set_folderId (o : option Z) (p : t) : t :=
  mk (id p) (title p) (body p) (notes p) o (tags p) (isFavorite p)
     (isLocked p) (passwordCheck p) (dateCreated p) (dateModified p).
Definition set_tags (l : list string) (p : t) : t :=
  mk (id p) (title p) (body p) (notes p) (folderId p) l (isFavorite p)
     (isLocked p) (passwordCheck p) (dateCreated p) (dateModified p).
Definition set_isLocked (b : bool) (p : t) : t :=
  mk (id p) (title p) (body p) (notes p) (folderId p) (tags p) (isFavorite p)
     b (passwordCheck p) (dateCreated p) (dateModified p).
Definition set_passwordCheck (v : Value) (p : t) : t :=
  mk (id p) (title p) (body p) (notes p) (folderId p) (tags p) (isFavorite p)
     (isLocked p) v (dateCreated p) (dateModified p).
Definition set_dateModified (d : Z) (p : t) : t :=
  mk (id p) (title p) (body p) (notes p) (folderId p) (tags p) (isFavorite p)
     (isLocked p) (passwordCheck p) (dateCreated p) d.
End Prompt.

#[global] Instance Folder_eq_dec : EqDecision Folder.t.
Proof. solve_decision. Defined.
#[global] Instance Prompt_eq_dec : EqDecision Prompt.t.
Proof. solve_decision. Defined.

(** The value of a folder [<select>]: "all", "--create-new--" or an id. *)
Inductive FolderChoice :=
| ChoiceAll
| ChoiceCreateNew
| ChoiceFolder (id : Z).

(** [state.view]: what the list shows. *)
Inductive FolderView :=
| ViewAll
| ViewFavorites
| ViewLocked
| ViewFolderId (id : Z).

Inductive View :=
| ViewFolder (id : FolderView)
| ViewTag (id : string)
| ViewSearch.

#[global] Instance FolderView_eq_dec : EqDecision FolderView.
Proof. solve_decision. Defined.
#[global] Instance View_eq_dec : EqDecision View.
Proof. solve_decision. Defined.

(** The in-memory [state] object (the fields the vault reads or writes). *)
Record State := mkState {
  prompts : list Prompt.t;
  folders : list Folder.t;
  view : View;
  currentPromptId : option Z;
  isCreatingNew : bool;
  currentTags : list string;
  isSelectMode : bool;
  selectedPromptIds : gset Z;
  folderToEditId : option Z;
  sessionPasswords : gmap string string;
  decryptedCache : gmap Z (Value * Value);
  newPromptLockInfo : option string;
}.

(** The form controls of [UI] the vault reads or writes. *)
Record UI := mkUI {
  promptTitle : string;
  promptBody : string;
  promptNotes : string;
  promptFolder : FolderChoice;
  promptLockSwitch_checked : bool;
  promptLockSwitch_disabled : bool;
  moveFolderSelect : option Z;
  movePasswordInput : string;
  promptDetails_shown : bool;
}.

(** The object stores of [DB], keyed by [id]. *)
Record Store := mkStore {
  PROMPTS : gmap Z Prompt.t;
  FOLDERS : gmap Z Folder.t;
}.

(** What the user does with a password dialog. *)
Inductive Answer :=
| Cancel
| Submit (password : string) (remember : bool).

(** A dialog shown by [ModalService]. *)
Inductive Dialog :=
| Alert (message : string)
| PasswordPrompt (message : string).

(** The user and the machine around the script. *)
Record Env := mkEnv {
  (** the answers the user will give to the password dialogs, in order *)
  answers : list Answer;
  (** the dialogs shown so far, latest first *)
  dialogs : list Dialog;
  (** how many times [getRandomValues] was called *)
  draws : nat;
  (** [Date.now()] *)
  now : Z;
  (** what [navigator.clipboard.writeText] last received *)
  clipboard : option string;
}.

Record World := mkWorld {
  state : State;
  ui : UI;
  db : Store;
  env : Env;
}.

Definition with_state (f : State → State) (w : World) : World :=
  mkWorld (f (state w)) (ui w) (db w) (env w).
Definition with_ui (f : UI → UI) (w : World) : World :=
  mkWorld (state w) (f (ui w)) (db w) (env w).
Definition with_db (f : Store → Store) (w : World) : World :=
  mkWorld (state w) (ui w) (f (db w)) (env w).
Definition with_env (f : Env → Env) (w : World) : World :=
  mkWorld (state w) (ui w) (db w) (f (env w)).

Definition set_prompts (x : list Prompt.t) (s : State) : State :=
  mkState x (folders s) (view s) (currentPromptId s) (isCreatingNew s)
    (currentTags s) (isSelectMode s) (selectedPromptIds s) (folderToEditId
    s) (sessionPasswords s) (decryptedCache s) (newPromptLockInfo s).
Definition set_folders (x : list Folder.t) (s : State) : State :=
  mkState (prompts s) x (view s) (currentPromptId s) (isCreatingNew s)
    (currentTags s) (isSelectMode s) (selectedPromptIds s) (folderToEditId
    s) (sessionPasswords s) (decryptedCache s) (newPromptLockInfo s).
Definition set_view (x : View) (s : State) : State :=
  mkState (prompts s) (folders s) x (currentPromptId s) (isCreatingNew s)
    (currentTags s) (isSelectMode s) (selectedPromptIds s) (folderToEditId
    s) (sessionPasswords s) (decryptedCache s) (newPromptLockInfo s).
Definition set_currentPromptId (x : option Z) (s : State) : State :=
  mkState (prompts s) (folders s) (view s) x (isCreatingNew s) (currentTags
    s) (isSelectMode s) (selectedPromptIds s) (folderToEditId s)
    (sessionPasswords s) (decryptedCache s) (newPromptLockInfo s).
Definition set_isCreatingNew (x : bool) (s : State) : State :=
  mkState (prompts s) (folders s) (view s) (currentPromptId s) x
    (currentTags s) (isSelectMode s) (selectedPromptIds s) (folderToEditId
    s) (sessionPasswords s) (decryptedCache s) (newPromptLockInfo s).
Definition set_currentTags (x : list string) (s : State) : State :=
  mkState (prompts s) (folders s) (view s) (currentPromptId s)
    (isCreatingNew s) x (isSelectMode s) (selectedPromptIds s)
    (folderToEditId s) (sessionPasswords s) (decryptedCache s)
    (newPromptLockInfo s).
Definition set_isSelectMode (x : bool) (s : State) : State :=
  mkState (prompts s) (folders s) (view s) (currentPromptId s)
    (isCreatingNew s) (currentTags s) x (selectedPromptIds s)
    (folderToEditId s) (sessionPasswords s) (decryptedCache s)
    (newPromptLockInfo s).
Definition set_selectedPromptIds (x : gset Z) (s : State) : State :=
  mkState (prompts s) (folders s) (view s) (currentPromptId s)
    (isCreatingNew s) (currentTags s) (isSelectMode s) x (folderToEditId s)
    (sessionPasswords s) (decryptedCache s) (newPromptLockInfo s).
Definition set_folderToEditId (x : option Z) (s : State) : State :=
  mkState (prompts s) (folders s) (view s) (currentPromptId s)
    (isCreatingNew s) (currentTags s) (isSelectMode s) (selectedPromptIds s)
    x (sessionPasswords s) (decryptedCache s) (newPromptLockInfo s).
Definition set_sessionPasswords (x : gmap string string) (s : State) : State :=
  mkState (prompts s) (folders s) (view s) (currentPromptId s)
    (isCreatingNew s) (currentTags s) (isSelectMode s) (selectedPromptIds s)
    (folderToEditId s) x (decryptedCache s) (newPromptLockInfo s).
Definition set_decryptedCache (x : gmap Z (Value * Value)) (s : State) : State :=
  mkState (prompts s) (folders s) (view s) (currentPromptId s)
    (isCreatingNew s) (currentTags s) (isSelectMode s) (selectedPromptIds s)
    (folderToEditId s) (sessionPasswords s) x (newPromptLockInfo s).
Definition set_newPromptLockInfo (x : option string) (s : State) : State :=
  mkState (prompts s) (folders s) (view s) (currentPromptId s)
    (isCreatingNew s) (currentTags s) (isSelectMode s) (selectedPromptIds s)
    (folderToEditId s) (sessionPasswords s) (decryptedCache s) x.

Definition set_promptTitle (x : string) (u : UI) : UI :=
  mkUI x (promptBody u) (promptNotes u) (promptFolder u)
    (promptLockSwitch_checked u) (promptLockSwitch_disabled u)
    (moveFolderSelect u) (movePasswordInput u) (promptDetails_shown u).
Definition set_promptBody (x : string) (u : UI) : UI :=
  mkUI (promptTitle u) x (promptNotes u) (promptFolder u)
    (promptLockSwitch_checked u) (promptLockSwitch_disabled u)
    (moveFolderSelect u) (movePasswordInput u) (promptDetails_shown u).
Definition set_promptNotes (x : string) (u : UI) : UI :=
  mkUI (promptTitle u) (promptBody u) x (promptFolder u)
    (promptLockSwitch_checked u) (promptLockSwitch_disabled u)
    (moveFolderSelect u) (movePasswordInput u) (promptDetails_shown u).
Definition set_promptFolder (x : FolderChoice) (u : UI) : UI :=
  mkUI (promptTitle u) (promptBody u) (promptNotes u) x
    (promptLockSwitch_checked u) (promptLockSwitch_disabled u)
    (moveFolderSelect u) (movePasswordInput u) (promptDetails_shown u).
Definition set_promptLockSwitch_checked (x : bool) (u : UI) : UI :=
  mkUI (promptTitle u) (promptBody u) (promptNotes u) (promptFolder u)
    x (promptLockSwitch_disabled u)
    (moveFolderSelect u) (movePasswordInput u) (promptDetails_shown u).
Definition set_promptLockSwitch_disabled (x : bool) (u : UI) : UI :=
  mkUI (promptTitle u) (promptBody u) (promptNotes u) (promptFolder u)
    (promptLockSwitch_checked u) x
    (moveFolderSelect u) (movePasswordInput u) (promptDetails_shown u).
Definition set_promptDetails_shown (x : bool) (u : UI) : UI :=
  mkUI (promptTitle u) (promptBody u) (promptNotes u) (promptFolder u)
    (promptLockSwitch_checked u) (promptLockSwitch_disabled u)
    (moveFolderSelect u) (movePasswordInput u) x.

Definition set_PROMPTS (m : gmap Z Prompt.t) (d : Store) : Store :=
  mkStore m (FOLDERS d).
Definition set_FOLDERS (m : gmap Z Folder.t) (d : Store) : Store :=
  mkStore (PROMPTS d) m.

Definition set_answers (l : list Answer) (e : Env) : Env :=
  mkEnv l (dialogs e) (draws e) (now e) (clipboard e).
Definition set_dialogs (l : list Dialog) (e : Env) : Env :=
  mkEnv (answers e) l (draws e) (now e) (clipboard e).
Definition set_draws (n : nat) (e : Env) : Env :=
  mkEnv (answers e) (dialogs e) n (now e) (clipboard e).
Definition set_clipboard (c : option string) (e : Env) : Env :=
  mkEnv (answers e) (dialogs e) (draws e) (now e) c.

(** ** Handlers as state transformers that may throw

    An [async] handler is a function of the world that returns a completion
    and the world it leaves behind; what was mutated before an uncaught
    exception stays mutated. *)

Definition M (A : Type) : Type := World → Completion A * World.

#[global] Instance M_ret : MRet M := λ A a w, (Normal a, w).
#[global] Instance M_bind : MBind M := λ A B f m w,
  match m w with
  | (Normal a, w') => f a w'
  | (Throw, w') => (Throw, w')
  end.

Definition throw {A} : M A := λ w, (Throw, w).
Definition gets {A} (f : World → A) : M A := λ w, (Normal (f w), w).
Definition modify (f : World → World) : M unit := λ w, (Normal tt, f w).
Definition lift {A} (c : Completion A) : M A := λ w, (c, w).

(** A [for ... of] loop over a list computed before the loop. *)
Fixpoint for_of {A} (l : list A) (body : A → M unit) : M unit :=
  match l with
  | [] => mret tt
  | a :: l' => body a ≫= λ _, for_of l' body
  end.

(** ** Object references

    The objects of [state.prompts] and [state.folders] are mutated in place;
    a reference to one of them is its position in the array. *)

Definition read_prompt (i : nat) : M Prompt.t := λ w,
  match prompts (state w) !! i with
  | Some p => (Normal p, w)
  | None => (Throw, w)
  end.

Definition update_prompt (i : nat) (f : Prompt.t → Prompt.t) : M unit :=
  modify (with_state (λ s, set_prompts (alter f i (prompts s)) s)).

Definition update_folder (i : nat) (f : Folder.t → Folder.t) : M unit :=
  modify (with_state (λ s, set_folders (alter f i (folders s)) s)).

(** [array.filter(pred)], as the positions of the objects kept. *)
Fixpoint filter_from {A} (pred : A → bool) (l : list A) (i : nat) : list nat :=
  match l with
  | [] => []
  | a :: l' =>
      if pred a then i :: filter_from pred l' (S i)
      else filter_from pred l' (S i)
  end.

Definition filter_refs {A} (pred : A → bool) (l : list A) : list nat :=
  filter_from pred l 0.

(** [state.folders.find((f) => f.id === folderId)]: position and object. *)
Definition find_folder (fs : list Folder.t) (folderId : option Z)
    : option (nat * Folder.t) :=
  match folderId with
  | None => None
  | Some fid => list_find (λ f, Folder.id f = fid) fs
  end.

(** [state.prompts.find((p) => p.id === promptId)]. *)
Definition find_prompt (ps : list Prompt.t) (promptId : option Z)
    : option (nat * Prompt.t) :=
  match promptId with
  | None => None
  | Some pid => list_find (λ p, Prompt.id p = pid) ps
  end.

(** [(p) => p.folderId === folderId] for a numeric [folderId]. *)
Definition in_folder (fid : Z) (p : Prompt.t) : bool :=
  bool_decide (Prompt.folderId p = Some fid).

(** ** DB *)

Module DB.

Definition put_prompt (item : Prompt.t) : M unit :=
  modify (with_db (λ d, set_PROMPTS (<[Prompt.id item := item]> (PROMPTS d)) d)).

Definition put_folder (item : Folder.t) : M unit :=
  modify (with_db (λ d, set_FOLDERS (<[Folder.id item := item]> (FOLDERS d)) d)).

(** [DB.bulkPut(DB.STORES.PROMPTS, items)] for an array of references. *)
Definition bulkPut_prompts (items : list nat) : M unit :=
  for_of items (λ i, read_prompt i ≫= put_prompt).

End DB.

(** ** ModalService *)

Module ModalService.

Definition dq : string := String "034"%char EmptyString.

(** A name between double quotes, as the messages show it. *)
Definition quoted (s : string) : string := dq +:+ s +:+ dq.

Definition show (d : Dialog) : M unit :=
  modify (with_env (λ e, set_dialogs (d :: dialogs e) e)).

Definition alert (message : string) : M unit := show (Alert message).

Definition next_answer : M (option Answer) := λ w,
  match answers (env w) with
  | [] => (Normal None, w)
  | a :: rest => (Normal (Some a), with_env (set_answers rest) w)
  end.

(** [password(message)] without [validate]: the text typed, or [null] when
    the dialog is cancelled (as it is once the user has no answer left). *)
Definition password (message : string) : M (option string) :=
  show (PasswordPrompt message);;
  a ← next_answer;
  mret (match a with
        | Some (Submit pwd _) => Some pwd
        | Some Cancel | None => None
        end).

(** The dialog with [validate]: it stays open, consuming answers, until one
    validates or the user cancels. *)
Fixpoint validated_loop (validate : string → Completion bool)
    (script : list Answer) : option (string * bool) * list Answer :=
  match script with
  | [] => (None, [])
  | Cancel :: rest => (None, rest)
  | Submit pwd remember :: rest =>
      if negb (truthy_str pwd) then validated_loop validate rest
      else
        match validate pwd with
        | Normal true => (Some (pwd, remember), rest)
        | Normal false | Throw => validated_loop validate rest
        end
  end.

Definition run_validated (validate : string → Completion bool)
    : M (option (string * bool)) := λ w,
  let '(r, rest) := validated_loop validate (answers (env w)) in
  (Normal r, with_env (set_answers rest) w).

Definition password_validated (message : string)
    (validate : string → Completion bool) : M (option (string * bool)) :=
  show (PasswordPrompt message);;
  run_validated validate.

End ModalService.

(** [!password] for the result of a password dialog. *)
Definition falsy (o : option string) : bool :=
  match o with
  | Some s => negb (truthy_str s)
  | None => true
  end.

(** [check !== String(id)] *)
Definition check_fails (check : Value) (id : Z) : bool :=
  negb (bool_decide (check = VStr (String_ id))).

(** ** The vault operations *)

Section Handlers.
Context {P : Platform}.

(** [await CryptoService.encrypt(text, password)]. *)
Definition encrypt (text : Value) (password : string) : M Value := λ w,
  let '(v, n) := CryptoService.encrypt (draws (env w)) text password in
  (Normal v, with_env (set_draws n) w).

(** [await CryptoService.decrypt(data, password)]. *)
Definition decrypt (data : Value) (password : string) : M Value :=
  lift (CryptoService.decrypt data password).

(** [p.body = await CryptoService.decrypt(p.body, password)] and the same
    for [p.notes]: the body of the loops of lines 1965-1968 and 2656-2659. *)
Definition decrypt_fields (password : string) (p : nat) : M unit :=
  o ← read_prompt p;
  b ← decrypt (Prompt.body o) password;
  update_prompt p (Prompt.set_body b);;
  o ← read_prompt p;
  n ← decrypt (Prompt.notes o) password;
  update_prompt p (Prompt.set_notes n).

(** [p.body = await CryptoService.encrypt(p.body, password)] and the same
    for [p.notes]: the body of the loop of lines 2676-2679. *)
Definition encrypt_fields (password : string) (p : nat) : M unit :=
  o ← read_prompt p;
  b ← encrypt (Prompt.body o) password;
  update_prompt p (Prompt.set_body b);;
  o ← read_prompt p;
  n ← encrypt (Prompt.notes o) password;
  update_prompt p (Prompt.set_notes n).

(** [handleToggleFolderLock], lines 2634-2684 (the final [updateUI] only
    renders). *)
Definition handleToggleFolderLock : M unit :=
  fs ← gets (λ w, folders (state w));
  edit ← gets (λ w, folderToEditId (state w));
  match find_folder fs edit with
  | None => mret tt
  | Some (fi, folder) =>
      if Folder.isLocked folder then
        (* Unlock *)
        password ← ModalService.password
          ("Enter password to unlock " +:+ ModalService.quoted (Folder.name folder));
        match password with
        | None => mret tt
        | Some password =>
            if negb (truthy_str password) then mret tt
            else
              check ← decrypt (Folder.passwordCheck folder) password;
              if check_fails check (Folder.id folder) then
                ModalService.alert "Incorrect password."
              else
                update_folder fi (Folder.set_isLocked false);;
                update_folder fi (Folder.set_passwordCheck VNull);;
                ps ← gets (λ w, prompts (state w));
                let promptsToUpdate :=
                  filter_refs (in_folder (Folder.id folder)) ps in
                for_of promptsToUpdate (decrypt_fields password);;
                DB.bulkPut_prompts promptsToUpdate;;
                DB.put_folder
                  (Folder.set_passwordCheck VNull
                     (Folder.set_isLocked false folder))
        end
      else
        (* Lock *)
        password ← ModalService.password
          ("Set a password for " +:+ ModalService.quoted (Folder.name folder));
        match password with
        | None => mret tt
        | Some password =>
            if negb (truthy_str password) then mret tt
            else
              update_folder fi (Folder.set_isLocked true);;
              check ← encrypt (VStr (String_ (Folder.id folder))) password;
              update_folder fi (Folder.set_passwordCheck check);;
              ps ← gets (λ w, prompts (state w));
              let promptsToUpdate :=
                filter_refs (in_folder (Folder.id folder)) ps in
              for_of promptsToUpdate (encrypt_fields password);;
              DB.bulkPut_prompts promptsToUpdate;;
              DB.put_folder
                (Folder.set_passwordCheck check
                   (Folder.set_isLocked true folder))
        end
  end.

(** [`folder-${id}`] and [`prompt-${id}`], the keys of
    [state.sessionPasswords]; a [null] id prints as "null". *)
Definition id_text (id : option Z) : string :=
  match id with
  | Some i => String_ i
  | None => "null"
  end.
Definition folder_key (id : option Z) : string := "folder-" +:+ id_text id.
Definition prompt_key (id : Z) : string := "prompt-" +:+ String_ id.

(** [state.sessionPasswords[key]] as a condition: a remembered, non-empty
    password. *)
Definition remembered (m : gmap string string) (key : string)
    : option string :=
  match m !! key with
  | Some s => if truthy_str s then Some s else None
  | None => None
  end.

(** [prompt.title || "Untitled"] *)
Definition title_or_untitled (p : Prompt.t) : string :=
  if truthy_str (Prompt.title p) then Prompt.title p else "Untitled".

(** The source of a move is locked: the dialog, the oracle check and the
    decryption of both fields (lines 2311-2331 and 2333-2351).  [None] is
    the [continue] of a skipped prompt. *)
Definition unlock_for_move (message : string) (passwordCheck : Value)
    (id : Z) (wrong : string) (prompt : nat)
    : M (option (Value * Value)) :=
  oldPass ← ModalService.password message;
  if falsy oldPass then
    ModalService.alert "Skipping prompt.";; mret None
  else
    let oldPass := default EmptyString oldPass in
    check ← decrypt passwordCheck oldPass;
    if check_fails check id then
      ModalService.alert wrong;; mret None
    else
      o ← read_prompt prompt;
      currentBody ← decrypt (Prompt.body o) oldPass;
      o ← read_prompt prompt;
      currentNotes ← decrypt (Prompt.notes o) oldPass;
      mret (Some (currentBody, currentNotes)).

(** One iteration of the loop of [handleConfirmMove], lines 2303-2365. *)
Definition move_one (newFolderId : option Z) (destPassword : option string)
    (prompt : nat) : M unit :=
  o ← read_prompt prompt;
  fs ← gets (λ w, folders (state w));
  let originalFolder := find_folder fs (Prompt.folderId o) in
  current ←
    match originalFolder with
    | Some (_, originalFolder) =>
        if Folder.isLocked originalFolder then
          unlock_for_move
            ("Enter password for " +:+
             ModalService.quoted (Folder.name originalFolder) +:+
             " to move prompt " +:+
             ModalService.quoted (title_or_untitled o))
            (Folder.passwordCheck originalFolder) (Folder.id originalFolder)
            "Skipping prompt: incorrect password for source folder."
            prompt
        else if Prompt.isLocked o then
          unlock_for_move
            ("Enter password for prompt " +:+
             ModalService.quoted (title_or_untitled o))
            (Prompt.passwordCheck o) (Prompt.id o)
            "Skipping prompt: incorrect password for prompt."
            prompt
        else mret (Some (Prompt.body o, Prompt.notes o))
    | None =>
        if Prompt.isLocked o then
          unlock_for_move
            ("Enter password for prompt " +:+
             ModalService.quoted (title_or_untitled o))
            (Prompt.passwordCheck o) (Prompt.id o)
            "Skipping prompt: incorrect password for prompt."
            prompt
        else mret (Some (Prompt.body o, Prompt.notes o))
    end;
  match current with
  | None => mret tt
  | Some (currentBody, currentNotes) =>
      update_prompt prompt (Prompt.set_isLocked false);;
      update_prompt prompt (Prompt.set_passwordCheck VNull);;
      (if negb (falsy destPassword) then
         let destPassword := default EmptyString destPassword in
         b ← encrypt currentBody destPassword;
         update_prompt prompt (Prompt.set_body b);;
         n ← encrypt currentNotes destPassword;
         update_prompt prompt (Prompt.set_notes n)
       else
         update_prompt prompt (Prompt.set_body currentBody);;
         update_prompt prompt (Prompt.set_notes currentNotes));;
      update_prompt prompt (Prompt.set_folderId newFolderId)
  end.

(** The rest of [handleConfirmMove] once the destination is settled:
    lines 2303-2370. *)
Definition move_all (newFolderId : option Z) (destPassword : option string)
    (promptsToUpdate : list nat) : M unit :=
  for_of promptsToUpdate (move_one newFolderId destPassword);;
  DB.bulkPut_prompts promptsToUpdate;;
  modify (with_state (set_selectedPromptIds ∅));;
  modify (with_state (set_isSelectMode false)).

(** [handleConfirmMove], lines 2277-2371. *)
Definition handleConfirmMove : M unit :=
  newFolderId ← gets (λ w, moveFolderSelect (ui w));
  ps ← gets (λ w, prompts (state w));
  selected ← gets (λ w, selectedPromptIds (state w));
  let promptsToUpdate :=
    filter_refs (λ p, bool_decide (Prompt.id p ∈ selected)) ps in
  fs ← gets (λ w, folders (state w));
  match find_folder fs newFolderId with
  | Some (_, destFolder) =>
      if Folder.isLocked destFolder then
        destPassword ← gets (λ w, movePasswordInput (ui w));
        check ← decrypt (Folder.passwordCheck destFolder) destPassword;
        if check_fails check (Folder.id destFolder) then
          ModalService.alert "Incorrect password for the destination folder."
        else move_all newFolderId (Some destPassword) promptsToUpdate
      else move_all newFolderId None promptsToUpdate
  | None => move_all newFolderId None promptsToUpdate
  end.

(** [String.prototype.trim] on ASCII white space. *)
Fixpoint trimStart (s : string) : string :=
  match s with
  | String c s' => if Ascii.is_space c then trimStart s' else s
  | EmptyString => EmptyString
  end.
Definition trim (s : string) : string :=
  String.rev (trimStart (String.rev (trimStart s))).

(** Assigning a value to the [value] of a text control. *)
Definition to_input_value (v : Value) : string :=
  match v with
  | VNull => EmptyString
  | _ => toString v
  end.

(** [Number(UI.promptFolder.value)] unless "all" or "--create-new--". *)
Definition choice_folderId (c : FolderChoice) : option Z :=
  match c with
  | ChoiceAll | ChoiceCreateNew => None
  | ChoiceFolder id => Some id
  end.

(** [_internalCloseDetailsView], lines 1044-1070, once its timer fired. *)
Definition _internalCloseDetailsView : M unit :=
  modify (with_state (set_isCreatingNew false));;
  modify (with_state (set_currentPromptId None));;
  modify (with_state (set_newPromptLockInfo None));;
  modify (with_state (set_decryptedCache ∅));;
  modify (with_ui (set_promptDetails_shown false)).

(** [handleSavePrompt], lines 1786-1858 (desktop layout; rendering is left
    out). *)
Definition handleSavePrompt : M unit :=
  title ← gets (λ w, trim (promptTitle (ui w)));
  body ← gets (λ w, promptBody (ui w));
  notes ← gets (λ w, trim (promptNotes (ui w)));
  if negb (truthy_str title) && negb (truthy_str body)
     && negb (truthy_str notes) then
    ModalService.alert "Prompt cannot be completely empty."
  else
    now ← gets (λ w, now (env w));
    folderId ← gets (λ w, choice_folderId (promptFolder (ui w)));
    creating ← gets (λ w, isCreatingNew (state w));
    promptToSave ←
      (if (creating : bool) then
         lockInfo ← gets (λ w, newPromptLockInfo (state w));
         ps ← gets (λ w, prompts (state w));
         (* title, folderId, tags and dateModified are assigned below *)
         let fresh (b n c : Value) (locked : bool) :=
           Prompt.mk now EmptyString b n None [] false locked c now 0 in
         match lockInfo with
         | Some password =>
             b ← encrypt (VStr body) password;
             n ← encrypt (VStr notes) password;
             c ← encrypt (VStr (String_ now)) password;
             modify (with_state
               (set_prompts (ps ++ [fresh b n c true])));;
             mret (length ps)
         | None =>
             modify (with_state
               (set_prompts
                  (ps ++ [fresh (VStr body) (VStr notes) VUndefined false])));;
             mret (length ps)
         end
       else
         ps ← gets (λ w, prompts (state w));
         current ← gets (λ w, currentPromptId (state w));
         session ← gets (λ w, sessionPasswords (state w));
         match find_prompt ps current with
         | None =>
             match remembered session (folder_key folderId) with
             | Some password => encrypt (VStr body) password;; throw
             | None => throw
             end
         | Some (i, o) =>
             let password :=
               match remembered session (folder_key folderId) with
               | Some password => Some password
               | None => remembered session (prompt_key (Prompt.id o))
               end in
             match password with
             | Some password =>
                 b ← encrypt (VStr body) password;
                 update_prompt i (Prompt.set_body b);;
                 n ← encrypt (VStr notes) password;
                 update_prompt i (Prompt.set_notes n);;
                 mret i
             | None =>
                 update_prompt i (Prompt.set_body (VStr body));;
                 update_prompt i (Prompt.set_notes (VStr notes));;
                 mret i
             end
         end);
    update_prompt promptToSave (Prompt.set_title title);;
    update_prompt promptToSave (Prompt.set_folderId folderId);;
    tags ← gets (λ w, currentTags (state w));
    update_prompt promptToSave (Prompt.set_tags tags);;
    update_prompt promptToSave (Prompt.set_dateModified now);;
    o ← read_prompt promptToSave;
    DB.put_prompt o;;
    _internalCloseDetailsView.

(** A call to an [async] function that is not awaited: an exception in it
    does not reach the caller. *)
Definition detached (m : M unit) : M unit := λ w, (Normal tt, (m w).2).

(** [(folder && folder.isLocked)] for the result of [find]. *)
Definition folder_isLocked (folder : option (nat * Folder.t)) : bool :=
  match folder with
  | Some (_, f) => Folder.isLocked f
  | None => false
  end.

(** [item.name || item.title] for a folder and for a prompt. *)
Definition folder_label (f : Folder.t) : string :=
  if truthy_str (Folder.name f) then Folder.name f else "undefined".
Definition prompt_label (p : Prompt.t) : string := Prompt.title p.

(** The [validate] callback of lines 952-959 and 2118-2125. *)
Definition validate (passwordCheck : Value) (id : Z) (pwd : string)
    : Completion bool :=
  if negb (truthy_str pwd) then Normal false
  else
    match CryptoService.decrypt passwordCheck pwd with
    | Normal check => Normal (negb (check_fails check id))
    | Throw => Throw
    end.

(** [state.decryptedCache[p.id] = { body, notes }] after decrypting both. *)
Definition cache_prompt (password : string) (p : nat) : M unit :=
  o ← read_prompt p;
  body ← decrypt (Prompt.body o) password;
  notes ← decrypt (Prompt.notes o) password;
  modify (with_state (λ s,
    set_decryptedCache (<[Prompt.id o := (body, notes)]> (decryptedCache s)) s)).

(** The owner whose password opens a prompt: the folder when it is locked,
    else the prompt (lines 934-947 and 2100-2108). *)
Inductive Owner :=
| OwnerFolder (f : Folder.t)
| OwnerPrompt (p : Prompt.t).

Definition owner_of (folder : option (nat * Folder.t)) (prompt : Prompt.t)
    : Owner :=
  match folder with
  | Some (_, f) => if Folder.isLocked f then OwnerFolder f else OwnerPrompt prompt
  | None => OwnerPrompt prompt
  end.

Definition owner_key (o : Owner) : string :=
  match o with
  | OwnerFolder f => folder_key (Some (Folder.id f))
  | OwnerPrompt p => prompt_key (Prompt.id p)
  end.

Definition owner_message (o : Owner) : string :=
  match o with
  | OwnerFolder f =>
      "Enter password for folder " +:+ ModalService.quoted (folder_label f)
  | OwnerPrompt p =>
      "Enter password for prompt " +:+ ModalService.quoted (prompt_label p)
  end.

Definition owner_validate (o : Owner) : string → Completion bool :=
  match o with
  | OwnerFolder f => validate (Folder.passwordCheck f) (Folder.id f)
  | OwnerPrompt p => validate (Prompt.passwordCheck p) (Prompt.id p)
  end.

(** The block "Cache decrypted content" of lines 970-988 and 2134-2157. *)
Definition cache_unlocked (o : Owner) (prompt : nat) (password : string)
    : M unit :=
  match o with
  | OwnerFolder f =>
      ps ← gets (λ w, prompts (state w));
      let promptsToCache := filter_refs (in_folder (Folder.id f)) ps in
      for_of promptsToCache (cache_prompt password)
  | OwnerPrompt _ => cache_prompt password prompt
  end.

Definition remember_password (key password : string) : M unit :=
  modify (with_state (λ s,
    set_sessionPasswords (<[key := password]> (sessionPasswords s)) s)).

(** [prompt.folderId || "all"] *)
Definition folder_choice (folderId : option Z) : FolderChoice :=
  match folderId with
  | Some id => if bool_decide (id = 0) then ChoiceAll else ChoiceFolder id
  | None => ChoiceAll
  end.

(** Lines 945-994 of [renderPromptDetails]: when the prompt is locked and
    no password is at hand, ask for the password of the owner, remember it
    if asked to and cache the decrypted content; [None] when the dialog is
    cancelled, which closes the details. *)
Definition resolve_password (isLocked : bool) (item : Owner) (pi : nat)
    (password : option string) : M (option (option string)) :=
  if isLocked && falsy password then
    result ← ModalService.password_validated
      (owner_message item) (owner_validate item);
    match result with
    | Some (password, remember) =>
        (if (remember : bool)
         then remember_password (owner_key item) password
         else mret tt);;
        cache_unlocked item pi password;;
        mret (Some (Some password))
    | None => _internalCloseDetailsView;; mret None
    end
  else mret (Some password).

(** Lines 996-1008 of [renderPromptDetails]: fill the form. *)
Definition fill_details (pi : nat) (prompt : Prompt.t)
    (isLocked isLockedByFolder isLockedIndividually : bool)
    (password : string) : M unit :=
  modify (with_ui (set_promptTitle (Prompt.title prompt)));;
  o ← read_prompt pi;
  b ← (if isLocked then decrypt (Prompt.body o) password
       else mret (Prompt.body o));
  modify (with_ui (set_promptBody (to_input_value b)));;
  o ← read_prompt pi;
  n ← (if isLocked then decrypt (Prompt.notes o) password
       else mret (if truthy (Prompt.notes o) then Prompt.notes o
                  else VStr EmptyString));
  modify (with_ui (set_promptNotes (to_input_value n)));;
  modify (with_ui (set_promptFolder (folder_choice (Prompt.folderId o))));;
  modify (with_ui (set_promptLockSwitch_checked isLockedIndividually));;
  modify (with_ui (set_promptLockSwitch_disabled isLockedByFolder));;
  modify (with_state (set_currentTags (Prompt.tags o))).

(** [renderPromptDetails], lines 911-1018.  For a new prompt the folder
    control is preset from [state.view]; the view id "locked" has no
    counterpart in [FolderChoice] and leaves the control at "all". *)
Definition renderPromptDetails (show : bool)
    (temporaryPassword : option string) : M unit :=
  if show then
    modify (with_ui (set_promptDetails_shown true));;
    creating ← gets (λ w, isCreatingNew (state w));
    if (creating : bool) then
      modify (with_ui (set_promptTitle EmptyString));;
      modify (with_ui (set_promptBody EmptyString));;
      modify (with_ui (set_promptNotes EmptyString));;
      v ← gets (λ w, view (state w));
      modify (with_ui (set_promptFolder
        match v with
        | ViewFolder (ViewFolderId id) => ChoiceFolder id
        | _ => ChoiceAll
        end));;
      lockInfo ← gets (λ w, newPromptLockInfo (state w));
      modify (with_ui (set_promptLockSwitch_checked (bool_decide (is_Some lockInfo))));;
      modify (with_ui (set_promptLockSwitch_disabled false));;
      modify (with_state (set_currentTags []))
    else
      ps ← gets (λ w, prompts (state w));
      current ← gets (λ w, currentPromptId (state w));
      match find_prompt ps current with
      | None => mret tt
      | Some (pi, prompt) =>
          fs ← gets (λ w, folders (state w));
          let folder := find_folder fs (Prompt.folderId prompt) in
          let isLockedByFolder := folder_isLocked folder in
          let isLockedIndividually := Prompt.isLocked prompt in
          let isLocked := isLockedByFolder || isLockedIndividually in
          let item := owner_of folder prompt in
          let key := owner_key item in
          session ← gets (λ w, sessionPasswords (state w));
          let password :=
            if negb (falsy temporaryPassword) then temporaryPassword
            else remembered session key in
          resolved ← resolve_password isLocked item pi password;
          match resolved with
          | None => mret tt
          | Some password =>
              fill_details pi prompt isLocked isLockedByFolder
                isLockedIndividually (default EmptyString password)
          end
      end
  else modify (with_ui (set_promptDetails_shown false)).

(** [openPromptDetailsView], lines 1078-1103. *)
Definition openPromptDetailsView (isNew : bool) (promptId : option Z)
    (temporaryPassword : option string) : M unit :=
  modify (with_state (set_isCreatingNew isNew));;
  modify (with_state (set_currentPromptId promptId));;
  modify (with_state (set_newPromptLockInfo None));;
  detached (renderPromptDetails true temporaryPassword).

(** What was clicked inside a row of the prompt list. *)
Inductive ClickTarget :=
| OnQuickCopy
| OnFavorite
| OnTag (tag : string)
| OnRow.

Definition toggle_isFavorite (p : Prompt.t) : Prompt.t :=
  Prompt.mk (Prompt.id p) (Prompt.title p) (Prompt.body p) (Prompt.notes p)
    (Prompt.folderId p) (Prompt.tags p) (negb (Prompt.isFavorite p))
    (Prompt.isLocked p) (Prompt.passwordCheck p) (Prompt.dateCreated p)
    (Prompt.dateModified p).

(** The quick-copy branch of [handlePromptListClick], lines 2020-2066. *)
Definition quickCopy (prompt : Prompt.t) : M unit :=
  fs ← gets (λ w, folders (state w));
  let folder := find_folder fs (Prompt.folderId prompt) in
  let isLocked := folder_isLocked folder || Prompt.isLocked prompt in
  if isLocked then
    password ← ModalService.password "Enter password to copy content:";
    if falsy password then mret tt
    else
      let password := default EmptyString password in
      let checkString :=
        match folder with
        | Some (_, f) =>
            if Folder.isLocked f then Folder.id f else Prompt.id prompt
        | None => Prompt.id prompt
        end in
      let checkValue :=
        match folder with
        | Some (_, f) =>
            if Folder.isLocked f then Folder.passwordCheck f
            else Prompt.passwordCheck prompt
        | None => Prompt.passwordCheck prompt
        end in
      decryptedCheck ← decrypt checkValue password;
      if check_fails decryptedCheck checkString then
        ModalService.alert "Incorrect password."
      else
        bodyToCopy ← decrypt (Prompt.body prompt) password;
        modify (with_env (set_clipboard (Some (toString bodyToCopy))))
  else
    modify (with_env (set_clipboard (Some (toString (Prompt.body prompt))))).

(** The last branch of [handlePromptListClick], lines 2093-2164. *)
Definition selectOrOpen (pi : nat) (prompt : Prompt.t) : M unit :=
  let promptId := Prompt.id prompt in
  selecting ← gets (λ w, isSelectMode (state w));
  if (selecting : bool) then
    modify (with_state (λ s,
      set_selectedPromptIds
        (if bool_decide (promptId ∈ selectedPromptIds s)
         then selectedPromptIds s ∖ {[promptId]}
         else selectedPromptIds s ∪ {[promptId]}) s))
  else
    fs ← gets (λ w, folders (state w));
    let folder := find_folder fs (Prompt.folderId prompt) in
    let isLockedByFolder := folder_isLocked folder in
    let isLockedIndividually := Prompt.isLocked prompt in
    let isLocked := isLockedByFolder || isLockedIndividually in
    if isLocked then
      let item := owner_of folder prompt in
      let key := owner_key item in
      session ← gets (λ w, sessionPasswords (state w));
      match remembered session key with
      | Some _ => openPromptDetailsView false (Some promptId) None
      | None =>
          result ← ModalService.password_validated
            (owner_message item) (owner_validate item);
          match result with
          | Some (password, remember) =>
              (if (remember : bool) then remember_password key password
               else mret tt);;
              cache_unlocked item pi password;;
              openPromptDetailsView false (Some promptId) (Some password)
          | None => mret tt
          end
      end
    else openPromptDetailsView false (Some promptId) None.

(** [handlePromptListClick], lines 2010-2165, for a click on the row of the
    prompt [promptId]. *)
Definition handlePromptListClick (target : ClickTarget) (promptId : Z)
    : M unit :=
  ps ← gets (λ w, prompts (state w));
  match find_prompt ps (Some promptId) with
  | None => mret tt
  | Some (pi, prompt) =>
      match target with
      | OnQuickCopy => quickCopy prompt
      | OnFavorite =>
          update_prompt pi toggle_isFavorite;;
          o ← read_prompt pi;
          DB.put_prompt o
      | OnTag tag =>
          modify (with_state (λ s,
            set_view
              (if bool_decide (view s = ViewTag tag)
               then ViewFolder ViewAll else ViewTag tag) s));;
          modify (with_state (set_currentPromptId None))
      | OnRow => selectOrOpen pi prompt
      end
  end.

(** [handleDragStart], lines 1480-1500: whether the drag of the row of
    [promptId] starts. *)
Definition handleDragStart (s : State) (promptId : Z) : bool :=
  match find_prompt (prompts s) (Some promptId) with
  | None => false
  | Some (_, prompt) =>
      let folder := find_folder (folders s) (Prompt.folderId prompt) in
      if Prompt.isLocked prompt || folder_isLocked folder then false
      else true
  end.

(** The filter of the "locked" view and of its counter, lines 624-627 and
    816-820; the lock icon of a row, line 862. *)
Definition shown_as_locked (s : State) (p : Prompt.t) : bool :=
  Prompt.isLocked p || folder_isLocked (find_folder (folders s) (Prompt.folderId p)).

Definition lockedPrompts (s : State) : list Prompt.t :=
  List.filter (shown_as_locked s) (prompts s).

Definition lockedPromptsCount (s : State) : nat := length (lockedPrompts s).

Definition lockIcon (s : State) (prompt : Prompt.t) : bool :=
  folder_isLocked (find_folder (folders s) (Prompt.folderId prompt))
  || Prompt.isLocked prompt.

(** [handlePromptLockToggle], lines 2686-2772, for a change of the lock
    switch to [isChecked]. *)
Definition handlePromptLockToggle (isChecked : bool) : M unit :=
  creating ← gets (λ w, isCreatingNew (state w));
  if (creating : bool) then
    (if isChecked then
       password ← ModalService.password "Set a password for this new prompt:";
       if falsy password then
         modify (with_ui (set_promptLockSwitch_checked false))
       else
         modify (with_state (set_newPromptLockInfo password))
     else modify (with_state (set_newPromptLockInfo None)))
  else
    ps ← gets (λ w, prompts (state w));
    current ← gets (λ w, currentPromptId (state w));
    match find_prompt ps current with
    | None => mret tt
    | Some (pi, prompt) =>
        if isChecked then
          (* Locking *)
          password ← ModalService.password "Set a password for this prompt:";
          if falsy password then
            modify (with_ui (set_promptLockSwitch_checked false))
          else
            let password := default EmptyString password in
            update_prompt pi (Prompt.set_isLocked true);;
            shownBody ← gets (λ w, promptBody (ui w));
            b ← encrypt (VStr shownBody) password;
            update_prompt pi (Prompt.set_body b);;
            shownNotes ← gets (λ w, promptNotes (ui w));
            n ← encrypt (VStr shownNotes) password;
            update_prompt pi (Prompt.set_notes n);;
            c ← encrypt (VStr (String_ (Prompt.id prompt))) password;
            update_prompt pi (Prompt.set_passwordCheck c);;
            o ← read_prompt pi;
            DB.put_prompt o
        else
          (* Unlocking *)
          password ← ModalService.password "Enter password to unlock:";
          if falsy password then
            modify (with_ui (set_promptLockSwitch_checked true))
          else
            let password := default EmptyString password in
            check ← decrypt (Prompt.passwordCheck prompt) password;
            if check_fails check (Prompt.id prompt) then
              ModalService.alert "Incorrect password.";;
              modify (with_ui (set_promptLockSwitch_checked true))
            else
              update_prompt pi (Prompt.set_isLocked false);;
              o ← read_prompt pi;
              b ← decrypt (Prompt.body o) password;
              update_prompt pi (Prompt.set_body b);;
              o ← read_prompt pi;
              n ← decrypt (Prompt.notes o) password;
              update_prompt pi (Prompt.set_notes n);;
              update_prompt pi (Prompt.set_passwordCheck VUndefined);;
              o ← read_prompt pi;
              DB.put_prompt o;;
              b ← decrypt (Prompt.body o) password;
              modify (with_ui (set_promptBody (to_input_value b)));;
              n ← decrypt (Prompt.notes o) password;
              modify (with_ui (set_promptNotes (to_input_value n)))
    end.

(** A click on the lock switch: a disabled control fires no [change]
    event; an enabled one flips and calls the listener of line 1237. *)
Definition click_promptLockSwitch : M unit :=
  disabled ← gets (λ w, promptLockSwitch_disabled (ui w));
  if (disabled : bool) then mret tt
  else
    checked ← gets (λ w, promptLockSwitch_checked (ui w));
    modify (with_ui (set_promptLockSwitch_checked (negb checked)));;
    handlePromptLockToggle (negb checked).

End Handlers.

(** ** The rest of the page

    The fields of [state], the controls and the object store that the
    vault operations above do not touch, and the handlers that use them. *)

Record Chrome := mkChrome {
  (** [state.globalTags] *)
  globalTags : list string;
  (** [state.folderToDeleteId] *)
  folderToDeleteId : option Z;
  (** the object store [DB.STORES.TAGS], keyed by the tag *)
  TAGS : gset string;
  (** [UI.search.value], [UI.newFolderName.value],
      [UI.renameFolderInput.value] and [UI.newTagName.value] *)
  search : string;
  newFolderName : string;
  renameFolderInput : string;
  newTagName : string;
  (** the messages of the confirmation dialogs shown so far, latest first *)
  confirmations : list string;
}.

Record Page := mkPage {
  world : World;
  chrome : Chrome;
}.

Definition with_world (f : World → World) (p : Page) : Page :=
  mkPage (f (world p)) (chrome p).
Definition with_chrome (f : Chrome → Chrome) (p : Page) : Page :=
  mkPage (world p) (f (chrome p)).

Definition set_globalTags (x : list string) (c : Chrome) : Chrome :=
  mkChrome x (folderToDeleteId c) (TAGS c) (search c) (newFolderName c)
    (renameFolderInput c) (newTagName c) (confirmations c).
Definition set_folderToDeleteId (x : option Z) (c : Chrome) : Chrome :=
  mkChrome (globalTags c) x (TAGS c) (search c) (newFolderName c)
    (renameFolderInput c) (newTagName c) (confirmations c).
Definition set_TAGS (x : gset string) (c : Chrome) : Chrome :=
  mkChrome (globalTags c) (folderToDeleteId c) x (search c) (newFolderName c)
    (renameFolderInput c) (newTagName c) (confirmations c).
Definition set_search (x : string) (c : Chrome) : Chrome :=
  mkChrome (globalTags c) (folderToDeleteId c) (TAGS c) x (newFolderName c)
    (renameFolderInput c) (newTagName c) (confirmations c).
Definition set_newFolderName (x : string) (c : Chrome) : Chrome :=
  mkChrome (globalTags c) (folderToDeleteId c) (TAGS c) (search c) x
    (renameFolderInput c) (newTagName c) (confirmations c).
Definition set_newTagName (x : string) (c : Chrome) : Chrome :=
  mkChrome (globalTags c) (folderToDeleteId c) (TAGS c) (search c)
    (newFolderName c) (renameFolderInput c) x (confirmations c).
Definition set_confirmations (x : list string) (c : Chrome) : Chrome :=
  mkChrome (globalTags c) (folderToDeleteId c) (TAGS c) (search c)
    (newFolderName c) (renameFolderInput c) (newTagName c) x.

(** Handlers over the whole page. *)
Definition MP (A : Type) : Type := Page → Completion A * Page.

#[global] Instance MP_ret : MRet MP := λ A a p, (Normal a, p).
#[global] Instance MP_bind : MBind MP := λ A B f m p,
  match m p with
  | (Normal a, p') => f a p'
  | (Throw, p') => (Throw, p')
  end.

Definition getsP {A} (f : Page → A) : MP A := λ p, (Normal (f p), p).
Definition modifyP (f : Page → Page) : MP unit := λ p, (Normal tt, f p).

(** A vault operation, run on the page. *)
Definition in_world {A} (m : M A) : MP A := λ p,
  let '(c, w') := m (world p) in (c, mkPage w' (chrome p)).

(** [!!id] for an id that may be [null]. *)
Definition truthy_id (id : option Z) : bool :=
  match id with
  | Some i => negb (bool_decide (i = 0))
  | None => false
  end.

(** [DB.remove] and [DB.bulkRemove] on the stores of prompts and folders. *)
Definition DB_remove_prompt (key : Z) : M unit :=
  modify (with_db (λ d, set_PROMPTS (delete key (PROMPTS d)) d)).

Definition DB_remove_folder (key : Z) : M unit :=
  modify (with_db (λ d, set_FOLDERS (delete key (FOLDERS d)) d)).

Definition DB_bulkRemove_prompts (keys : list Z) : M unit :=
  for_of keys DB_remove_prompt.

(** [ModalService.confirm(message)]: [true] when the user presses the
    confirm button, [false] when the dialog is cancelled. *)
Definition ModalService_confirm (message : string) : MP bool :=
  modifyP (with_chrome (λ c, set_confirmations (message :: confirmations c) c));;
  a ← in_world ModalService.next_answer;
  mret (match a with
        | Some (Submit _ _) => true
        | Some Cancel | None => false
        end).

Section PageHandlers.
Context {P : Platform}.

(** [updateUI], lines 604-619 (desktop layout).  Of the rendering only what
    changes the state is kept: [getFilteredAndSortedPrompts], called by
    [renderPrompts], switches the view to the search results when the
    search box holds a query (lines 771 and 806-809), and
    [renderPromptDetails] is called without being awaited.  The search
    also writes a [matchContext] snippet on the prompts it finds; that
    property is read by [renderPrompts] only and is not a field of
    [Prompt.t]. *)
Definition updateUI : MP unit :=
  detailsVisible ← getsP (λ p,
    isCreatingNew (state (world p))
    || truthy_id (currentPromptId (state (world p))));
  query ← getsP (λ p, trim (search (chrome p)));
  (if truthy_str query
   then in_world (modify (with_state (set_view ViewSearch)))
   else mret tt);;
  in_world (detached (renderPromptDetails detailsVisible None)).

(** [handleDrop], lines 1524-1546: [li] is the row of the sidebar the
    prompt is dropped on, by its [data-id], and [promptId] the number
    carried by the drag. *)
Definition handleDrop (li : option FolderView) (promptId : Z) : MP unit :=
  match li with
  | None => mret tt
  | Some ViewFavorites | Some ViewLocked => mret tt
  | Some targetId =>
      let folderId :=
        match targetId with
        | ViewFolderId id => Some id
        | _ => None
        end in
      ps ← in_world (gets (λ w, prompts (state w)));
      match find_prompt ps (Some promptId) with
      | Some (pi, _) =>
          in_world (update_prompt pi (Prompt.set_folderId folderId));;
          now ← in_world (gets (λ w, now (env w)));
          in_world (update_prompt pi (Prompt.set_dateModified now));;
          o ← in_world (read_prompt pi);
          in_world (DB.put_prompt o);;
          updateUI
      | None => mret tt
      end
  end.

(** Lines 1986-2005 of [handleDeleteFolderAndPrompts] for the folder
    [fid]; the result tells whether [_internalCloseDetailsView] was
    called. *)
Definition deleteFolderAndPrompts (fid : Z) : M bool :=
  ps ← gets (λ w, prompts (state w));
  let promptIdsToDelete :=
    Prompt.id <$> filter (λ p, Prompt.folderId p = Some fid) ps in
  DB_bulkRemove_prompts promptIdsToDelete;;
  DB_remove_folder fid;;
  modify (with_state (λ s,
    set_prompts (filter (λ p, Prompt.folderId p ≠ Some fid) (prompts s)) s));;
  modify (with_state (λ s,
    set_folders (filter (λ f, Folder.id f ≠ fid) (folders s)) s));;
  modify (with_state (λ s,
    if bool_decide (view s = ViewFolder (ViewFolderId fid))
    then set_view (ViewFolder ViewAll) s else s));;
  current ← gets (λ w, currentPromptId (state w));
  ps ← gets (λ w, prompts (state w));
  if truthy_id current && negb (bool_decide (is_Some (find_prompt ps current)))
  then modify (with_state (set_currentPromptId None));; mret true
  else mret false.

(** [handleDeleteFolderAndPrompts], lines 1984-2008; the timer set by
    [_internalCloseDetailsView] fires after the handler is done. *)
Definition handleDeleteFolderAndPrompts : MP unit :=
  toDelete ← getsP (λ p, folderToDeleteId (chrome p));
  match toDelete with
  | None => mret tt
  | Some fid =>
      closing ← in_world (deleteFolderAndPrompts fid);
      modifyP (with_chrome (set_folderToDeleteId None));;
      updateUI;;
      if (closing : bool) then in_world _internalCloseDetailsView else mret tt
  end.

(** Lines 1947-1979 of [handleDeleteFolderMove] for the folder [fid];
    [false] when it returned before the folder was deleted. *)
Definition deleteFolderMove (fid : Z) : M bool :=
  fs ← gets (λ w, folders (state w));
  ps ← gets (λ w, prompts (state w));
  let promptsToUpdate := filter_refs (in_folder fid) ps in
  match find_folder fs (Some fid) with
  | None => throw
  | Some (_, folder) =>
      unlocked ←
        (if Folder.isLocked folder then
           password ← ModalService.password
             ("Enter password for " +:+
              ModalService.quoted (Folder.name folder) +:+
              " to decrypt prompts before moving.");
           if falsy password then mret false
           else
             let password := default EmptyString password in
             check ← decrypt (Folder.passwordCheck folder) password;
             if check_fails check (Folder.id folder) then
               ModalService.alert "Incorrect password.";; mret false
             else
               for_of promptsToUpdate (decrypt_fields password);; mret true
         else mret true);
      if (unlocked : bool) then
        for_of promptsToUpdate
          (λ p, update_prompt p (Prompt.set_folderId None));;
        DB.bulkPut_prompts promptsToUpdate;;
        DB_remove_folder fid;;
        modify (with_state (λ s,
          set_folders (filter (λ f, Folder.id f ≠ fid) (folders s)) s));;
        modify (with_state (λ s,
          if bool_decide (view s = ViewFolder (ViewFolderId fid))
          then set_view (ViewFolder ViewAll) s else s));;
        mret true
      else mret false
  end.

(** [handleDeleteFolderMove], lines 1945-1982. *)
Definition handleDeleteFolderMove : MP unit :=
  toDelete ← getsP (λ p, folderToDeleteId (chrome p));
  match toDelete with
  | None => mret tt
  | Some fid =>
      deleted ← in_world (deleteFolderMove fid);
      if (deleted : bool) then
        modifyP (with_chrome (set_folderToDeleteId None));;
        updateUI
      else mret tt
  end.

End PageHandlers.

(** ** Tags *)

(** [text.replace(/,/g, ...)] with the empty string: every comma is
    removed. *)
Fixpoint remove_commas (s : string) : string :=
  match s with
  | EmptyString => EmptyString
  | String c s' =>
      if Ascii.eqb c ","%char then remove_commas s'
      else String c (remove_commas s')
  end.

(** [addTag], [removeTag] and [loadTags], lines 1125-1139 ([renderTags]
    only renders). *)
Definition addTag (tagText : string) : M unit :=
  let text := remove_commas (trim tagText) in
  tags ← gets (λ w, currentTags (state w));
  if truthy_str text && negb (bool_decide (text ∈ tags))
  then modify (with_state (set_currentTags (tags ++ [text])))
  else mret tt.

Definition removeTag (tagText : string) : M unit :=
  modify (with_state (λ s,
    set_currentTags (filter (λ t, t ≠ tagText) (currentTags s)) s)).

Definition loadTags (tagsArray : list string) : M unit :=
  modify (with_state (set_currentTags tagsArray)).

(** [array.indexOf(old)] followed by [array.splice(index, 1, new)] when the
    index is not -1: the first [old] is replaced. *)
Fixpoint replace_first (old new : string) (l : list string) : list string :=
  match l with
  | [] => []
  | t :: l' =>
      if decide (t = old) then new :: l' else t :: replace_first old new l'
  end.

(** [[...new Set(array)]]: the first occurrence of every element, in
    order. *)
Fixpoint Set_spread (l : list string) : list string :=
  match l with
  | [] => []
  | t :: l' => t :: filter (λ u, u ≠ t) (Set_spread l')
  end.

(** [tags.map((t) => (t === oldName ? newName : t))] *)
Definition rename_tag (oldName newName : string) (tags : list string)
    : list string :=
  (λ t, if decide (t = oldName) then newName else t) <$> tags.

(** [(p.tags && p.tags.includes(tag))] *)
Definition has_tag (tag : string) (p : Prompt.t) : bool :=
  bool_decide (tag ∈ Prompt.tags p).

(** Lines 1673-1698 of [handleDeleteTag].  The objects pushed to
    [promptsToUpdate] by the loop are the prompts that have the tag.
    [setPromptDetailsState] writes the fields of the form back as
    [getPromptDetailsState] read them and loads the tags. *)
Definition deleteTagFromPrompts (tagName : string) : M unit :=
  ps ← gets (λ w, prompts (state w));
  let promptsToUpdate := filter_refs (has_tag tagName) ps in
  for_of promptsToUpdate (λ p,
    o ← read_prompt p;
    update_prompt p
      (Prompt.set_tags (filter (λ t, t ≠ tagName) (Prompt.tags o))));;
  DB.bulkPut_prompts promptsToUpdate;;
  modify (with_state (λ s,
    if bool_decide (view s = ViewTag tagName)
    then set_view (ViewFolder ViewAll) s else s));;
  current ← gets (λ w, currentPromptId (state w));
  creating ← gets (λ w, isCreatingNew (state w));
  if truthy_id current || creating then
    tags ← gets (λ w, currentTags (state w));
    if bool_decide (tagName ∈ tags)
    then loadTags (filter (λ t, t ≠ tagName) tags)
    else mret tt
  else mret tt.

(** Lines 1634-1663 of [handleRenameTag]. *)
Definition renameTagInPrompts (oldName newName : string) : M unit :=
  ps ← gets (λ w, prompts (state w));
  let promptsToUpdate := filter_refs (has_tag oldName) ps in
  for_of promptsToUpdate (λ p,
    o ← read_prompt p;
    update_prompt p
      (Prompt.set_tags (rename_tag oldName newName (Prompt.tags o)));;
    o ← read_prompt p;
    update_prompt p (Prompt.set_tags (Set_spread (Prompt.tags o))));;
  DB.bulkPut_prompts promptsToUpdate;;
  modify (with_state (λ s,
    if bool_decide (view s = ViewTag oldName)
    then set_view (ViewTag newName) s else s));;
  current ← gets (λ w, currentPromptId (state w));
  creating ← gets (λ w, isCreatingNew (state w));
  if truthy_id current || creating then
    tags ← gets (λ w, currentTags (state w));
    if bool_decide (oldName ∈ tags)
    then loadTags (rename_tag oldName newName tags)
    else mret tt
  else mret tt.

Section TagHandlers.
Context {P : Platform}.

(** [handleDeleteTag], lines 1668-1701. *)
Definition handleDeleteTag (tagName : string) : MP unit :=
  modifyP (with_chrome (λ c,
    set_globalTags (filter (λ t, t ≠ tagName) (globalTags c)) c));;
  modifyP (with_chrome (λ c, set_TAGS (TAGS c ∖ {[tagName]}) c));;
  in_world (deleteTagFromPrompts tagName);;
  updateUI.

(** [handleRenameTag], lines 1622-1666. *)
Definition handleRenameTag (oldName newName : string) : MP unit :=
  modifyP (with_chrome (λ c,
    set_globalTags (replace_first oldName newName (globalTags c)) c));;
  modifyP (with_chrome (λ c,
    if bool_decide (newName ∈ globalTags c) then c
    else set_globalTags (globalTags c ++ [newName]) c));;
  modifyP (with_chrome (λ c, set_TAGS (TAGS c ∖ {[oldName]}) c));;
  modifyP (with_chrome (λ c, set_TAGS (TAGS c ∪ {[newName]}) c));;
  in_world (renameTagInPrompts oldName newName);;
  updateUI.

End TagHandlers.

(** ** Deleting prompts and the select mode *)

Section DeleteHandlers.
Context {P : Platform}.

(** [handleBulkDelete], lines 2217-2236; the timer set by
    [_internalCloseDetailsView] fires after the handler is done. *)
Definition handleBulkDelete : MP unit :=
  selected ← getsP (λ p, selectedPromptIds (state (world p)));
  if bool_decide (size selected = 0%nat) then mret tt
  else
    confirmed ← ModalService_confirm
      ("Delete " +:+ pretty (size selected) +:+ " selected prompts?");
    if (confirmed : bool) then
      in_world (DB_bulkRemove_prompts (elements selected));;
      in_world (modify (with_state (λ s,
        set_prompts (filter (λ p, Prompt.id p ∉ selected) (prompts s)) s)));;
      current ← getsP (λ p, currentPromptId (state (world p)));
      let closing :=
        match current with
        | Some c => bool_decide (c ∈ selected)
        | None => false
        end in
      in_world (modify (with_state (set_selectedPromptIds ∅)));;
      in_world (modify (with_state (set_isSelectMode false)));;
      updateUI;;
      if closing then in_world _internalCloseDetailsView else mret tt
    else mret tt.

(** [handleDeletePrompt], lines 2238-2252 (desktop layout).  Two timers
    are set, one by [_internalCloseDetailsView] and one for [updateUI];
    [closeFirst] tells which fires first. *)
Definition handleDeletePrompt (closeFirst : bool) : MP unit :=
  current ← getsP (λ p, currentPromptId (state (world p)));
  if truthy_id current then
    confirmed ← ModalService_confirm
      "Are you sure you want to delete this prompt?";
    if (confirmed : bool) then
      idToDelete ← getsP (λ p, currentPromptId (state (world p)));
      match idToDelete with
      | Some idToDelete =>
          in_world (DB_remove_prompt idToDelete);;
          in_world (modify (with_state (λ s,
            set_prompts
              (filter (λ p, Prompt.id p ≠ idToDelete) (prompts s)) s)));;
          if closeFirst
          then in_world _internalCloseDetailsView;; updateUI
          else updateUI;; in_world _internalCloseDetailsView
      | None => mret tt
      end
    else mret tt
  else mret tt.

(** [toggleSelectMode], lines 1144-1167. *)
Definition toggleSelectMode : M unit :=
  modify (with_state (λ s, set_isSelectMode (negb (isSelectMode s)) s));;
  selecting ← gets (λ w, isSelectMode (state w));
  if (selecting : bool) then
    current ← gets (λ w, currentPromptId (state w));
    if truthy_id current then
      modify (with_state (set_currentPromptId None));;
      detached (renderPromptDetails false None)
    else mret tt
  else modify (with_state (set_selectedPromptIds ∅)).

End DeleteHandlers.

(** ** The sidebar *)

(** A row of the sidebar, by its [data-type] and [data-id]. *)
Inductive NavItem :=
| NavFolder (id : FolderView)
| NavTag (id : string).

Definition nav_view (target : NavItem) : View :=
  match target with
  | NavFolder id => ViewFolder id
  | NavTag id => ViewTag id
  end.

Section Sidebar.
Context {P : Platform}.

(** [handleSidebarNavClick], lines 1914-1943, for a click on a row (not on
    its settings button), desktop layout; the timer set by
    [_internalCloseDetailsView] fires after the handler is done. *)
Definition handleSidebarNavClick (target : NavItem) : MP unit :=
  modifyP (with_chrome (set_search EmptyString));;
  in_world (modify (with_state (λ s,
    set_view
      (if bool_decide (view s = nav_view target) then ViewFolder ViewAll
       else nav_view target) s)));;
  updateUI;;
  in_world _internalCloseDetailsView.

(** [handleAddFolder], lines 2167-2182. *)
Definition handleAddFolder : MP unit :=
  folderName ← getsP (λ p, trim (newFolderName (chrome p)));
  if truthy_str folderName then
    now ← in_world (gets (λ w, now (env w)));
    let newFolder := Folder.mk now folderName false VNull in
    in_world (DB.put_folder newFolder);;
    in_world (modify (with_state (λ s,
      set_folders (folders s ++ [newFolder]) s)));;
    modifyP (with_chrome (set_newFolderName EmptyString))
  else mret tt.

End Sidebar.

(** ** Folder settings and global tags *)

(** [folder.name = newName] *)
Definition Folder_set_name (s : string) (f : Folder.t) : Folder.t :=
  Folder.mk (Folder.id f) s (Folder.isLocked f) (Folder.passwordCheck f).

Section FolderSettings.
Context {P : Platform}.

(** [handleRenameFolder], lines 1870-1880. *)
Definition handleRenameFolder : MP unit :=
  newName ← getsP (λ p, trim (renameFolderInput (chrome p)));
  toEdit ← getsP (λ p, folderToEditId (state (world p)));
  if negb (truthy_str newName) || negb (truthy_id toEdit) then mret tt
  else
    fs ← in_world (gets (λ w, folders (state w)));
    match find_folder fs toEdit with
    | Some (fi, folder) =>
        in_world (update_folder fi (Folder_set_name newName));;
        in_world (DB.put_folder (Folder_set_name newName folder));;
        updateUI
    | None => mret tt
    end.

End FolderSettings.

(** [handleAddGlobalTag], lines 2184-2199. *)
Definition handleAddGlobalTag : MP unit :=
  tagName ← getsP (λ p, trim (newTagName (chrome p)));
  if truthy_str tagName then
    ps ← in_world (gets (λ w, prompts (state w)));
    globals ← getsP (λ p, globalTags (chrome p));
    let allTags := (ps ≫= Prompt.tags) ++ globals in
    (if bool_decide (tagName ∈ allTags) then mret tt
     else
       modifyP (with_chrome (λ c, set_TAGS (TAGS c ∪ {[tagName]}) c));;
       modifyP (with_chrome (λ c,
         set_globalTags (globalTags c ++ [tagName]) c)));;
    modifyP (with_chrome (set_newTagName EmptyString))
  else mret tt.

(** ** A reference platform

    An executable platform on which the handlers can be run: text is
    transcoded byte for byte, a key is the pair of the password and the
    salt, and a sealed message is the message behind a self-delimiting
    copy of the key and the iv, which [open] compares before it releases
    the message. *)

Module Reference.

Definition frame (l : list byte) : list byte :=
  flat_map (λ b, [x01; b]) l ++ [x00].

Definition tag (k : list byte * list byte) (n : list byte) : list byte :=
  frame k.1 ++ frame k.2 ++ frame n.

Fixpoint strip_prefix (t c : list byte) : option (list byte) :=
  match t, c with
  | [], _ => Some c
  | a :: t', b :: c' => if decide (a = b) then strip_prefix t' c' else None
  | _ :: _, [] => None
  end.

Definition seal (k : list byte * list byte) (n m : list byte)
    : option (list byte) :=
  Some (tag k n ++ m).

Definition open (k : list byte * list byte) (n c : list byte)
    : option (list byte) :=
  strip_prefix (tag k n) c.

Definition random (n len : nat) : list byte :=
  replicate len (default x00 (Byte.of_nat (Nat.modulo n 256))).

Definition platform : Platform := {|
  CryptoKey := list byte * list byte;
  utf8_encode := String.list_byte_of_string;
  utf8_decode := String.string_of_list_byte;
  btoa := String.string_of_list_byte;
  atob := λ s, Some (String.list_byte_of_string s);
  getRandomValues := random;
  pbkdf2 := λ p s, (p, s);
  aes_gcm_encrypt := seal;
  aes_gcm_decrypt := open;
|}.

End Reference.

(** The oracle of an owner and the id it must decrypt to. *)
Definition owner_passwordCheck (o : Owner) : Value :=
  match o with
  | OwnerFolder f => Folder.passwordCheck f
  | OwnerPrompt p => Prompt.passwordCheck p
  end.

Definition owner_id (o : Owner) : Z :=
  match o with
  | OwnerFolder f => Folder.id f
  | OwnerPrompt p => Prompt.id p
  end.

(** The text the user types in the next password dialog, [None] when the
    dialog is cancelled. *)
Definition next_reply (l : list Answer) : option string :=
  match l with
  | Submit pwd _ :: _ => Some pwd
  | Cancel :: _ | [] => None
  end.

(** The fields read from the form, lines 1787-1789 and 1800-1804. *)
Definition form_title (w : World) : string := trim (promptTitle (ui w)).
Definition form_body (w : World) : string := promptBody (ui w).
Definition form_notes (w : World) : string := trim (promptNotes (ui w)).
Definition form_folderId (w : World) : option Z :=
  choice_folderId (promptFolder (ui w)).

Definition form_empty (w : World) : bool :=
  negb (truthy_str (form_title w)) && negb (truthy_str (form_body w))
  && negb (truthy_str (form_notes w)).

(** How a field [v] is represented once it went through [encrypt] as
    [v']: Ciphertext-shaped when [v] was truthy, left as it was when [v]
    was falsy (the empty string, [null], [undefined]). *)
Definition locked_repr (v v' : Value) : Prop :=
  if truthy v then is_ciphertext v' = true else v' = v.

(** ** Loops over prompt objects, one object at a time

    An iteration that touches only its own prompt and the rest of the world
    is a step from the prompt and the world to a completion, the prompt
    after it and the world after it; [run_steps] is the whole loop on the
    array itself. *)

Definition Step : Type :=
  Prompt.t → World → Completion unit * Prompt.t * World.

Fixpoint run_steps (pred : Prompt.t → bool) (step : Step)
    (l : list Prompt.t) (w : World)
    : Completion unit * list Prompt.t * World :=
  match l with
  | [] => (Normal tt, [], w)
  | p :: l' =>
      if pred p then
        match step p w with
        | (Normal _, p', w') =>
            let '(c, l'', w'') := run_steps pred step l' w' in
            (c, p' :: l'', w'')
        | (Throw, p', w') => (Throw, p' :: l', w')
        end
      else
        let '(c, l'', w'') := run_steps pred step l' w in
        (c, p :: l'', w'')
  end.

Definition with_prompts (l : list Prompt.t) : World → World :=
  with_state (set_prompts l).

(** An iteration [body] behaves as [step] on the prompt it is given. *)
Definition local_body (body : nat → M unit) (step : Step) : Prop :=
  ∀ i p w, prompts (state w) !! i = Some p →
    body i w =
      let '(c, p', w') := step p w in
      (c, with_prompts (<[i := p']> (prompts (state w))) w').

(** A step neither reads nor writes the array. *)
Definition frame_step (step : Step) : Prop :=
  ∀ p w l,
    step p (with_prompts l w) =
      let '(c, p', w') := step p w in (c, p', with_prompts l w').

Section Steps.
Context {P : Platform}.

(** The iteration of the lock loop, lines 2676-2679. *)
Definition lock_step (password : string) : Step := λ p w,
  let '(b, n1) :=
    CryptoService.encrypt (draws (env w)) (Prompt.body p) password in
  let '(n, n2) := CryptoService.encrypt n1 (Prompt.notes p) password in
  (Normal tt, Prompt.set_notes n (Prompt.set_body b p),
   with_env (set_draws n2) w).

(** The iteration of the unlock loop, lines 2656-2659. *)
Definition unlock_step (password : string) : Step := λ p w,
  match CryptoService.decrypt (Prompt.body p) password with
  | Throw => (Throw, p, w)
  | Normal b =>
      match CryptoService.decrypt (Prompt.notes p) password with
      | Throw => (Throw, Prompt.set_body b p, w)
      | Normal n => (Normal tt, Prompt.set_notes n (Prompt.set_body b p), w)
      end
  end.

(** The iteration of [DB.bulkPut]. *)
Definition put_step : Step := λ p w,
  (Normal tt, p,
   with_db (λ d, set_PROMPTS (<[Prompt.id p := p]> (PROMPTS d)) d) w).

(** What [DB.bulkPut] leaves in the store for the prompts kept by [pred]. *)
Definition bulk_put (pred : Prompt.t → bool) (l : list Prompt.t)
    (m : gmap Z Prompt.t) : gmap Z Prompt.t :=
  foldl (λ m p, if pred p then <[Prompt.id p := p]> m else m) m l.

(** [p'] is [p] with both fields encrypted under [password]: by the
    iteration of the lock loop when [p] is in the folder [fid], unchanged
    otherwise. *)
Definition locked_from (password : string) (fid : Z) (p p' : Prompt.t)
    : Prop :=
  if in_folder fid p then
    ∃ n n',
      p' = Prompt.set_notes
             (CryptoService.encrypt n' (Prompt.notes p) password).1
             (Prompt.set_body
                (CryptoService.encrypt n (Prompt.body p) password).1 p)
  else p' = p.

(** [p'] is [p] with both fields replaced by what [decrypt] returns for
    them under [password] when [p] is in the folder [fid], unchanged
    otherwise. *)
Definition unlocked_from (password : string) (fid : Z) (p p' : Prompt.t)
    : Prop :=
  if in_folder fid p then
    ∃ b n,
      CryptoService.decrypt (Prompt.body p) password = Normal b
      ∧ CryptoService.decrypt (Prompt.notes p) password = Normal n
      ∧ p' = Prompt.set_notes n (Prompt.set_body b p)
  else p' = p.

End Steps.

(** ** Worlds that differ only in the own lock of prompts of locked folders

    [dominated fs p p']: the prompts are equal, or they are equal but for
    their own [isLocked] and [passwordCheck] and their folder is locked.
    [same_up_to_own_locks fs w w']: the folders of both worlds are [fs],
    their prompts are pairwise so related, and the rest is equal but for
    the position of the lock switch of the details view. *)

Definition erase_own (p : Prompt.t) : Prompt.t :=
  Prompt.set_isLocked false (Prompt.set_passwordCheck VNull p).

Definition dominated (fs : list Folder.t) (p p' : Prompt.t) : Prop :=
  p = p'
  ∨ (erase_own p = erase_own p'
     ∧ folder_isLocked (find_folder fs (Prompt.folderId p)) = true).

Definition same_up_to_own_locks (fs : list Folder.t) (w w' : World) : Prop :=
  folders (state w) = fs
  ∧ Forall2 (dominated fs) (prompts (state w)) (prompts (state w'))
  ∧ set_prompts [] (state w) = set_prompts [] (state w')
  ∧ set_promptLockSwitch_checked false (ui w)
    = set_promptLockSwitch_checked false (ui w')
  ∧ db w = db w'
  ∧ env w = env w'.

(** Two computations agree: from worlds so related they complete alike,
    with results related by [R], in worlds so related. *)
Definition agree {A} (fs : list Folder.t) (R : A → A → Prop) (m m' : M A)
    : Prop :=
  ∀ w w', same_up_to_own_locks fs w w' →
    match m w, m' w' with
    | (Normal a, w1), (Normal a', w1') =>
        R a a' ∧ same_up_to_own_locks fs w1 w1'
    | (Throw, w1), (Throw, w1') => same_up_to_own_locks fs w1 w1'
    | _, _ => False
    end.

(** ** Relations between the world before and after a handler *)

(** [m] leaves every world in a world related to it by [R]. *)
Definition preserves {A} (R : World → World → Prop) (m : M A) : Prop :=
  ∀ w, R w (m w).2.

(** The prompts, the folders and the store are the same. *)
Definition same_vault (w w' : World) : Prop :=
  prompts (state w') = prompts (state w)
  ∧ folders (state w') = folders (state w)
  ∧ db w' = db w.

(** Nothing was asked, drawn or copied. *)
Definition same_env (w w' : World) : Prop := env w' = env w.

(** The prompts, the folders, the store, the view and the selection are
    the same. *)
Definition same_listing (w w' : World) : Prop :=
  same_vault w w'
  ∧ view (state w') = view (state w)
  ∧ isSelectMode (state w') = isSelectMode (state w)
  ∧ selectedPromptIds (state w') = selectedPromptIds (state w)
  ∧ folderToEditId (state w') = folderToEditId (state w).

(** ** White space *)

(** A string of white space only. *)
Fixpoint is_blank (s : string) : bool :=
  match s with
  | EmptyString => true
  | String c s' => Ascii.is_space c && is_blank s'
  end.

(** ** What the loops over prompts leave *)

(** What [DB.bulkPut] leaves in the store for the prompts at the
    positions [refs] of the array [l]. *)
Definition put_refs (l : list Prompt.t) (refs : list nat)
    (m : gmap Z Prompt.t) : gmap Z Prompt.t :=
  foldl (λ m i, match l !! i with
                | Some q => <[Prompt.id q := q]> m
                | None => m
                end) m refs.

(** The iteration of the loop of line 1971. *)
Definition unfile_step : Step := λ p w, (Normal tt, Prompt.set_folderId None p, w).

(** The iteration of a loop that rewrites the tags of a prompt. *)
Definition retag_step (f : list string → list string) : Step := λ p w,
  (Normal tt, Prompt.set_tags (f (Prompt.tags p)) p, w).

(** [q'] is the prompt [q] after the folder [fid] was deleted and its
    prompts kept: outside the folder [q] itself; in the folder, [q] with
    no folder and, when the folder was locked, with both fields replaced
    by what [decrypt] returns for them under [pw]. *)
Definition moved_to_root {P : Platform} (locked : bool) (pw : string)
    (fid : Z) (q q' : Prompt.t) : Prop :=
  if in_folder fid q then
    ∃ b n,
      (if locked
       then CryptoService.decrypt (Prompt.body q) pw = Normal b
            ∧ CryptoService.decrypt (Prompt.notes q) pw = Normal n
       else b = Prompt.body q ∧ n = Prompt.notes q)
      ∧ q' = Prompt.set_folderId None
               (Prompt.set_notes n (Prompt.set_body b q))
  else q' = q.

(** ** Concrete worlds *)

Module Scenario.

Definition empty_state : State :=
  mkState [] [] (ViewFolder ViewAll) None false [] false ∅ None ∅ ∅ None.

Definition empty_ui : UI :=
  mkUI EmptyString EmptyString EmptyString ChoiceAll false false None
    EmptyString false.

Definition empty_env : Env := mkEnv [] [] 0%nat 1000 None.

Definition prompt (id : Z) (body notes : Value) (folderId : option Z)
    : Prompt.t :=
  Prompt.mk id "P" body notes folderId [] false false VUndefined 0 0.

(** The scenario of the specification: the unlocked folder [F] of id 1
    holds the prompt of id 2 whose body is "secret". *)
Definition F : Folder.t := Folder.mk 1 "F" false VNull.

Definition P2 : Prompt.t := prompt 2 (VStr "secret") (VStr EmptyString) (Some 1).

(** The folder settings of [F] are open and the user will type "pw1" in
    the next two password dialogs. *)
Definition lock_then_unlock : World :=
  mkWorld
    (set_folderToEditId (Some 1)
       (set_folders [F] (set_prompts [P2] empty_state)))
    empty_ui (mkStore ∅ ∅)
    (set_answers [Submit "pw1" false; Submit "pw1" false] empty_env).

(** [enc n s pw]: [s] encrypted under [pw] on the reference platform, from
    the draw counter [n]. *)
Definition enc (n : nat) (s pw : string) : Value :=
  (CryptoService.encrypt (P := Reference.platform) n (VStr s) pw).1.

(** The folder of id 1 locked with "pw1", and its prompt encrypted under
    that password. *)
Definition F_locked : Folder.t := Folder.mk 1 "F" true (enc 0 "1" "pw1").

Definition P2_locked : Prompt.t :=
  prompt 2 (enc 2 "secret" "pw1") (enc 4 "note" "pw1") (Some 1).

(** An unlocked folder of id 5 and a folder of id 7 locked with "pw7". *)
Definition D : Folder.t := Folder.mk 5 "D" false VNull.
Definition L7 : Folder.t := Folder.mk 7 "L" true (enc 6 "7" "pw7").

(** A prompt outside every folder. *)
Definition P3 : Prompt.t := prompt 3 (VStr "plain") (VStr EmptyString) None.

(** The move dialog is open with the prompt of id 2 selected; [dest] is
    the folder chosen, [typed] the text of the destination password field
    and [replies] what the user will answer to the dialogs. *)
Definition move (dest : option Z) (typed : string) (replies : list Answer)
    : World :=
  mkWorld
    (set_selectedPromptIds {[2]}
       (set_folders [F_locked; D; L7]
          (set_prompts [P2_locked; P3] empty_state)))
    (mkUI EmptyString EmptyString EmptyString ChoiceAll false false dest
       typed false)
    (mkStore ∅ ∅)
    (set_answers replies empty_env).

(** A prompt filed in the locked folder of id 1 whose body was encrypted
    under another password, as [handleSavePrompt] leaves it when an
    individually locked prompt with a remembered password is saved into
    that folder. *)
Definition P4_foreign : Prompt.t :=
  Prompt.mk 4 "P" (enc 8 "mine" "other") (VStr EmptyString) (Some 1) []
    false true (enc 10 "4" "other") 0 0.

(** The settings of the locked folder are open and the user will type its
    password. *)
Definition unlock_foreign : World :=
  mkWorld
    (set_folderToEditId (Some 1)
       (set_folders [F_locked]
          (set_prompts [P4_foreign; P2_locked] empty_state)))
    empty_ui (mkStore ∅ ∅)
    (set_answers [Submit "pw1" false] empty_env).

(** An individually locked prompt of id 5, in no folder, locked with
    "pw5". *)
Definition P5_own : Prompt.t :=
  Prompt.mk 5 "P" (enc 2 "secret" "pw5") (VStr EmptyString) None []
    false true (enc 0 "5" "pw5") 0 0.

(** The list shows that prompt; the user will type "pw5" when asked, and
    tick "remember" or not. *)
Definition own_locked (remember : bool) : World :=
  mkWorld (set_prompts [P5_own] empty_state) empty_ui (mkStore ∅ ∅)
    (set_answers [Submit "pw5" remember] empty_env).

(** The list shows the prompt of the locked folder of id 1, with its own
    lock flag and own [passwordCheck] set as given; the user will type the
    password of the folder. *)
Definition in_locked_folder (own : bool) (check : Value) : World :=
  mkWorld
    (set_folders [F_locked]
       (set_prompts
          [Prompt.set_isLocked own (Prompt.set_passwordCheck check P2_locked)]
          empty_state))
    empty_ui (mkStore ∅ ∅)
    (set_answers [Submit "pw1" true] empty_env).

End Scenario.

(** * Properties *)

(** ** The reference platform obeys the laws *)

Lemma strip_prefix_app (t m : list byte) :
  Reference.strip_prefix t (t ++ m) = Some m.
Proof.
  induction t as [|a t IH]; simpl; [done|].
  destruct (decide (a = a)); [done|congruence].
Qed.

Lemma strip_prefix_Some (t c m : list byte) :
  Reference.strip_prefix t c = Some m → c = t ++ m.
Proof.
  revert c. induction t as [|a t IH]; intros [|b c]; simpl; try congruence.
  destruct (decide (a = b)) as [->|]; [|done].
  intros H. by rewrite (IH _ H).
Qed.

Lemma frame_prefix_free (a b r r' : list byte) :
  Reference.frame a ++ r = Reference.frame b ++ r' → a = b ∧ r = r'.
Proof.
  unfold Reference.frame. revert b.
  induction a as [|x a IH]; intros [|y b]; simpl; intros H.
  - by inversion H.
  - discriminate.
  - discriminate.
  - inversion H as [[Hxy Hrest]]. destruct (IH _ Hrest) as [-> ->]. done.
Qed.

Lemma tag_prefix_free (k k' : list byte * list byte) (n m m' : list byte) :
  Reference.tag k n ++ m = Reference.tag k' n ++ m' → k = k' ∧ m = m'.
Proof.
  unfold Reference.tag. rewrite <- !app_assoc. intros H.
  apply frame_prefix_free in H as [H1 H].
  apply frame_prefix_free in H as [H2 H].
  apply frame_prefix_free in H as [_ H].
  destruct k, k'; simpl in *; by subst.
Qed.

Lemma Reference_laws : PlatformLaws Reference.platform.
Proof.
  split; simpl.
  - apply String.string_of_list_byte_of_string.
  - intros bs. by rewrite String.list_byte_of_string_of_list_byte.
  - intros [|b bs] Hne; [done|]. discriminate.
  - intros k n m c [= <-]. apply strip_prefix_app.
  - intros k n m c [= <-]. unfold Reference.tag, Reference.frame.
    by destruct (flat_map _ k.1).
Qed.

Lemma Reference_ideal : IdealCrypto Reference.platform.
Proof.
  split; simpl.
  - intros k k' n m c [= <-] Hne. unfold Reference.open.
    destruct (Reference.strip_prefix _ _) as [m'|] eqn:E; [|done].
    apply strip_prefix_Some, tag_prefix_free in E as [-> _]. done.
  - by intros p p' s [= ->].
Qed.

(** ** CryptoService *)

Section CryptoFacts.
Context {P : Platform}.

Lemma truthy_str_true (s : string) : truthy_str s = true ↔ s ≠ EmptyString.
Proof.
  unfold truthy_str. rewrite negb_true_iff, bool_decide_eq_false. done.
Qed.

Lemma truthy_str_false (s : string) : truthy_str s = false ↔ s = EmptyString.
Proof.
  unfold truthy_str. rewrite negb_false_iff, bool_decide_eq_true. done.
Qed.

(** The guard of [encrypt]: a falsy text or password returns the text and
    draws nothing. *)
Lemma encrypt_guard (n : nat) (text : Value) (password : string) :
  truthy text = false ∨ truthy_str password = false →
  CryptoService.encrypt n text password = (text, n).
Proof.
  unfold CryptoService.encrypt. by intros [-> | ->]; rewrite ?orb_true_r.
Qed.

(** Past the guard, [encrypt] returns a ciphertext or, when the primitive
    fails, the text. *)
Lemma encrypt_cases (n : nat) (text : Value) (password : string) :
  truthy text = true → truthy_str password = true →
  (∃ c, aes_gcm_encrypt
          (CryptoService._deriveKey password (getRandomValues n 16))
          (getRandomValues (S n) 12) (utf8_encode (toString text)) = Some c
        ∧ CryptoService.encrypt n text password =
            (VObj {| ct := btoa c;
                     iv := btoa (getRandomValues (S n) 12);
                     salt := btoa (getRandomValues n 16) |}, S (S n)))
  ∨ CryptoService.encrypt n text password = (text, S (S n)).
Proof.
  intros Ht Hp. unfold CryptoService.encrypt, CryptoService.encrypt_with.
  rewrite Ht, Hp. simpl.
  destruct (aes_gcm_encrypt _ _ _) as [c|] eqn:E; [left|right]; eauto.
Qed.

(** [decrypt] of a ciphertext under the password that made it. *)
Lemma decrypt_encrypted `{!PlatformLaws P}
    (salt_ iv_ : list byte) (s password : string) (c : list byte) :
  truthy_str password = true →
  aes_gcm_encrypt (CryptoService._deriveKey password salt_) iv_
    (utf8_encode s) = Some c →
  CryptoService.decrypt
    (VObj {| ct := btoa c; iv := btoa iv_; salt := btoa salt_ |}) password
  = Normal (VStr s).
Proof.
  intros Hp E. unfold CryptoService.decrypt; simpl.
  assert (truthy_str (btoa c) = true) as ->.
  { apply truthy_str_true, btoa_nonempty. by eapply aes_gcm_tagged. }
  rewrite Hp. simpl. unfold CryptoService._base64ToArrayBuffer.
  rewrite !base64_roundtrip.
  rewrite (aes_gcm_roundtrip _ _ _ _ E). by rewrite utf8_roundtrip.
Qed.

(** [decrypt] leaves what is not an object as it is. *)
Lemma decrypt_string (s password : string) :
  CryptoService.decrypt (VStr s) password = Normal (VStr s).
Proof. done. Qed.

(** Round trip for any value that is a string. *)
Lemma decrypt_encrypt `{!PlatformLaws P} (n : nat) (s password : string) :
  CryptoService.decrypt (CryptoService.encrypt n (VStr s) password).1 password
  = Normal (VStr s).
Proof.
  destruct (truthy (VStr s)) eqn:Ht; [|by rewrite encrypt_guard by auto].
  destruct (truthy_str password) eqn:Hp; [|by rewrite encrypt_guard by auto].
  destruct (encrypt_cases n (VStr s) password Ht Hp) as [(c & E & ->)| ->];
    simpl; [|done].
  by apply decrypt_encrypted.
Qed.

(** Past the guard [decrypt] of an object never throws: a failure of a
    primitive comes back as [null]. *)
Lemma decrypt_object_normal (c : Ciphertext) (password : string) :
  ∃ v, CryptoService.decrypt (VObj c) password = Normal v.
Proof.
  unfold CryptoService.decrypt.
  repeat (case_match; eauto).
Qed.

End CryptoFacts.

(** [String(id)] is never empty. *)
Lemma pretty_N_go_nonempty (x : N) (s : string) :
  s ≠ EmptyString → pretty_N_go x s ≠ EmptyString.
Proof.
  revert s. induction (N.lt_wf_0 x) as [x _ IH]; intros s Hs.
  destruct (decide (x = 0)%N) as [->|Hx].
  - by rewrite pretty_N_go_0.
  - rewrite pretty_N_go_step by lia. apply IH; [|done].
    apply N.div_lt; lia.
Qed.

Lemma String_nonempty (id : Z) : String_ id ≠ EmptyString.
Proof.
  assert (∀ p : positive, pretty p ≠ EmptyString) as Hpos.
  { intros p. unfold pretty, pretty_positive, pretty, pretty_N.
    case_decide; [done|].
    rewrite pretty_N_go_step by lia. by apply pretty_N_go_nonempty. }
  unfold String_, pretty, pretty_Z. destruct id as [|p|p]; [done|apply Hpos|].
  done.
Qed.

Lemma truthy_String (id : Z) : truthy_str (String_ id) = true.
Proof. apply truthy_str_true, String_nonempty. Qed.



(** A password other than the one that encrypted opens nothing. *)
Lemma decrypt_wrong_password (P : Platform) (L : PlatformLaws P)
    (I : IdealCrypto P) (n : nat) (s p1 p2 : string) :
  is_ciphertext (CryptoService.encrypt n (VStr s) p1).1 = true →
  truthy_str p2 = true →
  p1 ≠ p2 →
  CryptoService.decrypt (CryptoService.encrypt n (VStr s) p1).1 p2
  = Normal VNull.
Proof.
  intros Hc H2 Hne.
  destruct (truthy (VStr s)) eqn:Ht;
    [|by rewrite encrypt_guard in Hc by auto].
  destruct (truthy_str p1) eqn:H1;
    [|by rewrite encrypt_guard in Hc by auto].
  destruct (encrypt_cases n (VStr s) p1 Ht H1) as [(c & E & Henc)|Henc];
    [|by rewrite Henc in Hc].
  rewrite Henc. unfold CryptoService.decrypt; simpl.
  assert (truthy_str (btoa c) = true) as ->.
  { apply truthy_str_true, btoa_nonempty. by eapply aes_gcm_tagged. }
  rewrite H2. simpl. unfold CryptoService._base64ToArrayBuffer.
  rewrite !base64_roundtrip.
  rewrite (aes_gcm_wrong_key _ _ _ _ _ E); [done|].
  unfold CryptoService._deriveKey. intros Hk. apply pbkdf2_inj in Hk.
  apply Hne. rewrite <- (utf8_roundtrip p1), <- (utf8_roundtrip p2).
  by rewrite Hk.
Qed.


(** On a platform where the primitive never fails, [encrypt] of a truthy
    text under a truthy password is a ciphertext. *)
Lemma encrypt_is_ciphertext (P : Platform) (L : PlatformLaws P)
    (T : TotalEncryption P) (n : nat) (text : Value) (password : string) :
  truthy text = true → truthy_str password = true →
  is_ciphertext (CryptoService.encrypt n text password).1 = true.
Proof.
  intros Ht Hp.
  destruct (encrypt_cases n text password Ht Hp) as [(c & E & ->)|Henc].
  - simpl. apply truthy_str_true, btoa_nonempty. by eapply aes_gcm_tagged.
  - rewrite Henc. simpl.
    unfold CryptoService.encrypt, CryptoService.encrypt_with in Henc.
    rewrite Ht, Hp in Henc. simpl in Henc.
    destruct (T (CryptoService._deriveKey password (getRandomValues n 16))
                (getRandomValues (S n) 12) (utf8_encode (toString text)))
      as [c E].
    rewrite E in Henc. inversion Henc as [Htext]. simpl.
    apply truthy_str_true, btoa_nonempty. by eapply aes_gcm_tagged.
Qed.

Lemma Reference_total : TotalEncryption Reference.platform.
Proof. intros k n m. by eexists. Qed.



(** ** Loops *)

Lemma run_steps_frame (pred : Prompt.t → bool) (step : Step) :
  frame_step step →
  ∀ l w x,
    run_steps pred step l (with_prompts x w) =
      let '(c, l', w') := run_steps pred step l w in
      (c, l', with_prompts x w').
Proof.
  intros Hf. induction l as [|p l IH]; intros w x; simpl; [done|].
  destruct (pred p).
  - rewrite Hf. destruct (step p w) as [[[[]|] p'] w']; [|done].
    rewrite IH. by destruct (run_steps pred step l w') as [[c l'] w''].
  - rewrite IH. by destruct (run_steps pred step l w) as [[c l'] w''].
Qed.

Lemma for_of_cons {A} (a : A) (l : list A) (body : A → M unit) (w : World) :
  for_of (a :: l) body w =
    match body a w with
    | (Normal _, w') => for_of l body w'
    | (Throw, w') => (Throw, w')
    end.
Proof. done. Qed.

Lemma for_of_local_from (pred : Prompt.t → bool) (body : nat → M unit)
    (step : Step) :
  local_body body step → frame_step step →
  ∀ l pre w, prompts (state w) = pre ++ l →
    for_of (filter_from pred l (length pre)) body w =
      let '(c, l', w') := run_steps pred step l w in
      (c, with_prompts (pre ++ l') w').
Proof.
  intros Hb Hf. induction l as [|p l IH]; intros pre w Hw; simpl.
  - rewrite app_nil_r in *. rewrite <- Hw. by destruct w as [[] ? ? ?].
  - assert (prompts (state w) !! length pre = Some p) as Hp.
    { rewrite Hw. by rewrite list_lookup_middle. }
    assert (<[length pre := p]> (prompts (state w)) = prompts (state w))
      as Hid by by apply list_insert_id.
    destruct (pred p).
    + rewrite for_of_cons, (Hb _ _ _ Hp).
      destruct (step p w) as [[[[]|] p'] w'] eqn:Es.
      * assert (<[length pre := p']> (prompts (state w)) = (pre ++ [p']) ++ l)
          as Hins.
        { rewrite Hw, insert_app_r_alt, Nat.sub_diag by lia.
          by rewrite <- app_assoc. }
        rewrite Hins.
        specialize (IH (pre ++ [p']) (with_prompts ((pre ++ [p']) ++ l) w')).
        rewrite length_app in IH. simpl in IH.
        rewrite Nat.add_1_r in IH. rewrite IH by done.
        rewrite run_steps_frame by done.
        destruct (run_steps pred step l w') as [[c l'] w''].
        by rewrite <- app_assoc.
      * rewrite Hw, insert_app_r_alt, Nat.sub_diag by lia. done.
    + specialize (IH (pre ++ [p]) w).
      rewrite length_app in IH. simpl in IH.
      rewrite Nat.add_1_r in IH. rewrite IH by (by rewrite <- app_assoc).
      destruct (run_steps pred step l w) as [[c l'] w''].
      by rewrite <- app_assoc.
Qed.

(** A loop over the filtered array is [run_steps] on the array. *)
Lemma for_of_local (pred : Prompt.t → bool) (body : nat → M unit)
    (step : Step) (w : World) :
  local_body body step → frame_step step →
  for_of (filter_refs pred (prompts (state w))) body w =
    let '(c, l', w') := run_steps pred step (prompts (state w)) w in
    (c, with_prompts l' w').
Proof.
  intros Hb Hf. by apply (for_of_local_from pred body step Hb Hf _ []).
Qed.

(** Unfolding of the monad and of the record updates. *)
Ltac run :=
  cbv beta iota zeta delta
    [mbind M_bind mret M_ret gets modify lift throw read_prompt update_prompt
     falsy default from_option Datatypes.id
     update_folder decrypt encrypt with_prompts with_state with_env with_ui
     with_db DB.put_prompt DB.put_folder ModalService.alert ModalService.show
     set_prompts set_folders set_view set_currentPromptId set_isCreatingNew
     set_currentTags set_isSelectMode set_selectedPromptIds
     set_folderToEditId set_sessionPasswords set_decryptedCache
     set_newPromptLockInfo set_promptTitle set_promptBody set_promptNotes
     set_promptFolder set_promptLockSwitch_checked
     set_promptLockSwitch_disabled set_promptDetails_shown set_PROMPTS
     set_FOLDERS set_answers set_dialogs set_draws set_clipboard
     Prompt.set_title Prompt.set_body Prompt.set_notes Prompt.set_folderId
     Prompt.set_tags Prompt.set_isLocked Prompt.set_passwordCheck
     Prompt.set_dateModified Folder.set_isLocked Folder.set_passwordCheck];
  cbn [state ui db env prompts folders view currentPromptId isCreatingNew
       currentTags isSelectMode selectedPromptIds folderToEditId
       sessionPasswords decryptedCache newPromptLockInfo promptTitle
       promptBody promptNotes promptFolder promptLockSwitch_checked
       promptLockSwitch_disabled moveFolderSelect movePasswordInput
       promptDetails_shown PROMPTS FOLDERS answers dialogs draws now
       clipboard fst snd negb andb orb Prompt.id Prompt.title Prompt.body
       Prompt.notes Prompt.folderId Prompt.tags Prompt.isFavorite
       Prompt.isLocked Prompt.passwordCheck Prompt.dateCreated
       Prompt.dateModified Folder.id Folder.name Folder.isLocked
       Folder.passwordCheck].

(** The same for long sequences of updates: the monad is unfolded first,
    the record updates only where a field is read. *)
Ltac run_long :=
  cbv beta iota zeta delta
    [mbind M_bind mret M_ret gets modify lift throw read_prompt update_prompt
     falsy default from_option Datatypes.id update_folder decrypt encrypt
     DB.put_prompt DB.put_folder ModalService.alert ModalService.show];
  cbn [with_prompts with_state with_env with_ui with_db
       set_prompts set_folders set_view set_currentPromptId set_isCreatingNew
       set_currentTags set_isSelectMode set_selectedPromptIds
       set_folderToEditId set_sessionPasswords set_decryptedCache
       set_newPromptLockInfo set_promptTitle set_promptBody set_promptNotes
       set_promptFolder set_promptLockSwitch_checked
       set_promptLockSwitch_disabled set_promptDetails_shown set_PROMPTS
       set_FOLDERS set_answers set_dialogs set_draws set_clipboard
       state ui db env prompts folders view currentPromptId isCreatingNew
       currentTags isSelectMode selectedPromptIds folderToEditId
       sessionPasswords decryptedCache newPromptLockInfo promptTitle
       promptBody promptNotes promptFolder promptLockSwitch_checked
       promptLockSwitch_disabled moveFolderSelect movePasswordInput
       promptDetails_shown PROMPTS FOLDERS answers dialogs draws now
       clipboard fst snd negb andb orb].

Section LoopBodies.
Context {P : Platform}.

Lemma alter_at {A} (f : A → A) (i : nat) (l : list A) (a : A) :
  l !! i = Some a → alter f i l = <[i := f a]> l.
Proof.
  revert i. induction l as [|x l IH]; intros [|i]; simpl; try done.
  - by intros [= ->].
  - intros H. f_equal. by apply IH.
Qed.

Lemma with_prompts_id (w : World) : with_prompts (prompts (state w)) w = w.
Proof. by destruct w as [[] ? ? ?]. Qed.

Lemma with_prompts_insert_id (w : World) (i : nat) (p : Prompt.t) :
  prompts (state w) !! i = Some p →
  with_state (set_prompts (<[i := p]> (prompts (state w)))) w = w.
Proof. intros H. rewrite list_insert_id by done. apply with_prompts_id. Qed.

Lemma decrypt_fields_local (password : string) :
  local_body (decrypt_fields password) (unlock_step password).
Proof.
  intros i p w Hp. unfold decrypt_fields, unlock_step. run. rewrite Hp.
  destruct (CryptoService.decrypt (Prompt.body p) password) as [b|];
    [|by rewrite list_insert_id; [destruct w as [[] ? ? ?]|]].
  run. rewrite (alter_at _ _ _ _ Hp).
  rewrite list_lookup_insert_eq by (by eapply lookup_lt_Some). run.
  destruct (CryptoService.decrypt (Prompt.notes p) password) as [n|]; [|done].
  run. rewrite (alter_at _ i _ (Prompt.set_body b p))
    by (apply list_lookup_insert_eq; by eapply lookup_lt_Some).
  by rewrite list_insert_insert_eq.
Qed.

Lemma unlock_step_frame (password : string) :
  frame_step (unlock_step password).
Proof.
  intros p w l. unfold unlock_step.
  by repeat case_match.
Qed.

Lemma encrypt_fields_local (password : string) :
  local_body (encrypt_fields password) (lock_step password).
Proof.
  intros i p w Hp. unfold encrypt_fields, lock_step. run. rewrite Hp.
  destruct (CryptoService.encrypt _ (Prompt.body p) password) as [b n1].
  run. rewrite (alter_at _ _ _ _ Hp).
  rewrite list_lookup_insert_eq by (by eapply lookup_lt_Some). run.
  destruct (CryptoService.encrypt n1 (Prompt.notes p) password) as [n n2].
  run. rewrite (alter_at _ i _ (Prompt.set_body b p))
    by (apply list_lookup_insert_eq; by eapply lookup_lt_Some).
  by rewrite list_insert_insert_eq.
Qed.

Lemma lock_step_frame (password : string) : frame_step (lock_step password).
Proof.
  intros p w l. unfold lock_step. simpl.
  by repeat case_match.
Qed.

Lemma put_local :
  local_body (λ i, read_prompt i ≫= DB.put_prompt) put_step.
Proof.
  intros i p w Hp. unfold put_step. run. rewrite Hp.
  rewrite list_insert_id by done. by destruct w as [[] ? ? ?].
Qed.

Lemma put_step_frame : frame_step put_step.
Proof. done. Qed.

End LoopBodies.

Section LoopResults.
Context {P : Platform}.

Lemma filter_from_ext {A} (pred : A → bool) (l l' : list A) (k : nat) :
  Forall2 (λ a a', pred a = pred a') l l' →
  filter_from pred l k = filter_from pred l' k.
Proof.
  intros H. revert k. induction H as [|a a' l l' Ha _ IH]; intros k; simpl.
  - done.
  - rewrite Ha, (IH (S k)). done.
Qed.

Lemma run_put (pred : Prompt.t → bool) (l : list Prompt.t) (w : World) :
  run_steps pred put_step l w =
    (Normal tt, l,
     with_db (λ d, set_PROMPTS (bulk_put pred l (PROMPTS d)) d) w).
Proof.
  revert w. induction l as [|p l IH]; intros w; simpl.
  - by destruct w as [? ? [] ?].
  - destruct (pred p); simpl; rewrite IH; done.
Qed.

(** [DB.bulkPut] of the filtered prompts returns and only writes the
    store. *)
Lemma bulkPut_filter (pred : Prompt.t → bool) (l : list Prompt.t)
    (w : World) :
  prompts (state w) = l →
  DB.bulkPut_prompts (filter_refs pred l) w =
    (Normal tt,
     with_db (λ d, set_PROMPTS (bulk_put pred l (PROMPTS d)) d) w).
Proof.
  intros <-. unfold DB.bulkPut_prompts.
  rewrite (for_of_local pred _ put_step w put_local put_step_frame).
  rewrite run_put. by destruct w as [[] ? ? ?].
Qed.

(** The lock loop returns, having encrypted the fields of the prompts of
    the folder and advanced the draw counter. *)
Lemma run_lock (password : string) (fid : Z) (l : list Prompt.t) (w : World) :
  ∃ l' k,
    run_steps (in_folder fid) (lock_step password) l w
    = (Normal tt, l', with_env (set_draws k) w)
    ∧ Forall2 (locked_from password fid) l l'.
Proof.
  revert w. induction l as [|p l IH]; intros w; simpl.
  - exists [], (draws (env w)). split; [|done].
    by destruct w as [? ? ? []].
  - destruct (in_folder fid p) eqn:Ep.
    + unfold lock_step at 1.
      destruct (CryptoService.encrypt _ (Prompt.body p) password)
        as [b n1] eqn:Eb.
      destruct (CryptoService.encrypt n1 (Prompt.notes p) password)
        as [n n2] eqn:En.
      destruct (IH (with_env (set_draws n2) w)) as (l' & k & -> & Hl).
      exists (Prompt.set_notes n (Prompt.set_body b p) :: l'), k.
      split; [done|]. constructor; [|done].
      unfold locked_from. rewrite Ep. exists (draws (env w)), n1.
      by rewrite Eb, En.
    + destruct (IH w) as (l' & k & -> & Hl).
      exists (p :: l'), k. split; [done|]. constructor; [|done].
      unfold locked_from. by rewrite Ep.
Qed.

(** The unlock loop returns when no field of a prompt of the folder is
    [null], having replaced each field by what [decrypt] returns. *)
Lemma run_unlock (password : string) (fid : Z) (l : list Prompt.t)
    (w : World) :
  Forall (λ p, in_folder fid p = true →
               Prompt.body p ≠ VNull ∧ Prompt.notes p ≠ VNull) l →
  ∃ l',
    run_steps (in_folder fid) (unlock_step password) l w = (Normal tt, l', w)
    ∧ Forall2 (unlocked_from password fid) l l'.
Proof.
  induction 1 as [|p l Hp _ (l' & IH & Hl)]; simpl.
  - by exists [].
  - destruct (in_folder fid p) eqn:Ep.
    + destruct (Hp eq_refl) as [Hb Hn]. unfold unlock_step at 1.
      destruct (CryptoService.decrypt (Prompt.body p) password)
        as [b|] eqn:Eb.
      2:{ destruct (Prompt.body p) as [| | |c]; try done.
          destruct (decrypt_object_normal c password) as [v Hv]. congruence. }
      destruct (CryptoService.decrypt (Prompt.notes p) password)
        as [n|] eqn:En.
      2:{ destruct (Prompt.notes p) as [| | |c]; try done.
          destruct (decrypt_object_normal c password) as [v Hv]. congruence. }
      rewrite IH. eexists. split; [done|]. constructor; [|done].
      unfold unlocked_from. rewrite Ep. by exists b, n.
    + rewrite IH. eexists. split; [done|]. constructor; [|done].
      unfold unlocked_from. by rewrite Ep.
Qed.

Lemma locked_from_in_folder (password : string) (fid fid' : Z)
    (p p' : Prompt.t) :
  locked_from password fid p p' → in_folder fid' p = in_folder fid' p'.
Proof.
  unfold locked_from. destruct (in_folder fid p).
  - by intros (n & n' & ->).
  - by intros ->.
Qed.

Lemma unlocked_from_in_folder (password : string) (fid fid' : Z)
    (p p' : Prompt.t) :
  unlocked_from password fid p p' → in_folder fid' p = in_folder fid' p'.
Proof.
  unfold unlocked_from. destruct (in_folder fid p).
  - by intros (b & n & _ & _ & ->).
  - by intros ->.
Qed.

End LoopResults.

(** ** Locking and unlocking a folder *)

Section FolderLock.
Context {P : Platform}.

Lemma find_folder_lookup (fs : list Folder.t) (o : option Z) (i : nat)
    (f : Folder.t) :
  find_folder fs o = Some (i, f) → fs !! i = Some f ∧ o = Some (Folder.id f).
Proof.
  destruct o as [fid|]; simpl; [|done].
  intros H. apply list_find_Some in H as (H1 & H2 & _). by subst.
Qed.

(** Locking: the world after [handleToggleFolderLock] on an unlocked
    folder, when the user types the non-empty password [pw]. *)
Lemma lock_folder_run (w : World) (fi : nat) (f : Folder.t) (pw : string)
    (r : bool) (rest : list Answer) :
  find_folder (folders (state w)) (folderToEditId (state w)) = Some (fi, f) →
  Folder.isLocked f = false →
  answers (env w) = Submit pw r :: rest →
  truthy_str pw = true →
  ∃ l' k,
    Forall2 (locked_from pw (Folder.id f)) (prompts (state w)) l'
    ∧ handleToggleFolderLock w =
      let check :=
        (CryptoService.encrypt (draws (env w))
           (VStr (String_ (Folder.id f))) pw).1 in
      let f' := Folder.set_passwordCheck check (Folder.set_isLocked true f) in
      (Normal tt,
       mkWorld
         (set_prompts l' (set_folders (<[fi := f']> (folders (state w)))
            (state w)))
         (ui w)
         (mkStore
            (bulk_put (in_folder (Folder.id f)) l' (PROMPTS (db w)))
            (<[Folder.id f := f']> (FOLDERS (db w))))
         (mkEnv rest
            (PasswordPrompt
               ("Set a password for " +:+
                ModalService.quoted (Folder.name f)) :: dialogs (env w))
            k (now (env w)) (clipboard (env w)))).
Proof.
  intros Hfind Hunlocked Hans Hpw.
  destruct (find_folder_lookup _ _ _ _ Hfind) as [Hfi _].
  unfold handleToggleFolderLock. run. rewrite Hfind, Hunlocked.
  unfold ModalService.password, ModalService.next_answer. run.
  rewrite Hans. run. rewrite Hpw. run.
  destruct (CryptoService.encrypt (draws (env w))
              (VStr (String_ (Folder.id f))) pw) as [check n0] eqn:Echeck.
  run.
  set (w1 := mkWorld _ _ _ _).
  rewrite (for_of_local (in_folder (Folder.id f)) (encrypt_fields pw)
             (lock_step pw) w1 (encrypt_fields_local pw) (lock_step_frame pw)).
  destruct (run_lock pw (Folder.id f) (prompts (state w)) w1)
    as (l' & k & Hrun & Hl).
  change (prompts (state w1)) with (prompts (state w)). rewrite Hrun.
  exists l', k. split; [done|].
  rewrite (filter_from_ext _ _ l' 0
             (Forall2_impl _ _ _ _ Hl
                (locked_from_in_folder pw (Folder.id f) (Folder.id f)))
           : filter_refs _ (prompts (state w)) = filter_refs _ l').
  rewrite (bulkPut_filter (in_folder (Folder.id f)) l') by done.
  subst w1. run.
  rewrite (alter_at _ _ _ _ Hfi).
  rewrite (alter_at _ fi _ (Folder.set_isLocked true f))
    by (apply list_lookup_insert_eq; by eapply lookup_lt_Some).
  by rewrite list_insert_insert_eq.
Qed.

(** Unlocking: the world after [handleToggleFolderLock] on a locked folder
    when the password [pw] typed passes the oracle and no field of a prompt
    of the folder is [null]. *)
Lemma unlock_folder_run (w : World) (fi : nat) (f : Folder.t) (pw : string)
    (r : bool) (rest : list Answer) :
  find_folder (folders (state w)) (folderToEditId (state w)) = Some (fi, f) →
  Folder.isLocked f = true →
  answers (env w) = Submit pw r :: rest →
  truthy_str pw = true →
  CryptoService.decrypt (Folder.passwordCheck f) pw
  = Normal (VStr (String_ (Folder.id f))) →
  Forall (λ p, in_folder (Folder.id f) p = true →
               Prompt.body p ≠ VNull ∧ Prompt.notes p ≠ VNull)
    (prompts (state w)) →
  ∃ l',
    Forall2 (unlocked_from pw (Folder.id f)) (prompts (state w)) l'
    ∧ handleToggleFolderLock w =
      let f' := Folder.set_passwordCheck VNull (Folder.set_isLocked false f) in
      (Normal tt,
       mkWorld
         (set_prompts l' (set_folders (<[fi := f']> (folders (state w)))
            (state w)))
         (ui w)
         (mkStore
            (bulk_put (in_folder (Folder.id f)) l' (PROMPTS (db w)))
            (<[Folder.id f := f']> (FOLDERS (db w))))
         (mkEnv rest
            (PasswordPrompt
               ("Enter password to unlock " +:+
                ModalService.quoted (Folder.name f)) :: dialogs (env w))
            (draws (env w)) (now (env w)) (clipboard (env w)))).
Proof.
  intros Hfind Hlocked Hans Hpw Hcheck Hnull.
  destruct (find_folder_lookup _ _ _ _ Hfind) as [Hfi _].
  unfold handleToggleFolderLock. run. rewrite Hfind, Hlocked.
  unfold ModalService.password, ModalService.next_answer. run.
  rewrite Hans. run. rewrite Hpw. run. rewrite Hcheck. run.
  unfold check_fails. rewrite bool_decide_eq_true_2 by done. run.
  set (w1 := mkWorld _ _ _ _).
  rewrite (for_of_local (in_folder (Folder.id f)) (decrypt_fields pw)
             (unlock_step pw) w1 (decrypt_fields_local pw)
             (unlock_step_frame pw)).
  destruct (run_unlock pw (Folder.id f) (prompts (state w)) w1 Hnull)
    as (l' & Hrun & Hl).
  change (prompts (state w1)) with (prompts (state w)). rewrite Hrun.
  exists l'. split; [done|].
  rewrite (filter_from_ext _ _ l' 0
             (Forall2_impl _ _ _ _ Hl
                (unlocked_from_in_folder pw (Folder.id f) (Folder.id f)))
           : filter_refs _ (prompts (state w)) = filter_refs _ l').
  rewrite (bulkPut_filter (in_folder (Folder.id f)) l') by done.
  subst w1. run.
  rewrite (alter_at _ _ _ _ Hfi).
  rewrite (alter_at _ fi _ (Folder.set_isLocked false f))
    by (apply list_lookup_insert_eq; by eapply lookup_lt_Some).
  by rewrite list_insert_insert_eq.
Qed.

(** Unlocking with a password that fails the oracle: an alert, and nothing
    but the dialogs changes. *)
Lemma unlock_folder_wrong (w : World) (fi : nat) (f : Folder.t) (pw : string)
    (r : bool) (rest : list Answer) (check : Value) :
  find_folder (folders (state w)) (folderToEditId (state w)) = Some (fi, f) →
  Folder.isLocked f = true →
  answers (env w) = Submit pw r :: rest →
  truthy_str pw = true →
  CryptoService.decrypt (Folder.passwordCheck f) pw = Normal check →
  check ≠ VStr (String_ (Folder.id f)) →
  handleToggleFolderLock w =
    (Normal tt,
     mkWorld (state w) (ui w) (db w)
       (mkEnv rest
          (Alert "Incorrect password."
           :: PasswordPrompt
                ("Enter password to unlock " +:+
                 ModalService.quoted (Folder.name f)) :: dialogs (env w))
          (draws (env w)) (now (env w)) (clipboard (env w)))).
Proof.
  intros Hfind Hlocked Hans Hpw Hcheck Hne.
  unfold handleToggleFolderLock. run. rewrite Hfind, Hlocked.
  unfold ModalService.password, ModalService.next_answer. run.
  rewrite Hans. run. rewrite Hpw. run.
  rewrite Hcheck. run. unfold check_fails.
  rewrite bool_decide_eq_false_2 by done. by run.
Qed.

End FolderLock.

Section FolderLockClaim.
Context {P : Platform} `{!PlatformLaws P}.

Lemma encrypt_string_not_null (n : nat) (s pw : string) :
  (CryptoService.encrypt n (VStr s) pw).1 ≠ VNull.
Proof.
  destruct (truthy (VStr s)) eqn:Ht; [|by rewrite encrypt_guard by auto].
  destruct (truthy_str pw) eqn:Hp; [|by rewrite encrypt_guard by auto].
  by destruct (encrypt_cases n (VStr s) pw Ht Hp) as [(c & E & ->)| ->].
Qed.

(** What the unlock loop makes of a prompt the lock loop encrypted is the
    prompt before it was locked, when its fields were strings. *)
Lemma unlocked_locked (pw : string) (fid : Z) (p0 p p' : Prompt.t) :
  (in_folder fid p0 = true →
   is_plain_string (Prompt.body p0) = true
   ∧ is_plain_string (Prompt.notes p0) = true) →
  locked_from pw fid p0 p → unlocked_from pw fid p p' → p' = p0.
Proof.
  intros Hplain Hl Hu.
  unfold unlocked_from in Hu.
  rewrite <- (locked_from_in_folder _ _ fid _ _ Hl) in Hu.
  unfold locked_from in Hl. destruct (in_folder fid p0); [|by subst].
  destruct (Hplain eq_refl) as [Hb Hn].
  destruct Hl as (n & n' & ->). destruct Hu as (b & nn & Eb & En & ->).
  destruct p0 as [? ? body0 notes0 ? ? ? ? ? ? ?]. simpl in *.
  destruct body0 as [| |sb|]; try done. destruct notes0 as [| |sn|]; try done.
  rewrite decrypt_encrypt in Eb. rewrite decrypt_encrypt in En.
  by simplify_eq.
Qed.

End FolderLockClaim.



(** ** Moving prompts *)

(** C10. In a move to a locked destination folder the destination password
    is checked against the [passwordCheck] of that folder before the loop
    over the prompts starts; when the check fails the handler shows an
    alert and returns: no prompt, no folder and nothing in the store has
    changed, and no password dialog was shown. *)
Theorem C10_destination_check_first (P : Platform) (w : World) (fi : nat)
    (destFolder : Folder.t) (check : Value) :
  find_folder (folders (state w)) (moveFolderSelect (ui w))
  = Some (fi, destFolder) →
  Folder.isLocked destFolder = true →
  CryptoService.decrypt (Folder.passwordCheck destFolder)
    (movePasswordInput (ui w)) = Normal check →
  check ≠ VStr (String_ (Folder.id destFolder)) →
  handleConfirmMove w =
    (Normal tt,
     mkWorld (state w) (ui w) (db w)
       (mkEnv (answers (env w))
          (Alert "Incorrect password for the destination folder."
           :: dialogs (env w))
          (draws (env w)) (now (env w)) (clipboard (env w)))).
Proof.
  intros Hfind Hlocked Hcheck Hne.
  unfold handleConfirmMove. run. rewrite Hfind, Hlocked. run.
  rewrite Hcheck. run. unfold check_fails.
  rewrite bool_decide_eq_false_2 by done. by run.
Qed.

Section Move.
Context {P : Platform}.

Lemma decrypt_not_null (v : Value) (pw : string) :
  v ≠ VNull → ∃ r, CryptoService.decrypt v pw = Normal r.
Proof.
  destruct v as [| | |c]; intros H; try done; try by eexists.
  apply decrypt_object_normal.
Qed.

(** The dialog of a locked source ends in a skip when the password is
    withheld or fails the oracle: an alert, and the answer consumed. *)
Lemma unlock_for_move_skip (message : string) (passwordCheck : Value)
    (id : Z) (wrong : string) (i : nat) (w : World) :
  passwordCheck ≠ VNull →
  (falsy (next_reply (answers (env w))) = true
   ∨ ∃ pw, next_reply (answers (env w)) = Some pw
           ∧ CryptoService.decrypt passwordCheck pw
             ≠ Normal (VStr (String_ id))) →
  ∃ alert,
    unlock_for_move message passwordCheck id wrong i w =
      (Normal None,
       mkWorld (state w) (ui w) (db w)
         (mkEnv (tail (answers (env w)))
            (Alert alert :: PasswordPrompt message :: dialogs (env w))
            (draws (env w)) (now (env w)) (clipboard (env w)))).
Proof.
  intros Hpc Hreply. unfold unlock_for_move.
  unfold ModalService.password, ModalService.next_answer. run.
  destruct (answers (env w)) as [|[|pw r] rest] eqn:Hans; run;
    try by eexists.
  destruct (truthy_str pw) eqn:Hpw; run; [|by eexists].
  destruct Hreply as [Hf|(pw' & [= <-] & Hdec)].
  { simpl in Hf. by rewrite Hpw in Hf. }
  destruct (decrypt_not_null passwordCheck pw Hpc) as [c Hc].
  rewrite Hc. run. unfold check_fails.
  rewrite bool_decide_eq_false_2 by congruence. run. by eexists.
Qed.

(** An iteration of the move loop on a prompt whose owner is locked, when
    the password of the owner is withheld or fails the oracle: a skip. *)
Lemma move_one_skip (newFolderId : option Z) (destPassword : option string)
    (i : nat) (o : Prompt.t) (w : World) :
  prompts (state w) !! i = Some o →
  let folder := find_folder (folders (state w)) (Prompt.folderId o) in
  let owner := owner_of folder o in
  folder_isLocked folder || Prompt.isLocked o = true →
  owner_passwordCheck owner ≠ VNull →
  (falsy (next_reply (answers (env w))) = true
   ∨ ∃ pw, next_reply (answers (env w)) = Some pw
           ∧ CryptoService.decrypt (owner_passwordCheck owner) pw
             ≠ Normal (VStr (String_ (owner_id owner)))) →
  ∃ message alert,
    move_one newFolderId destPassword i w =
      (Normal tt,
       mkWorld (state w) (ui w) (db w)
         (mkEnv (tail (answers (env w)))
            (Alert alert :: PasswordPrompt message :: dialogs (env w))
            (draws (env w)) (now (env w)) (clipboard (env w)))).
Proof.
  intros Hp folder owner Hlocked Hpc Hreply.
  unfold move_one. run. rewrite Hp. run. fold folder.
  subst owner. unfold owner_of, folder_isLocked in *.
  destruct folder as [[fi f]|].
  - destruct (Folder.isLocked f) eqn:Hf; simpl in *.
    + edestruct unlock_for_move_skip as [alert ->]; [done..|].
      run. by do 2 eexists.
    + rewrite Hlocked.
      edestruct unlock_for_move_skip as [alert ->]; [done..|].
      run. by do 2 eexists.
  - simpl in Hlocked. rewrite Hlocked.
    edestruct unlock_for_move_skip as [alert ->]; [done..|].
    run. by do 2 eexists.
Qed.

End Move.


Section MoveOut.
Context {P : Platform}.

(** The prompt a move leaves behind, lines 2354-2364 with no destination
    password. *)
Lemma move_one_out_of_locked_folder (newFolderId : option Z) (i : nat)
    (o : Prompt.t) (fi : nat) (f : Folder.t) (pw : string) (r : bool)
    (rest : list Answer) (b n : Value) (w : World) :
  prompts (state w) !! i = Some o →
  find_folder (folders (state w)) (Prompt.folderId o) = Some (fi, f) →
  Folder.isLocked f = true →
  answers (env w) = Submit pw r :: rest →
  truthy_str pw = true →
  CryptoService.decrypt (Folder.passwordCheck f) pw
  = Normal (VStr (String_ (Folder.id f))) →
  CryptoService.decrypt (Prompt.body o) pw = Normal b →
  CryptoService.decrypt (Prompt.notes o) pw = Normal n →
  ∃ message,
    move_one newFolderId None i w =
      (Normal tt,
       mkWorld
         (set_prompts
            (<[i := Prompt.mk (Prompt.id o) (Prompt.title o) b n newFolderId
                      (Prompt.tags o) (Prompt.isFavorite o) false VNull
                      (Prompt.dateCreated o) (Prompt.dateModified o)]>
               (prompts (state w)))
            (state w))
         (ui w) (db w)
         (mkEnv rest (PasswordPrompt message :: dialogs (env w))
            (draws (env w)) (now (env w)) (clipboard (env w)))).
Proof.
  intros Hp Hfind Hlocked Hans Hpw Hcheck Hb Hn.
  unfold move_one. run. rewrite Hp. run. rewrite Hfind, Hlocked.
  unfold unlock_for_move, ModalService.password, ModalService.next_answer.
  run. rewrite Hans. run. rewrite Hpw. run. rewrite Hcheck. run.
  unfold check_fails. rewrite bool_decide_eq_true_2 by done. run.
  rewrite Hp. run. rewrite Hb. run. rewrite Hp. run. rewrite Hn. run.
  eexists. do 3 f_equal.
  rewrite !list_alter_alter_eq. by rewrite (alter_at _ _ _ _ Hp).
Qed.

End MoveOut.




Lemma C10_destination_check_first_witness :
  handleConfirmMove (P := Reference.platform)
    (Scenario.move (Some 7) "bad" [Submit "pw1" false])
  = (Normal tt,
     with_env
       (set_dialogs [Alert "Incorrect password for the destination folder."])
       (Scenario.move (Some 7) "bad" [Submit "pw1" false])).
Proof.
  apply (C10_destination_check_first Reference.platform
           (Scenario.move (Some 7) "bad" [Submit "pw1" false])
           2%nat Scenario.L7 VNull);
    [reflexivity|reflexivity|reflexivity|done].
Defined.

(** ** Failures of decryption in the bulk loops *)




(** ** Saving *)

Section Save.
Context {P : Platform}.

(** Saving a new prompt for which a lock was requested. *)
Lemma save_new_locked (w : World) (pw : string) :
  form_empty w = false →
  isCreatingNew (state w) = true →
  newPromptLockInfo (state w) = Some pw →
  ∃ w' d1 d2,
    let q :=
      Prompt.mk (now (env w)) (form_title w)
        (CryptoService.encrypt (draws (env w)) (VStr (form_body w)) pw).1
        (CryptoService.encrypt d1 (VStr (form_notes w)) pw).1
        (form_folderId w) (currentTags (state w)) false true
        (CryptoService.encrypt d2 (VStr (String_ (now (env w)))) pw).1
        (now (env w)) (now (env w)) in
    handleSavePrompt w = (Normal tt, w')
    ∧ prompts (state w') = prompts (state w) ++ [q]
    ∧ PROMPTS (db w') = <[now (env w) := q]> (PROMPTS (db w))
    ∧ folders (state w') = folders (state w).
Proof.
  intros Hform Hnew Hlock. unfold handleSavePrompt. run.
  fold (form_title w) (form_body w) (form_notes w).
  unfold form_empty in Hform. rewrite Hform. run. rewrite Hnew, Hlock. run.
  destruct (CryptoService.encrypt (draws (env w)) _ pw) as [b d1] eqn:Eb.
  run.
  destruct (CryptoService.encrypt d1 _ pw) as [n d2] eqn:En. run.
  destruct (CryptoService.encrypt d2 _ pw) as [c d3] eqn:Ec. run.
  rewrite !list_alter_alter_eq.
  rewrite alter_app_r_alt, Nat.sub_diag by done. simpl.
  rewrite list_lookup_middle by done. run.
  eexists _, d1, d2. rewrite En, Ec. simpl. done.
Qed.

(** Saving a new prompt for which no lock was requested. *)
Lemma save_new_plain (w : World) :
  form_empty w = false →
  isCreatingNew (state w) = true →
  newPromptLockInfo (state w) = None →
  ∃ w',
    let q :=
      Prompt.mk (now (env w)) (form_title w) (VStr (form_body w))
        (VStr (form_notes w)) (form_folderId w) (currentTags (state w)) false
        false VUndefined (now (env w)) (now (env w)) in
    handleSavePrompt w = (Normal tt, w')
    ∧ prompts (state w') = prompts (state w) ++ [q]
    ∧ PROMPTS (db w') = <[now (env w) := q]> (PROMPTS (db w))
    ∧ folders (state w') = folders (state w).
Proof.
  intros Hform Hnew Hlock. unfold handleSavePrompt. run.
  fold (form_title w) (form_body w) (form_notes w).
  unfold form_empty in Hform. rewrite Hform. run. rewrite Hnew, Hlock. run.
  rewrite !list_alter_alter_eq.
  rewrite alter_app_r_alt, Nat.sub_diag by done. simpl.
  rewrite list_lookup_middle by done. run.
  by eexists.
Qed.

End Save.

(** ** The representation of locked content *)


Lemma encrypt_locked_repr (P : Platform) (L : PlatformLaws P)
    (T : TotalEncryption P) (n : nat) (text : Value) (pw : string) :
  truthy_str pw = true →
  locked_repr text (CryptoService.encrypt n text pw).1.
Proof.
  intros Hpw. unfold locked_repr. destruct (truthy text) eqn:Ht.
  - by apply encrypt_is_ciphertext.
  - by rewrite encrypt_guard by auto.
Qed.



(** C9: what the code does at the failing input.  The individually locked
    prompt of id 5 is opened from the list with its password typed and
    "remember" not ticked; the details show the decrypted body.  Saving
    then stores the body as a plain string, in memory and in the store,
    while the prompt stays marked locked.  With "remember" ticked the same
    steps store a Ciphertext-shaped body. *)
Theorem C9_save_forgets_entered_password :
  let run (remember : bool) :=
    let w1 :=
      (handlePromptListClick (P := Reference.platform) OnRow 5
         (Scenario.own_locked remember)).2 in
    (w1, handleSavePrompt (P := Reference.platform) w1) in
  promptBody (ui (run false).1) = "secret"
  ∧ sessionPasswords (state (run false).1) = ∅
  ∧ (run false).2.1 = Normal tt
  ∧ (Prompt.isLocked <$> prompts (state (run false).2.2) !! 0%nat) = Some true
  ∧ (Prompt.body <$> prompts (state (run false).2.2) !! 0%nat)
    = Some (VStr "secret")
  ∧ (Prompt.body <$> PROMPTS (db (run false).2.2) !! 5) = Some (VStr "secret")
  ∧ (Prompt.isLocked <$> PROMPTS (db (run false).2.2) !! 5) = Some true
  ∧ (is_ciphertext ∘ Prompt.body <$> prompts (state (run true).2.2) !! 0%nat)
    = Some true.
Proof. vm_compute. repeat split; reflexivity. Qed.

Section SaveExisting.
Context {P : Platform}.

Lemma find_prompt_lookup (ps : list Prompt.t) (o : option Z) (i : nat)
    (p : Prompt.t) :
  find_prompt ps o = Some (i, p) → ps !! i = Some p ∧ o = Some (Prompt.id p).
Proof.
  destruct o as [pid|]; simpl; [|done].
  intros H. apply list_find_Some in H as (H1 & H2 & _). by subst.
Qed.

(** Saving an existing prompt: the password used is the one remembered for
    the folder chosen in the form or, failing that, the one remembered for
    the prompt; the lock state of the prompt and of the folder is not
    consulted, and without a remembered password both fields are stored
    as plain strings. *)
Lemma save_existing (w : World) (i : nat) (o : Prompt.t) :
  form_empty w = false →
  isCreatingNew (state w) = false →
  find_prompt (prompts (state w)) (currentPromptId (state w)) = Some (i, o) →
  let session := sessionPasswords (state w) in
  let password :=
    match remembered session (folder_key (form_folderId w)) with
    | Some password => Some password
    | None => remembered session (prompt_key (Prompt.id o))
    end in
  ∃ w' q,
    handleSavePrompt w = (Normal tt, w')
    ∧ prompts (state w') !! i = Some q
    ∧ PROMPTS (db w') !! Prompt.id o = Some q
    ∧ Prompt.isLocked q = Prompt.isLocked o
    ∧ Prompt.passwordCheck q = Prompt.passwordCheck o
    ∧ Prompt.folderId q = form_folderId w
    ∧ match password with
      | Some pw =>
          Prompt.body q
          = (CryptoService.encrypt (draws (env w)) (VStr (form_body w)) pw).1
          ∧ ∃ d, Prompt.notes q
                 = (CryptoService.encrypt d (VStr (form_notes w)) pw).1
      | None =>
          Prompt.body q = VStr (form_body w)
          ∧ Prompt.notes q = VStr (form_notes w)
      end.
Proof.
  intros Hform Hnew Hfind session password.
  destruct (find_prompt_lookup _ _ _ _ Hfind) as [Hi _].
  assert (i < length (prompts (state w)))%nat as Hlt
    by by eapply lookup_lt_Some.
  assert (∃ w' q,
    handleSavePrompt w = (Normal tt, w')
    ∧ prompts (state w') !! i = Some q
    ∧ PROMPTS (db w') !! Prompt.id o = Some q
    ∧ Prompt.isLocked q = Prompt.isLocked o
    ∧ Prompt.passwordCheck q = Prompt.passwordCheck o
    ∧ Prompt.folderId q = form_folderId w
    ∧ match password with
      | Some pw =>
          Prompt.body q
          = (CryptoService.encrypt (draws (env w)) (VStr (form_body w)) pw).1
          ∧ ∃ d, Prompt.notes q
                 = (CryptoService.encrypt d (VStr (form_notes w)) pw).1
      | None =>
          Prompt.body q = VStr (form_body w)
          ∧ Prompt.notes q = VStr (form_notes w)
      end); [|done].
  unfold handleSavePrompt. run.
  fold (form_title w) (form_body w) (form_notes w) (form_folderId w).
  unfold form_empty in Hform. rewrite Hform. run. rewrite Hnew. run.
  rewrite Hfind. run.
  fold (form_folderId w). fold session.
  change (match remembered session (folder_key (form_folderId w)) with
          | Some password => Some password
          | None => remembered session (prompt_key (Prompt.id o))
          end) with password.
  destruct password as [pw|]; run.
  - destruct (CryptoService.encrypt (draws (env w)) _ pw) as [b d1] eqn:Eb.
    run.
    destruct (CryptoService.encrypt d1 _ pw) as [n d2] eqn:En. run.
    rewrite !list_alter_alter_eq, (alter_at _ _ _ _ Hi).
    rewrite list_lookup_insert_eq by done. run.
    do 2 eexists. split; [done|]. simpl.
    rewrite list_lookup_insert_eq by done. rewrite lookup_insert_eq.
    repeat split; try done. exists d1. by rewrite En.
  - rewrite !list_alter_alter_eq, (alter_at _ _ _ _ Hi).
    rewrite list_lookup_insert_eq by done. run.
    do 2 eexists. split; [done|]. simpl.
    rewrite list_lookup_insert_eq by done. rewrite lookup_insert_eq.
    repeat split; done.
Qed.

End SaveExisting.

(** ** Folder lock dominates the own lock of a prompt *)

Section Dominance.
Context {P : Platform}.
Variable fs : list Folder.t.

Local Abbreviation sim := (same_up_to_own_locks fs).

Lemma agree_ret {A} (R : A → A → Prop) (a a' : A) :
  R a a' → agree fs R (mret a) (mret a').
Proof. intros HR w w' Hw. by split. Qed.

Lemma agree_bind {A B} (RA : A → A → Prop) (RB : B → B → Prop)
    (m m' : M A) (k k' : A → M B) :
  agree fs RA m m' →
  (∀ a a', RA a a' → agree fs RB (k a) (k' a')) →
  agree fs RB (m ≫= k) (m' ≫= k').
Proof.
  intros Hm Hk w w' Hw. specialize (Hm w w' Hw).
  unfold mbind, M_bind.
  destruct (m w) as [[a|] w1], (m' w') as [[a'|] w1']; try done.
  destruct Hm as [Ha Hw1]. by apply Hk.
Qed.

Lemma agree_gets {A} (R : A → A → Prop) (f : World → A) :
  (∀ w w', sim w w' → R (f w) (f w')) → agree fs R (gets f) (gets f).
Proof. intros Hf w w' Hw. split; [by apply Hf|done]. Qed.

Lemma agree_modify (f f' : World → World) :
  (∀ w w', sim w w' → sim (f w) (f' w')) →
  agree fs eq (modify f) (modify f').
Proof. intros Hf w w' Hw. split; [done|by apply Hf]. Qed.

Lemma agree_lift {A} (c : Completion A) : agree fs eq (lift c) (lift c).
Proof. intros w w' Hw. by destruct c. Qed.

Lemma agree_for_of {A} (l : list A) (body body' : A → M unit) :
  (∀ a, agree fs eq (body a) (body' a)) →
  agree fs eq (for_of l body) (for_of l body').
Proof.
  intros Hb. induction l as [|a l IH]; simpl.
  - by apply agree_ret.
  - eapply agree_bind; [apply Hb|]. by intros _ _ _.
Qed.

Lemma agree_detached (m m' : M unit) :
  agree fs eq m m' → agree fs eq (detached m) (detached m').
Proof.
  intros Hm w w' Hw. specialize (Hm w w' Hw). unfold detached.
  destruct (m w) as [[a|] w1], (m' w') as [[a'|] w1']; try done.
  by destruct Hm.
Qed.

Lemma agree_read_prompt (i : nat) :
  agree fs (dominated fs) (read_prompt i) (read_prompt i).
Proof.
  intros w w' Hw. unfold read_prompt.
  pose proof Hw as (Hf & Hp & Hrest).
  destruct (prompts (state w) !! i) as [p|] eqn:E.
  - by destruct (Forall2_lookup_l _ _ _ _ _ Hp E) as (p' & -> & Hpp').
  - assert (prompts (state w') !! i = None) as ->; [|done].
    apply lookup_ge_None. rewrite <- (Forall2_length _ _ _ Hp).
    by apply lookup_ge_None.
Qed.

(** The fields two dominated prompts share. *)
Lemma dominated_fields (p p' : Prompt.t) :
  dominated fs p p' →
  Prompt.id p' = Prompt.id p ∧ Prompt.title p' = Prompt.title p
  ∧ Prompt.body p' = Prompt.body p ∧ Prompt.notes p' = Prompt.notes p
  ∧ Prompt.folderId p' = Prompt.folderId p ∧ Prompt.tags p' = Prompt.tags p
  ∧ Prompt.isFavorite p' = Prompt.isFavorite p.
Proof.
  intros [->|[He _]]; [done|].
  destruct p, p'. unfold erase_own in He. simpl in *. by simplify_eq.
Qed.

(** Both are locked or neither is, and the same owner opens them. *)
Lemma dominated_locked (p p' : Prompt.t) :
  dominated fs p p' →
  folder_isLocked (find_folder fs (Prompt.folderId p)) || Prompt.isLocked p
  = folder_isLocked (find_folder fs (Prompt.folderId p')) || Prompt.isLocked p'.
Proof.
  intros H. destruct (dominated_fields _ _ H) as (_ & _ & _ & _ & -> & _).
  destruct H as [->|[_ ->]]; done.
Qed.

Lemma dominated_owner (p p' : Prompt.t) :
  dominated fs p p' →
  let o := owner_of (find_folder fs (Prompt.folderId p)) p in
  let o' := owner_of (find_folder fs (Prompt.folderId p')) p' in
  owner_key o' = owner_key o ∧ owner_message o' = owner_message o
  ∧ owner_validate o' = owner_validate o
  ∧ owner_passwordCheck o' = owner_passwordCheck o
  ∧ owner_id o' = owner_id o
  ∧ (match o, o' with
     | OwnerFolder f, OwnerFolder f' => f = f'
     | OwnerPrompt _, OwnerPrompt _ => True
     | _, _ => False
     end).
Proof.
  intros H. destruct (dominated_fields _ _ H) as (_ & _ & _ & _ & Hf & _).
  simpl. rewrite Hf. destruct H as [->|[_ Hl]].
  - repeat split; try done. by destruct (owner_of _ _).
  - unfold owner_of. unfold folder_isLocked in Hl.
    destruct (find_folder fs (Prompt.folderId p)) as [[fi f]|]; [|done].
    by rewrite Hl.
Qed.

End Dominance.

(** Proof of [same_up_to_own_locks] after a change that leaves the arrays
    alone. *)
Ltac sim_solve :=
  let Hf := fresh "Hf" in
  let Hp := fresh "Hp" in
  let Hs := fresh "Hs" in
  let Hu := fresh "Hu" in
  let Hd := fresh "Hd" in
  let He := fresh "He" in
  intros ? ? (Hf & Hp & Hs & Hu & Hd & He);
  unfold set_prompts in Hs; unfold set_promptLockSwitch_checked in Hu;
  injection Hs; injection Hu; intros;
  unfold same_up_to_own_locks; run;
  repeat split; try assumption; try congruence;
  repeat match goal with H : _ = _ |- _ => rewrite <- H end; done.

Section DominanceHandlers.
Context {P : Platform}.
Variable fs : list Folder.t.

Lemma agree_gets_eq {A} (f : World → A) :
  (∀ w w', same_up_to_own_locks fs w w' → f w = f w') →
  agree fs eq (gets f) (gets f).
Proof. apply agree_gets. Qed.

Lemma agree_show (d : Dialog) :
  agree fs eq (ModalService.show d) (ModalService.show d).
Proof. apply agree_modify. sim_solve. Qed.

Lemma agree_password (message : string) :
  agree fs eq (ModalService.password message)
    (ModalService.password message).
Proof.
  unfold ModalService.password.
  eapply agree_bind; [apply agree_show|]. intros _ _ _.
  eapply (agree_bind _ eq); [|intros a ? <-; by apply agree_ret].
  intros w w' Hw. unfold ModalService.next_answer.
  pose proof Hw as (_ & _ & _ & _ & _ & He). rewrite <- He.
  destruct (answers (env w)); [done|]. split; [done|].
  revert Hw. generalize w w'. sim_solve.
Qed.

Lemma agree_password_validated (message : string)
    (validate : string → Completion bool) :
  agree fs eq (ModalService.password_validated message validate)
    (ModalService.password_validated message validate).
Proof.
  unfold ModalService.password_validated.
  eapply agree_bind; [apply agree_show|]. intros _ _ _.
  intros w w' Hw. unfold ModalService.run_validated.
  pose proof Hw as (_ & _ & _ & _ & _ & He). rewrite <- He.
  destruct (ModalService.validated_loop _ _) as [r rest]. split; [done|].
  revert Hw. generalize w w'. sim_solve.
Qed.

Lemma agree_decrypt (data : Value) (password : string) :
  agree fs eq (decrypt data password) (decrypt data password).
Proof. apply agree_lift. Qed.

Lemma agree_cache_prompt (password : string) (p : nat) :
  agree fs eq (cache_prompt password p) (cache_prompt password p).
Proof.
  unfold cache_prompt.
  eapply agree_bind; [apply agree_read_prompt|]. intros o o' Ho.
  destruct (dominated_fields fs _ _ Ho) as (-> & _ & -> & -> & _).
  eapply agree_bind; [apply agree_decrypt|]. intros body ? <-.
  eapply agree_bind; [apply agree_decrypt|]. intros notes ? <-.
  apply agree_modify. sim_solve.
Qed.

Lemma agree_cache_unlocked (o : Owner) (pi : nat) (password : string) :
  agree fs eq (cache_unlocked o pi password) (cache_unlocked o pi password).
Proof.
  destruct o as [f|p]; simpl; [|apply agree_cache_prompt].
  eapply (agree_bind _ (Forall2 (dominated fs))).
  { apply agree_gets. by intros w w' (_ & Hp & _). }
  intros ps ps' Hps.
  assert (filter_refs (in_folder (Folder.id f)) ps
          = filter_refs (in_folder (Folder.id f)) ps') as ->.
  { apply filter_from_ext. eapply Forall2_impl; [exact Hps|].
    intros p p' Hp. unfold in_folder.
    by destruct (dominated_fields fs _ _ Hp) as (_ & _ & _ & _ & -> & _). }
  apply agree_for_of. apply agree_cache_prompt.
Qed.

End DominanceHandlers.

(** Proof that a projection of the world is the same in both worlds. *)
Ltac sim_gets :=
  let Hf := fresh "Hf" in
  let Hp := fresh "Hp" in
  let Hs := fresh "Hs" in
  let Hu := fresh "Hu" in
  let Hd := fresh "Hd" in
  let He := fresh "He" in
  intros ? ? (Hf & Hp & Hs & Hu & Hd & He);
  unfold set_prompts in Hs; unfold set_promptLockSwitch_checked in Hu;
  injection Hs; injection Hu; intros; try congruence.

Section DominanceView.
Context {P : Platform}.
Variable fs : list Folder.t.

(** One step of an agreement proof: the first computation of a sequence
    is one of the primitives. *)
Ltac agree_prim :=
  first
    [ apply agree_read_prompt
    | apply agree_decrypt
    | apply agree_show
    | apply agree_password
    | apply agree_password_validated
    | apply agree_cache_unlocked
    | apply agree_modify; sim_solve
    | apply agree_gets_eq; sim_gets ].

Ltac agree_do := eapply agree_bind; [agree_prim|]; intros _ _ _.

Tactic Notation "agree_let" ident(x) :=
  eapply agree_bind; [agree_prim|]; intros x ? <-.

Lemma find_prompt_dominated (ps ps' : list Prompt.t) (current : option Z) :
  Forall2 (dominated fs) ps ps' →
  match find_prompt ps current, find_prompt ps' current with
  | Some (i, p), Some (i', p') => i = i' ∧ dominated fs p p'
  | None, None => True
  | _, _ => False
  end.
Proof.
  intros H. destruct current as [pid|]; simpl; [|done].
  induction H as [|p p' l l' Hp Hl IH]; simpl; [done|].
  destruct (dominated_fields fs _ _ Hp) as (Hid & _).
  rewrite Hid. case_decide; [done|].
  destruct (list_find _ l) as [[i q]|], (list_find _ l') as [[i' q']|];
    simpl; try done.
  destruct IH as [-> ?]. done.
Qed.

Lemma agree_gets_prompts :
  agree fs (Forall2 (dominated fs))
    (gets (λ w, prompts (state w))) (gets (λ w, prompts (state w))).
Proof. apply agree_gets. by intros w w' (_ & Hp & _). Qed.

Lemma agree_gets_folders :
  agree fs (λ a a', a = fs ∧ a' = fs)
    (gets (λ w, folders (state w))) (gets (λ w, folders (state w))).
Proof.
  apply agree_gets. intros w w' (Hf & _ & Hs & _).
  unfold set_prompts in Hs. injection Hs; intros. split; congruence.
Qed.

Lemma agree__internalCloseDetailsView :
  agree fs eq _internalCloseDetailsView _internalCloseDetailsView.
Proof.
  unfold _internalCloseDetailsView. repeat agree_do. agree_prim.
Qed.

Lemma agree_renderPromptDetails (show : bool)
    (temporaryPassword : option string) :
  agree fs eq (renderPromptDetails show temporaryPassword)
    (renderPromptDetails show temporaryPassword).
Proof.
  unfold renderPromptDetails, resolve_password, fill_details.
  destruct show; [|agree_prim].
  agree_do. agree_let creating. destruct creating.
  { do 3 agree_do. agree_let v. agree_do. agree_let lockInfo.
    do 2 agree_do. agree_prim. }
  eapply agree_bind; [apply agree_gets_prompts|]. intros ps ps' Hps.
  agree_let current.
  pose proof (find_prompt_dominated ps ps' current Hps) as Hfind.
  destruct (find_prompt ps current) as [[pi prompt]|],
    (find_prompt ps' current) as [[pi' prompt']|];
    try (by destruct Hfind).
  destruct Hfind as [<- Hprompt].
  eapply agree_bind; [apply agree_gets_folders|]. intros ? ? [-> ->].
  pose proof (dominated_locked fs _ _ Hprompt) as Hlocked.
  destruct (dominated_owner fs _ _ Hprompt)
    as (Hkey & Hmsg & Hval & _ & _ & Hkind).
  destruct (dominated_fields fs _ _ Hprompt)
    as (Hid & Htitle & _ & _ & Hfolder & _).
  simpl in Hkey, Hmsg, Hval, Hkind.
  rewrite Hkey, Hmsg, Hval, Htitle, <- Hlocked. rewrite Hfolder in *.
  assert (∀ password,
            agree fs eq
              (cache_unlocked
                 (owner_of (find_folder fs (Prompt.folderId prompt)) prompt)
                 pi password)
              (cache_unlocked
                 (owner_of (find_folder fs (Prompt.folderId prompt)) prompt')
                 pi password)) as Hcache.
  { intros password.
    destruct (owner_of _ prompt) as [f|q], (owner_of _ prompt') as [f'|q'];
      try done; [subst f'|]; [apply agree_cache_unlocked|].
    apply agree_cache_prompt. }
  set (isLocked := folder_isLocked _ || Prompt.isLocked prompt) in *.
  set (key := owner_key _) in *.
  clearbody isLocked key. clear Hkey Hmsg Hval Hkind.
  agree_let session.
  set (password := if negb (falsy temporaryPassword) then _ else _).
  clearbody password.
  eapply (agree_bind _ eq).
  { destruct (isLocked && falsy password); [|by apply agree_ret].
    agree_let result. destruct result as [[pw remember]|].
    - eapply (agree_bind _ eq).
      { destruct remember; [agree_prim|by apply agree_ret]. }
      intros _ _ _. eapply agree_bind; [apply Hcache|]. intros _ _ _.
      by apply agree_ret.
    - eapply agree_bind; [apply agree__internalCloseDetailsView|].
      intros _ _ _. by apply agree_ret. }
  intros resolved ? <-. destruct resolved as [pw|]; [|by apply agree_ret].
  agree_do.
  eapply agree_bind; [apply agree_read_prompt|]. intros o o' Ho.
  destruct (dominated_fields fs _ _ Ho) as (_ & _ & Hb & Hn & Hf & Ht & _).
  rewrite ?Hb, ?Hn, ?Hf, ?Ht. clear Hb Hn Hf Ht.
  eapply (agree_bind _ eq).
  { destruct isLocked; [agree_prim|by apply agree_ret]. }
  intros b ? <-. agree_do.
  eapply agree_bind; [apply agree_read_prompt|]. intros o1 o1' Ho1.
  destruct (dominated_fields fs _ _ Ho1) as (_ & _ & Hb & Hn & Hf & Ht & _).
  rewrite ?Hb, ?Hn, ?Hf, ?Ht. clear Hb Hn Hf Ht.
  eapply (agree_bind _ eq).
  { destruct isLocked; [agree_prim|by apply agree_ret]. }
  intros n ? <-. do 4 agree_do. agree_prim.
Qed.

Lemma agree_openPromptDetailsView (isNew : bool) (promptId : option Z)
    (temporaryPassword : option string) :
  agree fs eq (openPromptDetailsView isNew promptId temporaryPassword)
    (openPromptDetailsView isNew promptId temporaryPassword).
Proof.
  unfold openPromptDetailsView. do 3 agree_do.
  apply agree_detached, agree_renderPromptDetails.
Qed.

Lemma agree_selectOrOpen (pi : nat) (prompt prompt' : Prompt.t) :
  dominated fs prompt prompt' →
  agree fs eq (selectOrOpen pi prompt) (selectOrOpen pi prompt').
Proof.
  intros Hprompt. unfold selectOrOpen.
  pose proof (dominated_locked fs _ _ Hprompt) as Hlocked.
  destruct (dominated_owner fs _ _ Hprompt)
    as (Hkey & Hmsg & Hval & _ & _ & Hkind).
  destruct (dominated_fields fs _ _ Hprompt)
    as (Hid & _ & _ & _ & Hfolder & _).
  simpl in Hkey, Hmsg, Hval, Hkind. rewrite Hid.
  agree_let selecting. destruct selecting; [agree_prim|].
  eapply agree_bind; [apply agree_gets_folders|]. intros ? ? [-> ->].
  rewrite Hkey, Hmsg, Hval, <- Hlocked. rewrite Hfolder in *.
  assert (∀ password,
            agree fs eq
              (cache_unlocked
                 (owner_of (find_folder fs (Prompt.folderId prompt)) prompt)
                 pi password)
              (cache_unlocked
                 (owner_of (find_folder fs (Prompt.folderId prompt)) prompt')
                 pi password)) as Hcache.
  { intros password.
    destruct (owner_of _ prompt) as [f|q], (owner_of _ prompt') as [f'|q'];
      try done; [subst f'|]; [apply agree_cache_unlocked|].
    apply agree_cache_prompt. }
  destruct (folder_isLocked _ || Prompt.isLocked prompt);
    [|apply agree_openPromptDetailsView].
  agree_let session.
  destruct (remembered session _); [apply agree_openPromptDetailsView|].
  agree_let result. destruct result as [[pw remember]|];
    [|by apply agree_ret].
  eapply (agree_bind _ eq).
  { destruct remember; [agree_prim|by apply agree_ret]. }
  intros _ _ _. eapply agree_bind; [apply Hcache|]. intros _ _ _.
  apply agree_openPromptDetailsView.
Qed.

Lemma agree_quickCopy (prompt prompt' : Prompt.t) :
  dominated fs prompt prompt' →
  agree fs eq (quickCopy prompt) (quickCopy prompt').
Proof.
  intros Hprompt. unfold quickCopy.
  pose proof (dominated_locked fs _ _ Hprompt) as Hlocked.
  destruct (dominated_fields fs _ _ Hprompt)
    as (Hid & _ & Hbody & _ & Hfolder & _).
  eapply agree_bind; [apply agree_gets_folders|]. intros ? ? [-> ->].
  rewrite <- Hlocked, Hbody, Hfolder, Hid.
  destruct (folder_isLocked _ || Prompt.isLocked prompt) eqn:El;
    [|agree_prim].
  agree_let password. destruct (falsy password); [by apply agree_ret|].
  assert (match find_folder fs (Prompt.folderId prompt) with
          | Some (_, f) =>
              if Folder.isLocked f then Folder.passwordCheck f
              else Prompt.passwordCheck prompt'
          | None => Prompt.passwordCheck prompt'
          end
          = match find_folder fs (Prompt.folderId prompt) with
            | Some (_, f) =>
                if Folder.isLocked f then Folder.passwordCheck f
                else Prompt.passwordCheck prompt
            | None => Prompt.passwordCheck prompt
            end) as ->.
  { destruct Hprompt as [->|[_ Hl]]; [done|]. unfold folder_isLocked in Hl.
    destruct (find_folder fs _) as [[? f]|]; [|done]. by rewrite Hl. }
  agree_let decryptedCheck.
  destruct (check_fails _ _); [agree_prim|].
  agree_let bodyToCopy. agree_prim.
Qed.

(** Opening a prompt from the list and copying it with the quick-copy
    button agree on worlds that differ only in the own lock of prompts of
    locked folders. *)
Lemma agree_handlePromptListClick (target : ClickTarget) (promptId : Z) :
  target = OnRow ∨ target = OnQuickCopy →
  agree fs eq (handlePromptListClick target promptId)
    (handlePromptListClick target promptId).
Proof.
  intros Htarget. unfold handlePromptListClick.
  eapply agree_bind; [apply agree_gets_prompts|]. intros ps ps' Hps.
  pose proof (find_prompt_dominated ps ps' (Some promptId) Hps) as Hfind.
  destruct (find_prompt ps _) as [[pi prompt]|],
    (find_prompt ps' _) as [[pi' prompt']|];
    try (by destruct Hfind).
  destruct Hfind as [<- Hprompt].
  destruct Htarget as [-> | ->].
  - by apply agree_selectOrOpen.
  - by apply agree_quickCopy.
Qed.

End DominanceView.

Section DominanceClaim.
Context {P : Platform}.

Lemma agree_outcome {A} (fs : list Folder.t) (m : M A) (w w' : World) :
  agree fs eq m m → same_up_to_own_locks fs w w' →
  (m w).1 = (m w').1 ∧ same_up_to_own_locks fs (m w).2 (m w').2.
Proof.
  intros Hm Hw. specialize (Hm w w' Hw).
  destruct (m w) as [[a|] w1], (m w') as [[a'|] w1']; try done.
  destruct Hm as [-> ?]. done.
Qed.

Lemma shown_as_locked_dominated (s s' : State) (p p' : Prompt.t) :
  folders s = folders s' → dominated (folders s) p p' →
  shown_as_locked s p = shown_as_locked s' p'.
Proof.
  intros Hf Hp. unfold shown_as_locked. rewrite <- Hf.
  pose proof (dominated_locked _ _ _ Hp) as H.
  by rewrite (orb_comm (Prompt.isLocked p)), H, orb_comm.
Qed.

Lemma lockedPrompts_dominated (s s' : State) :
  folders s = folders s' →
  Forall2 (dominated (folders s)) (prompts s) (prompts s') →
  Prompt.id <$> lockedPrompts s = Prompt.id <$> lockedPrompts s'.
Proof.
  intros Hf Hp. unfold lockedPrompts.
  induction Hp as [|p p' l l' Hpp' _ IH]; simpl; [done|].
  rewrite <- (shown_as_locked_dominated s s' p p' Hf Hpp').
  destruct (shown_as_locked s p); simpl; [|done].
  destruct (dominated_fields _ _ _ Hpp') as (-> & _). f_equal. exact IH.
Qed.

Lemma handleDragStart_dominated (s s' : State) (promptId : Z) :
  folders s = folders s' →
  Forall2 (dominated (folders s)) (prompts s) (prompts s') →
  handleDragStart s promptId = handleDragStart s' promptId.
Proof.
  intros Hf Hp. unfold handleDragStart.
  pose proof (find_prompt_dominated _ _ _ (Some promptId) Hp) as Hfind.
  destruct (find_prompt (prompts s) _) as [[i p]|],
    (find_prompt (prompts s') _) as [[i' p']|]; try done.
  destruct Hfind as [_ Hpp']. rewrite <- Hf.
  pose proof (dominated_locked _ _ _ Hpp') as H.
  by rewrite (orb_comm (Prompt.isLocked p)), H, orb_comm.
Qed.

Lemma fill_details_disabled (pi : nat) (prompt : Prompt.t)
    (isLocked isLockedByFolder isLockedIndividually : bool)
    (password : string) (w w1 : World) :
  fill_details pi prompt isLocked isLockedByFolder isLockedIndividually
    password w = (Normal tt, w1) →
  promptLockSwitch_disabled (ui w1) = isLockedByFolder.
Proof.
  unfold fill_details. run_long.
  destruct (prompts (state w) !! pi) as [o|] eqn:Hp; [|done].
  destruct isLocked; run_long.
  - destruct (CryptoService.decrypt (Prompt.body o) password); [|done].
    run_long. rewrite Hp. run_long.
    destruct (CryptoService.decrypt (Prompt.notes o) password); [|done].
    run_long. by intros [= <-].
  - rewrite Hp. run_long. by intros [= <-].
Qed.

(** Once the details of a prompt of a locked folder are shown, the lock
    switch is disabled and a click on it does nothing. *)
Lemma lock_switch_disabled (temporaryPassword : option string) (w w1 : World)
    (pi : nat) (q : Prompt.t) (fi : nat) (f : Folder.t) :
  isCreatingNew (state w) = false →
  find_prompt (prompts (state w)) (currentPromptId (state w)) = Some (pi, q) →
  find_folder (folders (state w)) (Prompt.folderId q) = Some (fi, f) →
  Folder.isLocked f = true →
  renderPromptDetails true temporaryPassword w = (Normal tt, w1) →
  promptDetails_shown (ui w1) = true →
  promptLockSwitch_disabled (ui w1) = true
  ∧ click_promptLockSwitch w1 = (Normal tt, w1).
Proof.
  intros Hnew Hfind Hfolder Hlocked Hrun Hshown.
  assert (promptLockSwitch_disabled (ui w1) = true) as Hdis.
  2:{ split; [done|]. unfold click_promptLockSwitch. run. by rewrite Hdis. }
  revert Hrun. unfold renderPromptDetails. run_long. rewrite Hnew. run_long.
  rewrite Hfind. run_long. rewrite Hfolder.
  cbn [folder_isLocked owner_of]. rewrite Hlocked. cbn [orb].
  destruct (resolve_password _ _ _ _ _) as [[[pw|]|] w'] eqn:Hres;
    [|intros [= <-]|done].
  - apply fill_details_disabled.
  - (* the dialog was cancelled: the details are closed *)
    exfalso. revert Hres.
    unfold resolve_password, ModalService.password_validated,
      ModalService.run_validated, _internalCloseDetailsView,
      remember_password.
    destruct (falsy _); run_long; [|done].
    destruct (ModalService.validated_loop _ _) as [[[pw rem]|] rest];
      run_long.
    + destruct rem; run_long;
        destruct (cache_unlocked _ _ _ _) as [[|] ?]; done.
    + intros [= <-]. simpl in Hshown. done.
Qed.

(** Quick copy of a prompt of a locked folder is decided by the oracle of
    the folder. *)
Lemma quickCopy_folder_oracle (w : World) (q : Prompt.t) (fi : nat)
    (f : Folder.t) (pw : string) (r : bool) (rest : list Answer)
    (check : Value) :
  find_folder (folders (state w)) (Prompt.folderId q) = Some (fi, f) →
  Folder.isLocked f = true →
  answers (env w) = Submit pw r :: rest →
  pw ≠ EmptyString →
  CryptoService.decrypt (Folder.passwordCheck f) pw = Normal check →
  if bool_decide (check = VStr (String_ (Folder.id f))) then
    ∀ b, CryptoService.decrypt (Prompt.body q) pw = Normal b →
         (quickCopy q w).1 = Normal tt
         ∧ clipboard (env (quickCopy q w).2) = Some (toString b)
  else
    (quickCopy q w).1 = Normal tt
    ∧ clipboard (env (quickCopy q w).2) = clipboard (env w)
    ∧ head (dialogs (env (quickCopy q w).2))
      = Some (Alert "Incorrect password.").
Proof.
  intros Hfolder Hlocked Hans Hpw Hcheck. apply truthy_str_true in Hpw.
  unfold quickCopy, ModalService.password, ModalService.next_answer. run.
  rewrite Hfolder. simpl. rewrite Hlocked. run. rewrite Hans. run.
  rewrite Hpw. run. rewrite Hcheck. run. unfold check_fails.
  destruct (bool_decide _); run; [|done].
  intros b ->. by run.
Qed.

End DominanceClaim.



(** ** The password dialog *)

(** ** The password dialog with validation *)

Lemma validated_loop_sound (validate : string → Completion bool)
    (script : list Answer) (pwd : string) (remember : bool)
    (rest : list Answer) :
  ModalService.validated_loop validate script = (Some (pwd, remember), rest) →
  truthy_str pwd = true ∧ validate pwd = Normal true
  ∧ ∃ tried,
      script = tried ++ Submit pwd remember :: rest
      ∧ Forall (λ a, ∃ p r, a = Submit p r
                  ∧ (p = EmptyString ∨ validate p ≠ Normal true)) tried.
Proof.
  induction script as [|a script IH]; simpl; [done|].
  destruct a as [|p r]; [done|].
  destruct (truthy_str p) eqn:Hp; simpl.
  - destruct (validate p) as [[]|] eqn:Hv.
    + intros [= -> -> ->]. repeat split; try done. by exists [].
    + intros H. destruct (IH H) as (H1 & H2 & tried & -> & Ht).
      repeat split; try done. exists (Submit p r :: tried). split; [done|].
      constructor; [|done]. exists p, r. split; [done|]. right. congruence.
    + intros H. destruct (IH H) as (H1 & H2 & tried & -> & Ht).
      repeat split; try done. exists (Submit p r :: tried). split; [done|].
      constructor; [|done]. exists p, r. split; [done|]. right. congruence.
  - intros H. destruct (IH H) as (H1 & H2 & tried & -> & Ht).
    repeat split; try done. exists (Submit p r :: tried). split; [done|].
    constructor; [|done]. exists p, r. split; [done|]. left.
    by apply truthy_str_false.
Qed.

Lemma owner_validate_true {P : Platform} (item : Owner) (pwd : string) :
  owner_validate item pwd = Normal true ↔
  pwd ≠ EmptyString
  ∧ CryptoService.decrypt (owner_passwordCheck item) pwd
    = Normal (VStr (String_ (owner_id item))).
Proof.
  assert (∀ check id,
    validate check id pwd = Normal true ↔
    pwd ≠ EmptyString
    ∧ CryptoService.decrypt check pwd = Normal (VStr (String_ id))) as H.
  { intros check id. unfold validate, check_fails.
    destruct (truthy_str pwd) eqn:Hp; simpl.
    - apply truthy_str_true in Hp.
      destruct (CryptoService.decrypt check pwd) as [c|].
      + rewrite negb_involutive. case_bool_decide as Hc.
        * by subst.
        * split; [done|]. intros [_ [= ?]]. done.
      + split; [done|]. by intros [_ ?].
    - apply truthy_str_false in Hp. split; [done|]. by intros [? _]. }
  destruct item; apply H.
Qed.

(** X1. A password that the validated password dialog of
    [renderPromptDetails] returns is not empty and decrypts the
    [passwordCheck] of the item to its id.  The dialog was shown once, the
    answers consumed before the accepted one were submissions that the
    validation rejected, and the state, the form and the store are as
    before. *)
Theorem password_dialog_returns_valid_password (P : Platform) (item : Owner)
    (w w' : World) (pwd : string) (remember : bool) :
  ModalService.password_validated (owner_message item) (owner_validate item) w
  = (Normal (Some (pwd, remember)), w') →
  pwd ≠ EmptyString
  ∧ CryptoService.decrypt (owner_passwordCheck item) pwd
    = Normal (VStr (String_ (owner_id item)))
  ∧ state w' = state w ∧ ui w' = ui w ∧ db w' = db w
  ∧ dialogs (env w') = PasswordPrompt (owner_message item) :: dialogs (env w)
  ∧ ∃ tried,
      answers (env w) = tried ++ Submit pwd remember :: answers (env w')
      ∧ Forall (λ a, ∃ p r, a = Submit p r
                  ∧ (p = EmptyString
                     ∨ CryptoService.decrypt (owner_passwordCheck item) p
                       ≠ Normal (VStr (String_ (owner_id item))))) tried.
Proof.
  unfold ModalService.password_validated, ModalService.run_validated,
    ModalService.show.
  run.
  destruct (ModalService.validated_loop _ _) as [r rest] eqn:Hloop.
  intros [= -> <-]. simpl.
  destruct (validated_loop_sound _ _ _ _ _ Hloop) as (Hp & Hv & tried & Ht & Hall).
  apply owner_validate_true in Hv as [Hne Hdec].
  repeat split; try done.
  exists tried. split; [done|].
  eapply Forall_impl; [exact Hall|]. simpl.
  intros a (p & r & -> & Hr). exists p, r. split; [done|].
  destruct (decide (p = EmptyString)) as [->|Hpe]; [by left|right].
  destruct Hr as [?|Hr]; [done|].
  intros Hd. apply Hr. by apply owner_validate_true.
Qed.

Lemma password_dialog_returns_valid_password_witness :
  ∃ w',
    ModalService.password_validated
      (owner_message (OwnerPrompt Scenario.P5_own))
      (owner_validate (P := Reference.platform) (OwnerPrompt Scenario.P5_own))
      (Scenario.own_locked true)
    = (Normal (Some ("pw5", true)), w')
    ∧ CryptoService.decrypt (P := Reference.platform)
        (Prompt.passwordCheck Scenario.P5_own) "pw5"
      = Normal (VStr "5").
Proof.
  eexists. split; [vm_compute; reflexivity|].
  eapply (password_dialog_returns_valid_password Reference.platform
            (OwnerPrompt Scenario.P5_own) (Scenario.own_locked true) _ "pw5"
            true).
  vm_compute. reflexivity.
Defined.

(** ** Locking and unlocking a prompt *)

Section PromptLock.
Context {P : Platform}.

Lemma find_prompt_insert (ps : list Prompt.t) (pid : option Z) (i : nat)
    (q q' : Prompt.t) :
  find_prompt ps pid = Some (i, q) →
  Prompt.id q' = Prompt.id q →
  find_prompt (<[i := q']> ps) pid = Some (i, q').
Proof.
  destruct pid as [pid|]; simpl; [|done].
  intros H Hid. apply list_find_Some in H as (Hi & Hq & Hlt).
  apply list_find_Some. split; [|split].
  - apply list_lookup_insert_eq. by eapply lookup_lt_Some.
  - congruence.
  - intros j y Hj Hji. rewrite list_lookup_insert_ne in Hj by lia.
    by eapply Hlt.
Qed.

Lemma alter_insert_at {A} (f : A → A) (i : nat) (l : list A) (x : A) :
  (i < length l)%nat → alter f i (<[i := x]> l) = <[i := f x]> l.
Proof.
  intros Hlt. rewrite (alter_at f i _ x) by by apply list_lookup_insert_eq.
  by rewrite list_insert_insert_eq.
Qed.

(** Locking the prompt shown in the details. *)
Lemma lock_prompt_run (w : World) (pi : nat) (q : Prompt.t) (pw : string)
    (r : bool) (rest : list Answer) :
  isCreatingNew (state w) = false →
  find_prompt (prompts (state w)) (currentPromptId (state w)) = Some (pi, q) →
  answers (env w) = Submit pw r :: rest →
  truthy_str pw = true →
  ∃ d1 d2 d3,
    let q' :=
      Prompt.mk (Prompt.id q) (Prompt.title q)
        (CryptoService.encrypt (draws (env w)) (VStr (promptBody (ui w))) pw).1
        (CryptoService.encrypt d1 (VStr (promptNotes (ui w))) pw).1
        (Prompt.folderId q) (Prompt.tags q) (Prompt.isFavorite q) true
        (CryptoService.encrypt d2 (VStr (String_ (Prompt.id q))) pw).1
        (Prompt.dateCreated q) (Prompt.dateModified q) in
    handlePromptLockToggle true w =
      (Normal tt,
       mkWorld (set_prompts (<[pi := q']> (prompts (state w))) (state w))
         (ui w)
         (mkStore (<[Prompt.id q := q']> (PROMPTS (db w))) (FOLDERS (db w)))
         (mkEnv rest
            (PasswordPrompt "Set a password for this prompt:"
             :: dialogs (env w))
            d3 (now (env w)) (clipboard (env w)))).
Proof.
  intros Hnew Hfind Hans Hpw.
  destruct (find_prompt_lookup _ _ _ _ Hfind) as [Hi _].
  assert (pi < length (prompts (state w)))%nat as Hlt
    by by eapply lookup_lt_Some.
  unfold handlePromptLockToggle. run. rewrite Hnew. run. rewrite Hfind.
  unfold ModalService.password, ModalService.next_answer. run.
  rewrite Hans. run. rewrite Hpw. run.
  destruct (CryptoService.encrypt (draws (env w)) _ pw) as [b d1] eqn:Eb.
  run.
  destruct (CryptoService.encrypt d1 _ pw) as [n d2] eqn:En. run.
  destruct (CryptoService.encrypt d2 _ pw) as [c d3] eqn:Ec. run.
  rewrite !list_alter_alter_eq, (alter_at _ _ _ _ Hi).
  rewrite list_lookup_insert_eq by done. run.
  exists d1, d2, d3. rewrite En, Ec, ?Hnew. reflexivity.
Qed.

(** Unlocking it with a password that passes its oracle. *)
Lemma unlock_prompt_run (w : World) (pi : nat) (q : Prompt.t) (pw : string)
    (r : bool) (rest : list Answer) (b n : string) :
  isCreatingNew (state w) = false →
  find_prompt (prompts (state w)) (currentPromptId (state w)) = Some (pi, q) →
  answers (env w) = Submit pw r :: rest →
  truthy_str pw = true →
  CryptoService.decrypt (Prompt.passwordCheck q) pw
  = Normal (VStr (String_ (Prompt.id q))) →
  CryptoService.decrypt (Prompt.body q) pw = Normal (VStr b) →
  CryptoService.decrypt (Prompt.notes q) pw = Normal (VStr n) →
  let q' :=
    Prompt.mk (Prompt.id q) (Prompt.title q) (VStr b) (VStr n)
      (Prompt.folderId q) (Prompt.tags q) (Prompt.isFavorite q) false
      VUndefined (Prompt.dateCreated q) (Prompt.dateModified q) in
  handlePromptLockToggle false w =
    (Normal tt,
     mkWorld (set_prompts (<[pi := q']> (prompts (state w))) (state w))
       (set_promptNotes n (set_promptBody b (ui w)))
       (mkStore (<[Prompt.id q := q']> (PROMPTS (db w))) (FOLDERS (db w)))
       (mkEnv rest
          (PasswordPrompt "Enter password to unlock:" :: dialogs (env w))
          (draws (env w)) (now (env w)) (clipboard (env w)))).
Proof.
  intros Hnew Hfind Hans Hpw Hcheck Hb Hn q'.
  destruct (find_prompt_lookup _ _ _ _ Hfind) as [Hi _].
  assert (pi < length (prompts (state w)))%nat as Hlt
    by by eapply lookup_lt_Some.
  unfold handlePromptLockToggle. run. rewrite Hnew. run. rewrite Hfind.
  unfold ModalService.password, ModalService.next_answer. run.
  rewrite Hans. run. rewrite Hpw. run. rewrite Hcheck. run.
  unfold check_fails. rewrite bool_decide_eq_true_2 by done. run.
  rewrite (alter_at _ _ _ _ Hi).
  rewrite list_lookup_insert_eq by done. run. rewrite Hb. run.
  rewrite alter_insert_at, list_lookup_insert_eq by done. run.
  rewrite Hn. run.
  rewrite !alter_insert_at, list_lookup_insert_eq by done. run.
  rewrite ?Hnew. reflexivity.
Qed.

End PromptLock.





(** X4. Unlocking the open prompt is refused when the dialog is
    cancelled, left empty, or answered with a password that does not
    decrypt the [passwordCheck] of the prompt to its id: the state and the
    store are unchanged, nothing is encrypted, and when the handler
    returns the lock switch is back to checked. *)
Theorem unlock_prompt_rejected (P : Platform) (w : World) (pi : nat)
    (q : Prompt.t) :
  isCreatingNew (state w) = false →
  find_prompt (prompts (state w)) (currentPromptId (state w)) = Some (pi, q) →
  match next_reply (answers (env w)) with
  | Some pw =>
      pw = EmptyString
      ∨ CryptoService.decrypt (Prompt.passwordCheck q) pw
        ≠ Normal (VStr (String_ (Prompt.id q)))
  | None => True
  end →
  let r := handlePromptLockToggle false w in
  state r.2 = state w
  ∧ db r.2 = db w
  ∧ draws (env r.2) = draws (env w)
  ∧ (r.1 = Normal tt → ui r.2 = set_promptLockSwitch_checked true (ui w))
  ∧ (r.1 = Throw → ui r.2 = ui w).
Proof.
  intros Hnew Hfind Hreply.
  unfold handlePromptLockToggle. run. rewrite Hnew. run. rewrite Hfind.
  unfold ModalService.password, ModalService.next_answer. run.
  destruct (answers (env w)) as [|[|pw r] rest] eqn:Hans; run;
    [by destruct w as [[] ? ? ?]..|].
  simpl in Hreply.
  destruct (truthy_str pw) eqn:Hpw; run; [|by destruct w as [[] ? ? ?]].
  destruct Hreply as [->|Hreply]; [done|].
  destruct (CryptoService.decrypt (Prompt.passwordCheck q) pw) as [c|];
    run; [|by destruct w as [[] ? ? ?]].
  unfold check_fails. rewrite bool_decide_eq_false_2 by congruence. run.
  by destruct w as [[] ? ? ?].
Qed.

Lemma unlock_prompt_rejected_witness :
  let w :=
    mkWorld
      (set_currentPromptId (Some 5)
         (set_prompts [Scenario.P5_own] Scenario.empty_state))
      Scenario.empty_ui (mkStore ∅ ∅)
      (set_answers [Submit "guess" false] Scenario.empty_env) in
  let r := handlePromptLockToggle (P := Reference.platform) false w in
  state r.2 = state w ∧ db r.2 = db w
  ∧ promptLockSwitch_checked (ui r.2) = true.
Proof.
  intros w r.
  destruct (unlock_prompt_rejected Reference.platform w 0%nat Scenario.P5_own)
    as (Hs & Hd & _ & Hu & _);
    [reflexivity|reflexivity|right; vm_compute; discriminate|].
  split; [exact Hs|]. split; [exact Hd|].
  fold r in Hu. rewrite Hu; reflexivity.
Defined.



(** ** Saving: the empty form and the open prompt *)

Lemma trimStart_blank (s : string) :
  trimStart s = EmptyString ↔ is_blank s = true.
Proof.
  induction s as [|c s IH]; simpl; [done|].
  destruct (Ascii.is_space c); simpl; [done|]. split; discriminate.
Qed.

Lemma trimStart_blank_empty (s : string) :
  is_blank (trimStart s) = true → trimStart s = EmptyString.
Proof.
  induction s as [|c s IH]; simpl; [done|].
  destruct (Ascii.is_space c) eqn:Hc; simpl; [done|]. by rewrite Hc.
Qed.

Lemma rev_app_blank (s acc : string) :
  is_blank (String.rev_app s acc) = is_blank s && is_blank acc.
Proof.
  revert acc. induction s as [|c s IH]; intros acc; simpl; [done|].
  rewrite IH. simpl. destruct (Ascii.is_space c), (is_blank s); done.
Qed.

Lemma rev_app_empty (s acc : string) :
  String.rev_app s acc = EmptyString → s = EmptyString ∧ acc = EmptyString.
Proof.
  revert acc. induction s as [|c s IH]; intros acc; simpl; [done|].
  intros H. by destruct (IH _ H).
Qed.

Lemma trim_blank (s : string) : trim s = EmptyString ↔ is_blank s = true.
Proof.
  unfold trim, String.rev. split.
  - intros H. apply rev_app_empty in H as [H _].
    apply trimStart_blank in H. rewrite rev_app_blank, andb_true_r in H.
    apply trimStart_blank_empty in H. by apply trimStart_blank.
  - intros H. apply trimStart_blank in H. by rewrite H.
Qed.

Lemma form_empty_blank (w : World) :
  form_empty w = true ↔
  is_blank (promptTitle (ui w)) = true
  ∧ promptBody (ui w) = EmptyString
  ∧ is_blank (promptNotes (ui w)) = true.
Proof.
  unfold form_empty, form_title, form_body, form_notes.
  rewrite !andb_true_iff, !negb_true_iff, !truthy_str_false, !trim_blank.
  tauto.
Qed.




(** X8. A click on the star of a prompt flips [isFavorite] of that
    prompt, in the array and in the store, and changes nothing else; a
    second click brings the state back to what it was. *)
Theorem favorite_toggle_involutive (P : Platform) (w : World) (promptId : Z)
    (pi : nat) (q : Prompt.t) :
  find_prompt (prompts (state w)) (Some promptId) = Some (pi, q) →
  ∃ w1 w2,
    handlePromptListClick OnFavorite promptId w = (Normal tt, w1)
    ∧ prompts (state w1) = <[pi := toggle_isFavorite q]> (prompts (state w))
    ∧ PROMPTS (db w1) = <[promptId := toggle_isFavorite q]> (PROMPTS (db w))
    ∧ Prompt.isFavorite (toggle_isFavorite q) = negb (Prompt.isFavorite q)
    ∧ set_prompts [] (state w1) = set_prompts [] (state w)
    ∧ ui w1 = ui w ∧ env w1 = env w ∧ FOLDERS (db w1) = FOLDERS (db w)
    ∧ handlePromptListClick OnFavorite promptId w1 = (Normal tt, w2)
    ∧ state w2 = state w
    ∧ PROMPTS (db w2) = <[promptId := q]> (PROMPTS (db w)).
Proof.
  intros Hfind.
  destruct (find_prompt_lookup _ _ _ _ Hfind) as [Hi [= Hid]].
  assert (pi < length (prompts (state w)))%nat as Hlt
    by by eapply lookup_lt_Some.
  assert (∀ w pi q,
    find_prompt (prompts (state w)) (Some promptId) = Some (pi, q) →
    handlePromptListClick OnFavorite promptId w =
      (Normal tt,
       with_db (λ d, set_PROMPTS
                  (<[promptId := toggle_isFavorite q]> (PROMPTS d)) d)
         (with_state (λ s, set_prompts
                        (<[pi := toggle_isFavorite q]> (prompts s)) s) w)))
    as Hrun.
  { clear. intros w pi q Hfind.
    destruct (find_prompt_lookup _ _ _ _ Hfind) as [Hi [= Hid]].
    unfold handlePromptListClick. run. rewrite Hfind. run.
    rewrite (alter_at _ _ _ _ Hi).
    rewrite list_lookup_insert_eq by by eapply lookup_lt_Some. run.
    by rewrite Hid. }
  eexists _, _. split; [by apply Hrun|].
  split; [done|]. split; [done|]. split; [done|]. split; [done|].
  split; [done|]. split; [by destruct w as [? ? ? []]|]. split; [done|]. split.
  - apply (Hrun _ pi (toggle_isFavorite q)).
    by apply (find_prompt_insert (prompts (state w)) (Some promptId) pi q).
  - simpl. rewrite list_insert_insert_eq, insert_insert_eq.
    assert (toggle_isFavorite (toggle_isFavorite q) = q) as ->.
    { destruct q. unfold toggle_isFavorite. simpl. by rewrite negb_involutive. }
    rewrite list_insert_id by done. split; [|done]. by destruct w as [[] ? ? ?].
Qed.

Lemma favorite_toggle_involutive_witness :
  let w :=
    mkWorld (set_prompts [Scenario.P2; Scenario.P3] Scenario.empty_state)
      Scenario.empty_ui (mkStore ∅ ∅) Scenario.empty_env in
  ∃ w1 w2,
    handlePromptListClick (P := Reference.platform) OnFavorite 3 w
    = (Normal tt, w1)
    ∧ (Prompt.isFavorite <$> prompts (state w1)) = [false; true]
    ∧ handlePromptListClick (P := Reference.platform) OnFavorite 3 w1
      = (Normal tt, w2)
    ∧ state w2 = state w.
Proof.
  intros w.
  destruct (favorite_toggle_involutive Reference.platform w 3 1%nat
              Scenario.P3)
    as (w1 & w2 & H1 & Hps & _ & _ & _ & _ & _ & _ & H2 & H3 & _);
    [reflexivity|].
  exists w1, w2. split; [exact H1|]. split; [by rewrite Hps|].
  split; [exact H2|exact H3].
Defined.

(** ** Clicks on the list of prompts *)

(** X9. In select mode a click on a row adds the prompt to the selection
    when it is not in it and removes it when it is, leaves the other
    selected ids, the rest of the state, the form and the store as they
    are, and a second click on the row undoes the first. *)
Theorem select_mode_click_toggles (P : Platform) (w : World) (promptId : Z)
    (pi : nat) (q : Prompt.t) :
  isSelectMode (state w) = true →
  find_prompt (prompts (state w)) (Some promptId) = Some (pi, q) →
  ∃ w1,
    handlePromptListClick OnRow promptId w = (Normal tt, w1)
    ∧ (promptId ∈ selectedPromptIds (state w1)
       ↔ promptId ∉ selectedPromptIds (state w))
    ∧ (∀ x, x ≠ promptId →
         x ∈ selectedPromptIds (state w1) ↔ x ∈ selectedPromptIds (state w))
    ∧ set_selectedPromptIds ∅ (state w1) = set_selectedPromptIds ∅ (state w)
    ∧ ui w1 = ui w ∧ db w1 = db w ∧ env w1 = env w
    ∧ handlePromptListClick OnRow promptId w1 = (Normal tt, w).
Proof.
  intros Hsel Hfind.
  destruct (find_prompt_lookup _ _ _ _ Hfind) as [Hi [= Hid]].
  assert (∀ w,
    isSelectMode (state w) = true →
    find_prompt (prompts (state w)) (Some promptId) = Some (pi, q) →
    handlePromptListClick OnRow promptId w =
      (Normal tt,
       with_state (λ s,
         set_selectedPromptIds
           (if bool_decide (promptId ∈ selectedPromptIds s)
            then selectedPromptIds s ∖ {[promptId]}
            else selectedPromptIds s ∪ {[promptId]}) s) w)) as Hrun.
  { clear. intros w Hsel Hfind.
    destruct (find_prompt_lookup _ _ _ _ Hfind) as [Hi [= Hid]].
    unfold handlePromptListClick. run. rewrite Hfind.
    unfold selectOrOpen. run. rewrite Hsel. run.
    by rewrite <- Hid, ?Hsel. }
  eexists. split; [by apply Hrun|]. simpl.
  split; [case_bool_decide; set_solver|].
  split; [intros x Hx; case_bool_decide; set_solver|].
  split; [done|]. split; [done|]. split; [done|]. split; [done|].
  rewrite Hrun by done. f_equal.
  destruct w as [[ps fs v c n t m sel e sp dc li] u d e']. simpl in *.
  unfold with_state, set_selectedPromptIds. simpl. do 2 f_equal.
  apply set_eq. intros x.
  destruct (decide (x = promptId)) as [->|Hx];
    repeat case_bool_decide; set_solver.
Qed.

Lemma select_mode_click_toggles_witness :
  let w :=
    mkWorld
      (set_isSelectMode true
         (set_prompts [Scenario.P5_own] Scenario.empty_state))
      Scenario.empty_ui (mkStore ∅ ∅) Scenario.empty_env in
  ∃ w1,
    handlePromptListClick (P := Reference.platform) OnRow 5 w = (Normal tt, w1)
    ∧ 5 ∈ selectedPromptIds (state w1)
    ∧ env w1 = env w
    ∧ handlePromptListClick (P := Reference.platform) OnRow 5 w1
      = (Normal tt, w).
Proof.
  intros w.
  destruct (select_mode_click_toggles Reference.platform w 5 0%nat
              Scenario.P5_own)
    as (w1 & Hrun & Hin & _ & _ & _ & _ & He & Hback);
    [reflexivity|reflexivity|].
  exists w1. split; [exact Hrun|]. split; [|by split].
  apply Hin. simpl. set_solver.
Defined.

(** X10. A quick copy changes neither the state, nor the form, nor the
    store, and encrypts nothing.  For a prompt that is not locked the body
    is copied as it is; for a locked one the body decrypted with the
    password typed is copied when that password is not empty and passes the
    check of the owner, and the clipboard is left as it was when the
    password is withheld or fails the check. *)
Theorem quick_copy_reads_only (P : Platform) (w : World) (promptId : Z)
    (pi : nat) (q : Prompt.t) :
  find_prompt (prompts (state w)) (Some promptId) = Some (pi, q) →
  let item := owner_of (find_folder (folders (state w)) (Prompt.folderId q)) q in
  let accepted (pw : string) :=
    pw ≠ EmptyString
    ∧ CryptoService.decrypt (owner_passwordCheck item) pw
      = Normal (VStr (String_ (owner_id item))) in
  let r := handlePromptListClick OnQuickCopy promptId w in
  state r.2 = state w ∧ ui r.2 = ui w ∧ db r.2 = db w
  ∧ draws (env r.2) = draws (env w)
  ∧ (shown_as_locked (state w) q = false →
     r = (Normal tt,
          with_env (set_clipboard (Some (toString (Prompt.body q)))) w))
  ∧ (shown_as_locked (state w) q = true →
     (∀ pw b, next_reply (answers (env w)) = Some pw → accepted pw →
        CryptoService.decrypt (Prompt.body q) pw = Normal b →
        r.1 = Normal tt ∧ clipboard (env r.2) = Some (toString b))
     ∧ ((∀ pw, next_reply (answers (env w)) = Some pw → ¬ accepted pw) →
        clipboard (env r.2) = clipboard (env w))).
Proof.
  intros Hfind item accepted r. subst r.
  unfold handlePromptListClick. run. rewrite Hfind.
  unfold quickCopy. run. unfold shown_as_locked.
  rewrite (orb_comm (Prompt.isLocked q)).
  assert (∀ check id pw,
    check = owner_passwordCheck item → id = owner_id item →
    truthy_str pw = true →
    check_fails
      match CryptoService.decrypt check pw with
      | Normal v => v | Throw => VNull end id = false ↔ accepted pw) as Hacc.
  { intros check id pw -> -> Hpw. unfold accepted, check_fails.
    apply truthy_str_true in Hpw. rewrite negb_false_iff, bool_decide_eq_true.
    destruct (CryptoService.decrypt _ pw); naive_solver. }
  destruct (folder_isLocked _ || Prompt.isLocked q) eqn:Hlocked; run.
  2:{ repeat split; done. }
  unfold ModalService.password, ModalService.next_answer. run.
  set (fo := find_folder (folders (state w)) (Prompt.folderId q)) in *.
  set (checkValue := match fo with Some (_, f) => if Folder.isLocked f then Folder.passwordCheck f else Prompt.passwordCheck q | None => Prompt.passwordCheck q end).
  set (checkString := match fo with Some (_, f) => if Folder.isLocked f then Folder.id f else Prompt.id q | None => Prompt.id q end).
  assert (checkValue = owner_passwordCheck item) as Hcv.
  { unfold checkValue, item, owner_of. destruct fo as [[? f]|]; [|done].
    by destruct (Folder.isLocked f). }
  assert (checkString = owner_id item) as Hcs.
  { unfold checkString, item, owner_of. destruct fo as [[? f]|]; [|done].
    by destruct (Folder.isLocked f). }
  destruct (answers (env w)) as [|[|pw rr] rest] eqn:Hans; run;
    [repeat split; done..|].
  destruct (truthy_str pw) eqn:Hpw; run.
  2:{ do 5 (split; [done|]). intros _. split; [|done].
      intros pw' b [= <-] [Hne _]. by apply truthy_str_false in Hpw. }
  destruct (CryptoService.decrypt checkValue pw) as [c|] eqn:Hdec; run.
  2:{ do 5 (split; [done|]). intros _. split; [|done].
      intros pw' b [= <-] [_ Hd]. rewrite <- Hcv in Hd. congruence. }
  destruct (check_fails c checkString) eqn:Hfail; run.
  - do 5 (split; [done|]). intros _. split; [|done].
    intros pw' b [= <-] Ha.
    apply (Hacc checkValue checkString) in Ha; try done.
    rewrite Hdec in Ha. congruence.
  - destruct (CryptoService.decrypt (Prompt.body q) pw) as [b|] eqn:Hb; run.
    + do 5 (split; [done|]). intros _. split.
      * intros pw' b' [= <-] _ Hb'. rewrite Hb in Hb'. by simplify_eq.
      * intros Hno. exfalso. apply (Hno pw eq_refl).
        apply (Hacc checkValue checkString); try done. by rewrite Hdec.
    + do 5 (split; [done|]). intros _. split; [|done].
      intros pw' b' [= <-] _ Hb'. rewrite Hb in Hb'. done.
Qed.

Lemma quick_copy_reads_only_witness :
  let w := Scenario.own_locked false in
  let r := handlePromptListClick (P := Reference.platform) OnQuickCopy 5 w in
  r.1 = Normal tt
  ∧ clipboard (env r.2) = Some "secret"
  ∧ state r.2 = state w ∧ db r.2 = db w.
Proof.
  intros w r. subst r.
  destruct (quick_copy_reads_only Reference.platform w 5 0%nat
              Scenario.P5_own)
    as (Hs & _ & Hd & _ & _ & Hlocked); [reflexivity|].
  destruct (Hlocked eq_refl) as [Hcopy _].
  destruct (Hcopy "pw5" (VStr "secret")) as [Hr Hc].
  - reflexivity.
  - split; [discriminate|vm_compute; reflexivity].
  - vm_compute; reflexivity.
  - split; [exact Hr|]. split; [exact Hc|]. split; [exact Hs|exact Hd].
Defined.

(** ** Handlers that only read the vault *)

#[global] Instance same_vault_preorder : PreOrder same_vault.
Proof.
  split.
  - by intros w.
  - intros w1 w2 w3 (H1 & H2 & H3) (H4 & H5 & H6).
    repeat split; congruence.
Qed.

#[global] Instance same_env_preorder : PreOrder same_env.
Proof. split; unfold same_env; [done|]. intros w1 w2 w3; congruence. Qed.

Section Preserves.
Context {P : Platform}.
Context (R : World → World → Prop) `{!PreOrder R}.

Lemma preserves_ret {A} (a : A) : preserves R (mret a).
Proof. by intros w. Qed.

Lemma preserves_bind {A B} (m : M A) (k : A → M B) :
  preserves R m → (∀ a, preserves R (k a)) → preserves R (m ≫= k).
Proof.
  intros Hm Hk w. specialize (Hm w). unfold mbind, M_bind.
  destruct (m w) as [[a|] w1]; simpl in *; [|done].
  etrans; [exact Hm|]. apply Hk.
Qed.

Lemma preserves_gets {A} (f : World → A) : preserves R (gets f).
Proof. by intros w. Qed.

Lemma preserves_lift {A} (c : Completion A) : preserves R (lift c).
Proof. by intros w. Qed.

Lemma preserves_throw {A} : preserves R (throw (A := A)).
Proof. by intros w. Qed.

Lemma preserves_modify (f : World → World) :
  (∀ w, R w (f w)) → preserves R (modify f).
Proof. intros Hf w. apply Hf. Qed.

Lemma preserves_for_of {A} (l : list A) (body : A → M unit) :
  (∀ a, preserves R (body a)) → preserves R (for_of l body).
Proof.
  intros Hb. induction l as [|a l IH]; simpl.
  - apply preserves_ret.
  - apply preserves_bind; [apply Hb|]. by intros _.
Qed.

Lemma preserves_detached (m : M unit) :
  preserves R m → preserves R (detached m).
Proof. intros Hm w. apply Hm. Qed.

Lemma preserves_read_prompt (i : nat) : preserves R (read_prompt i).
Proof. intros w. unfold read_prompt. by destruct (_ !! _). Qed.

Lemma preserves_decrypt (data : Value) (password : string) :
  preserves R (decrypt data password).
Proof. apply preserves_lift. Qed.

End Preserves.

(** Steps of a proof that a computation preserves a relation. *)
Ltac preserves_step :=
  lazymatch goal with
  | |- PreOrder _ => apply _
  | |- ∀ _, _ => intros ?
  | |- same_vault _ _ => by repeat split
  | |- same_env _ _ => reflexivity
  | |- preserves _ (mret _) => apply preserves_ret
  | |- preserves _ (gets _) => apply preserves_gets
  | |- preserves _ (lift _) => apply preserves_lift
  | |- preserves _ throw => apply preserves_throw
  | |- preserves _ (read_prompt _) => apply preserves_read_prompt
  | |- preserves _ (decrypt _ _) => apply preserves_decrypt
  | |- preserves _ (detached _) => apply preserves_detached
  | |- preserves _ (for_of _ _) => apply preserves_for_of
  | |- preserves _ (modify _) => apply preserves_modify
  | |- preserves _ (_ ≫= _) => apply preserves_bind
  | |- preserves _ (if _ then _ else _) => case_match
  | |- preserves _ (match _ with _ => _ end) => case_match
  end.

Ltac preserves_auto := repeat (first [preserves_step | assumption]).

Section ViewsPreserve.
Context {P : Platform}.

Lemma show_same_vault (d : Dialog) : preserves same_vault (ModalService.show d).
Proof. unfold ModalService.show. preserves_auto. Qed.

Lemma password_validated_same_vault (message : string)
    (validate : string → Completion bool) :
  preserves same_vault (ModalService.password_validated message validate).
Proof.
  unfold ModalService.password_validated.
  apply preserves_bind; [apply _|apply show_same_vault|]. intros _ w.
  unfold ModalService.run_validated.
  by destruct (ModalService.validated_loop _ _).
Qed.

Lemma password_same_vault (message : string) :
  preserves same_vault (ModalService.password message).
Proof.
  unfold ModalService.password.
  apply preserves_bind; [apply _|apply show_same_vault|]. intros _.
  apply preserves_bind; [apply _| |intros ?; apply preserves_ret; apply _].
  intros w. unfold ModalService.next_answer. by destruct (answers _).
Qed.

Lemma cache_prompt_same_vault (password : string) (p : nat) :
  preserves same_vault (cache_prompt password p).
Proof. unfold cache_prompt. preserves_auto. Qed.

Lemma cache_unlocked_same_vault (o : Owner) (p : nat) (password : string) :
  preserves same_vault (cache_unlocked o p password).
Proof.
  unfold cache_unlocked. destruct o; preserves_auto;
    apply cache_prompt_same_vault.
Qed.

Lemma close_same_vault : preserves same_vault _internalCloseDetailsView.
Proof. unfold _internalCloseDetailsView. preserves_auto. Qed.

Lemma resolve_password_same_vault (isLocked : bool) (item : Owner) (pi : nat)
    (password : option string) :
  preserves same_vault (resolve_password isLocked item pi password).
Proof.
  unfold resolve_password, remember_password. 
  preserves_auto;
    first [apply password_validated_same_vault
          |apply cache_unlocked_same_vault|apply close_same_vault].
Qed.

Lemma fill_details_same_vault (pi : nat) (prompt : Prompt.t)
    (isLocked isLockedByFolder isLockedIndividually : bool)
    (password : string) :
  preserves same_vault
    (fill_details pi prompt isLocked isLockedByFolder isLockedIndividually
       password).
Proof. unfold fill_details. preserves_auto. Qed.

Lemma renderPromptDetails_same_vault (show : bool)
    (temporaryPassword : option string) :
  preserves same_vault (renderPromptDetails show temporaryPassword).
Proof.
  unfold renderPromptDetails.
  preserves_auto;
    first [apply resolve_password_same_vault|apply fill_details_same_vault].
Qed.

Lemma openPromptDetailsView_same_vault (isNew : bool) (promptId : option Z)
    (temporaryPassword : option string) :
  preserves same_vault (openPromptDetailsView isNew promptId temporaryPassword).
Proof.
  unfold openPromptDetailsView. preserves_auto.
  apply renderPromptDetails_same_vault.
Qed.

Lemma quickCopy_same_vault (prompt : Prompt.t) :
  preserves same_vault (quickCopy prompt).
Proof.
  unfold quickCopy. preserves_auto;
    first [apply password_same_vault|apply show_same_vault].
Qed.

Lemma selectOrOpen_same_vault (pi : nat) (prompt : Prompt.t) :
  preserves same_vault (selectOrOpen pi prompt).
Proof.
  unfold selectOrOpen, remember_password. preserves_auto;
    first [apply openPromptDetailsView_same_vault
          |apply password_validated_same_vault
          |apply cache_unlocked_same_vault].
Qed.

End ViewsPreserve.

(** X11. Rendering the details of a prompt, and every click on the list
    of prompts but the one on the star, leave the prompts, the folders and
    the store as they are. *)
Theorem viewing_never_writes (P : Platform) :
  (∀ show temporaryPassword,
     preserves same_vault (renderPromptDetails show temporaryPassword))
  ∧ (∀ target promptId,
       target ≠ OnFavorite →
       preserves same_vault (handlePromptListClick target promptId)).
Proof.
  split; [apply renderPromptDetails_same_vault|].
  intros target promptId Htarget. unfold handlePromptListClick.
  apply preserves_bind; [apply _|apply preserves_gets; apply _|]. intros ps.
  destruct (find_prompt ps (Some promptId)) as [[pi prompt]|];
    [|apply preserves_ret; apply _].
  destruct target; [apply quickCopy_same_vault|done| |apply selectOrOpen_same_vault].
  preserves_auto.
Qed.

Lemma viewing_never_writes_witness :
  let w := Scenario.own_locked true in
  let w' := (handlePromptListClick (P := Reference.platform) OnRow 5 w).2 in
  prompts (state w') = prompts (state w) ∧ db w' = db w
  ∧ promptBody (ui w') = "secret".
Proof.
  intros w w'.
  destruct (viewing_never_writes Reference.platform) as [_ H].
  destruct (H OnRow 5 ltac:(done) w) as (Hp & _ & Hd).
  split; [exact Hp|]. split; [exact Hd|]. reflexivity.
Defined.

Section Remembered.
Context {P : Platform}.

Lemma fill_details_same_env (pi : nat) (prompt : Prompt.t)
    (isLocked isLockedByFolder isLockedIndividually : bool)
    (password : string) :
  preserves same_env
    (fill_details pi prompt isLocked isLockedByFolder isLockedIndividually
       password).
Proof. unfold fill_details. preserves_auto. Qed.

Lemma fill_details_shows (pi : nat) (prompt : Prompt.t)
    (isLockedByFolder isLockedIndividually : bool)
    (password : string) (w : World) (b n : Value) :
  prompts (state w) !! pi = Some prompt →
  CryptoService.decrypt (Prompt.body prompt) password = Normal b →
  CryptoService.decrypt (Prompt.notes prompt) password = Normal n →
  fill_details pi prompt true isLockedByFolder isLockedIndividually password w
  = (Normal tt,
     with_state (set_currentTags (Prompt.tags prompt))
       (with_ui (λ u,
          mkUI (Prompt.title prompt) (to_input_value b) (to_input_value n)
            (folder_choice (Prompt.folderId prompt)) isLockedIndividually
            isLockedByFolder (moveFolderSelect u) (movePasswordInput u)
            (promptDetails_shown u)) w)).
Proof.
  intros Hp Hb Hn. unfold fill_details. run_long. rewrite Hp. run_long.
  rewrite Hb. run_long. rewrite Hp. run_long. rewrite Hn. run_long.
  reflexivity.
Qed.

End Remembered.

(** X12. A click on a locked prompt whose password was remembered for the
    session opens it without a dialog: nothing is asked, the details view
    is shown with the title of the prompt and with its body and notes
    decrypted under the remembered password, and the lock switch is
    disabled exactly when the lock is that of the folder. *)
Theorem remembered_password_opens_without_dialog (P : Platform) (w : World)
    (promptId : Z) (pi : nat) (q : Prompt.t) (pw : string) (b n : Value) :
  isSelectMode (state w) = false →
  find_prompt (prompts (state w)) (Some promptId) = Some (pi, q) →
  let folder := find_folder (folders (state w)) (Prompt.folderId q) in
  shown_as_locked (state w) q = true →
  sessionPasswords (state w) !! owner_key (owner_of folder q) = Some pw →
  pw ≠ EmptyString →
  CryptoService.decrypt (Prompt.body q) pw = Normal b →
  CryptoService.decrypt (Prompt.notes q) pw = Normal n →
  let r := handlePromptListClick OnRow promptId w in
  r.1 = Normal tt
  ∧ env r.2 = env w
  ∧ sessionPasswords (state r.2) = sessionPasswords (state w)
  ∧ currentPromptId (state r.2) = Some promptId
  ∧ promptDetails_shown (ui r.2) = true
  ∧ promptTitle (ui r.2) = Prompt.title q
  ∧ promptBody (ui r.2) = to_input_value b
  ∧ promptNotes (ui r.2) = to_input_value n
  ∧ promptLockSwitch_disabled (ui r.2) = folder_isLocked folder.
Proof.
  intros Hsel Hfind folder Hlocked Hsession Hpw Hb Hn r. subst r.
  destruct (find_prompt_lookup _ _ _ _ Hfind) as [Hi [= Hid]].
  apply truthy_str_true in Hpw.
  unfold shown_as_locked in Hlocked. rewrite orb_comm in Hlocked.
  fold folder in Hlocked.
  assert (remembered (sessionPasswords (state w))
            (owner_key (owner_of folder q)) = Some pw) as Hrem.
  { unfold remembered. by rewrite Hsession, Hpw. }
  unfold handlePromptListClick. run_long. rewrite Hfind.
  unfold selectOrOpen. run_long. rewrite Hsel. run_long.
  fold folder. rewrite Hlocked. run_long. rewrite Hrem.
  unfold openPromptDetailsView, detached. run_long.
  unfold renderPromptDetails. run_long.
  rewrite Hid in Hfind. rewrite Hfind. run_long. fold folder.
  rewrite Hrem. cbn [falsy negb].
  unfold resolve_password. rewrite Hlocked. cbn [falsy andb]. rewrite Hpw.
  run_long.
  erewrite fill_details_shows by done. simpl. by rewrite Hid.
Qed.

Lemma remembered_password_opens_without_dialog_witness :
  let w :=
    mkWorld
      (set_sessionPasswords {["prompt-5" := "pw5"]}
         (set_prompts [Scenario.P5_own] Scenario.empty_state))
      Scenario.empty_ui (mkStore ∅ ∅) Scenario.empty_env in
  let r := handlePromptListClick (P := Reference.platform) OnRow 5 w in
  r.1 = Normal tt
  ∧ dialogs (env r.2) = []
  ∧ promptDetails_shown (ui r.2) = true
  ∧ promptBody (ui r.2) = "secret".
Proof.
  intros w r. subst r.
  destruct (remembered_password_opens_without_dialog Reference.platform w 5
              0%nat Scenario.P5_own "pw5" (VStr "secret") (VStr EmptyString))
    as (Hr & He & _ & _ & Hshown & _ & Hbody & _);
    [reflexivity|reflexivity|reflexivity|vm_compute; reflexivity|discriminate
    |vm_compute; reflexivity|vm_compute; reflexivity|].
  split; [exact Hr|]. split; [by rewrite He|].
  split; [exact Hshown|exact Hbody].
Defined.

(** ** Rendering *)

#[global] Instance same_listing_preorder : PreOrder same_listing.
Proof.
  split.
  - by intros w.
  - intros w1 w2 w3 (H1 & H2 & H3 & H4 & H5) (H6 & H7 & H8 & H9 & H10).
    split; [by etrans|]. repeat split; congruence.
Qed.

Ltac preserves_listing :=
  repeat first
    [ preserves_step
    | lazymatch goal with
      | |- same_listing _ _ => by repeat split
      end
    | assumption ].

Section UpdateUI.
Context {P : Platform}.

Lemma renderPromptDetails_same_listing (show : bool)
    (temporaryPassword : option string) :
  preserves same_listing (renderPromptDetails show temporaryPassword).
Proof.
  assert (∀ d, preserves same_listing (ModalService.show d)) as Hshow.
  { intros d. unfold ModalService.show. preserves_listing. }
  assert (∀ message validate,
    preserves same_listing
      (ModalService.password_validated message validate)) as Hpv.
  { intros message validate. unfold ModalService.password_validated.
    apply preserves_bind; [apply _|apply Hshow|]. intros _ w.
    unfold ModalService.run_validated.
    by destruct (ModalService.validated_loop _ _). }
  assert (∀ password p, preserves same_listing (cache_prompt password p))
    as Hcp.
  { intros password p. unfold cache_prompt. preserves_listing. }
  assert (∀ o p password,
    preserves same_listing (cache_unlocked o p password)) as Hcu.
  { intros o p password. unfold cache_unlocked.
    destruct o; preserves_listing; apply Hcp. }
  assert (preserves same_listing _internalCloseDetailsView) as Hclose.
  { unfold _internalCloseDetailsView. preserves_listing. }
  unfold renderPromptDetails, resolve_password, fill_details,
    remember_password.
  preserves_listing; first [apply Hpv|apply Hcu].
Qed.

Lemma close_same_listing : preserves same_listing _internalCloseDetailsView.
Proof. unfold _internalCloseDetailsView. preserves_listing. Qed.

End UpdateUI.

(** Unfolding of the page monad, of the monad of the vault and of the
    record updates. *)
Ltac runp :=
  cbv beta iota zeta delta
    [mbind MP_bind mret MP_ret getsP modifyP in_world with_world with_chrome
     set_globalTags set_folderToDeleteId set_TAGS set_search set_newFolderName
     set_newTagName set_confirmations
     M_bind M_ret gets modify lift throw read_prompt update_prompt
     falsy default from_option Datatypes.id
     update_folder decrypt encrypt with_prompts with_state with_env with_ui
     with_db DB.put_prompt DB.put_folder ModalService.alert ModalService.show
     DB_remove_prompt DB_remove_folder
     set_prompts set_folders set_view set_currentPromptId set_isCreatingNew
     set_currentTags set_isSelectMode set_selectedPromptIds
     set_folderToEditId set_sessionPasswords set_decryptedCache
     set_newPromptLockInfo set_promptTitle set_promptBody set_promptNotes
     set_promptFolder set_promptLockSwitch_checked
     set_promptLockSwitch_disabled set_promptDetails_shown set_PROMPTS
     set_FOLDERS set_answers set_dialogs set_draws set_clipboard
     Prompt.set_title Prompt.set_body Prompt.set_notes Prompt.set_folderId
     Prompt.set_tags Prompt.set_isLocked Prompt.set_passwordCheck
     Prompt.set_dateModified Folder.set_isLocked Folder.set_passwordCheck];
  cbn [world chrome globalTags folderToDeleteId TAGS search newFolderName
       renameFolderInput newTagName confirmations
       state ui db env prompts folders view currentPromptId isCreatingNew
       currentTags isSelectMode selectedPromptIds folderToEditId
       sessionPasswords decryptedCache newPromptLockInfo promptTitle
       promptBody promptNotes promptFolder promptLockSwitch_checked
       promptLockSwitch_disabled moveFolderSelect movePasswordInput
       promptDetails_shown PROMPTS FOLDERS answers dialogs draws now
       clipboard fst snd negb andb orb Prompt.id Prompt.title Prompt.body
       Prompt.notes Prompt.folderId Prompt.tags Prompt.isFavorite
       Prompt.isLocked Prompt.passwordCheck Prompt.dateCreated
       Prompt.dateModified Folder.id Folder.name Folder.isLocked
       Folder.passwordCheck].

Section PageFacts.
Context {P : Platform}.

Lemma in_world_run {A} (m : M A) (p : Page) :
  in_world m p = ((m (world p)).1, mkPage (m (world p)).2 (chrome p)).
Proof. unfold in_world. by destruct (m (world p)). Qed.

(** [updateUI] returns; it leaves the rest of the page, the prompts, the
    folders, the store and the selection as they are, and switches the
    view to the search results exactly when the search box is not blank. *)
Lemma updateUI_run (p : Page) :
  ∃ w',
    updateUI p = (Normal tt, mkPage w' (chrome p))
    ∧ same_vault (world p) w'
    ∧ isSelectMode (state w') = isSelectMode (state (world p))
    ∧ selectedPromptIds (state w') = selectedPromptIds (state (world p))
    ∧ folderToEditId (state w') = folderToEditId (state (world p))
    ∧ view (state w') =
        if is_blank (search (chrome p)) then view (state (world p))
        else ViewSearch.
Proof.
  unfold updateUI. runp.
  destruct (truthy_str (trim (search (chrome p)))) eqn:Hq.
  - assert (is_blank (search (chrome p)) = false) as ->.
    { apply not_true_is_false. intros Hb. apply trim_blank in Hb.
      apply truthy_str_true in Hq. done. }
    runp. unfold detached.
    set (w1 := mkWorld _ _ _ _).
    destruct (renderPromptDetails_same_listing
                (isCreatingNew (state (world p))
                 || truthy_id (currentPromptId (state (world p)))) None w1)
      as ((H1 & H2 & H3) & H4 & H5 & H6 & H7).
    eexists. split; [reflexivity|]. simpl. by repeat split.
  - assert (is_blank (search (chrome p)) = true) as ->.
    { apply trim_blank. by apply truthy_str_false. }
    runp. unfold detached.
    destruct (renderPromptDetails_same_listing
                (isCreatingNew (state (world p))
                 || truthy_id (currentPromptId (state (world p)))) None
                (world p))
      as ((H1 & H2 & H3) & H4 & H5 & H6 & H7).
    eexists. split; [reflexivity|]. simpl. by repeat split.
Qed.

End PageFacts.


(** ** Dropping a prompt on a folder *)

Section Drop.
Context {P : Platform}.

Lemma MP_bind_run {A B} (m : MP A) (k : A → MP B) (p p' : Page) (a : A) :
  m p = (Normal a, p') → (m ≫= k) p = k a p'.
Proof. intros H. unfold mbind, MP_bind. by rewrite H. Qed.

End Drop.

(** X14. Dropping a prompt on "Favorites" or "Locked" does nothing.
    Dropping it on "All Prompts" or on a folder changes its folder and its
    date of modification only, in the array and in the store: the body is
    not encrypted, also when the folder is locked, in which case the
    prompt is from then on shown as locked. *)
Theorem drop_changes_folder_only (P : Platform) (p : Page)
    (targetId : FolderView) (promptId : Z) (pi : nat) (q : Prompt.t) :
  find_prompt (prompts (state (world p))) (Some promptId) = Some (pi, q) →
  let r := handleDrop (Some targetId) promptId p in
  let w := world p in
  let w' := world r.2 in
  r.1 = Normal tt
  ∧ match targetId with
    | ViewFavorites | ViewLocked => r.2 = p
    | ViewAll | ViewFolderId _ =>
        let folderId :=
          match targetId with ViewFolderId id => Some id | _ => None end in
        let q' :=
          Prompt.mk (Prompt.id q) (Prompt.title q) (Prompt.body q)
            (Prompt.notes q) folderId (Prompt.tags q) (Prompt.isFavorite q)
            (Prompt.isLocked q) (Prompt.passwordCheck q)
            (Prompt.dateCreated q) (now (env w)) in
        prompts (state w') = <[pi := q']> (prompts (state w))
        ∧ PROMPTS (db w') = <[promptId := q']> (PROMPTS (db w))
        ∧ folders (state w') = folders (state w)
        ∧ FOLDERS (db w') = FOLDERS (db w)
        ∧ chrome r.2 = chrome p
        ∧ (∀ fi f, find_folder (folders (state w)) folderId = Some (fi, f) →
             Folder.isLocked f = true →
             shown_as_locked (state w') q' = true
             ∧ Prompt.body q' = Prompt.body q)
    end.
Proof.
  intros Hfind r w w'. subst r w'.
  destruct (find_prompt_lookup _ _ _ _ Hfind) as [Hi [= Hid]].
  assert (pi < length (prompts (state (world p))))%nat as Hlt
    by by eapply lookup_lt_Some.
  assert (∀ folderId,
    let q' :=
      Prompt.mk (Prompt.id q) (Prompt.title q) (Prompt.body q)
        (Prompt.notes q) folderId (Prompt.tags q) (Prompt.isFavorite q)
        (Prompt.isLocked q) (Prompt.passwordCheck q)
        (Prompt.dateCreated q) (now (env w)) in
    let p1 :=
      mkPage
        (with_db (λ d, set_PROMPTS (<[promptId := q']> (PROMPTS d)) d)
           (with_state (set_prompts (<[pi := q']> (prompts (state w)))) w))
        (chrome p) in
    (ps ← in_world (gets (λ w, prompts (state w)));
     match find_prompt ps (Some promptId) with
     | Some (pi, _) =>
         in_world (update_prompt pi (Prompt.set_folderId folderId));;
         now ← in_world (gets (λ w, now (env w)));
         in_world (update_prompt pi (Prompt.set_dateModified now));;
         o ← in_world (read_prompt pi);
         in_world (DB.put_prompt o);;
         updateUI
     | None => mret tt
     end) p = updateUI p1) as Hrun.
  { intros folderId q' p1. subst w. runp. rewrite Hfind. runp.
    rewrite list_alter_alter_eq, (alter_at _ _ _ _ Hi).
    rewrite list_lookup_insert_eq by done. runp.
    subst p1 q'. rewrite Hid. reflexivity. }
  destruct targetId as [| | |fid]; [|done..|].
  - unfold handleDrop. rewrite Hrun.
    set (p1 := mkPage _ _).
    destruct (updateUI_run p1) as (w' & -> & (H1 & H2 & H3) & _).
    split; [done|]. simpl. rewrite H1, H2, H3.
    do 5 (split; [done|]). by intros fi f.
  - unfold handleDrop. rewrite Hrun.
    set (p1 := mkPage _ _).
    destruct (updateUI_run p1) as (w' & -> & (H1 & H2 & H3) & _).
    split; [done|]. simpl. rewrite H1, H2, H3.
    do 5 (split; [done|]). intros fi f Hf Hl. split; [|done].
    unfold shown_as_locked. simpl. rewrite H2. simpl.
    fold w. rewrite Hf. simpl. by rewrite Hl, orb_true_r.
Qed.

Lemma drop_changes_folder_only_witness :
  let p :=
    mkPage
      (mkWorld
         (set_folders [Scenario.F_locked; Scenario.D]
            (set_prompts [Scenario.P2_locked; Scenario.P3]
               Scenario.empty_state))
         Scenario.empty_ui (mkStore ∅ ∅) Scenario.empty_env)
      (mkChrome [] None ∅ EmptyString EmptyString EmptyString EmptyString
         []) in
  let r := handleDrop (P := Reference.platform) (Some (ViewFolderId 1)) 3 p in
  r.1 = Normal tt
  ∧ (Prompt.folderId <$> prompts (state (world r.2))) = [Some 1; Some 1]
  ∧ (Prompt.body <$> prompts (state (world r.2)) !! 1%nat)
    = Some (VStr "plain")
  ∧ (shown_as_locked (state (world r.2))
       <$> prompts (state (world r.2)) !! 1%nat) = Some true.
Proof.
  intros p r. subst r.
  destruct (drop_changes_folder_only Reference.platform p (ViewFolderId 1) 3
              1%nat Scenario.P3)
    as (Hr & Hps & _); [reflexivity|].
  split; [exact Hr|]. rewrite Hps.
  split; [reflexivity|]. split; reflexivity.
Defined.

(** ** Deleting a folder *)

Section DeleteFolder.
Context {P : Platform}.

Lemma bulkRemove_run (keys : list Z) (w : World) :
  DB_bulkRemove_prompts keys w =
    (Normal tt,
     with_db (λ d, set_PROMPTS (foldl (λ m k, delete k m) (PROMPTS d) keys) d)
       w).
Proof.
  unfold DB_bulkRemove_prompts. revert w.
  induction keys as [|k keys IH]; intros w.
  - by destruct w as [? ? [] ?].
  - rewrite for_of_cons. unfold DB_remove_prompt at 1. run. rewrite IH. done.
Qed.

Lemma foldl_delete_lookup {A} (keys : list Z) (m : gmap Z A) (k : Z) :
  foldl (λ m k, delete k m) m keys !! k =
    if decide (k ∈ keys) then None else m !! k.
Proof.
  revert m. induction keys as [|k' keys IH]; intros m; cbn [foldl].
  - case_decide as H; [by apply elem_of_nil in H|done].
  - rewrite IH.
    destruct (decide (k ∈ keys)) as [Hin|Hin],
      (decide (k ∈ k' :: keys)) as [Hin'|Hin']; try done.
    + exfalso. apply Hin'. apply elem_of_cons. by right.
    + apply elem_of_cons in Hin' as [->|?]; [|done].
      apply lookup_delete_eq.
    + apply lookup_delete_ne. intros ->. apply Hin'. apply elem_of_cons.
      by left.
Qed.

Lemma close_run (w : World) :
  _internalCloseDetailsView w =
    (Normal tt,
     with_ui (set_promptDetails_shown false)
       (with_state (λ s,
          set_decryptedCache ∅
            (set_newPromptLockInfo None
               (set_currentPromptId None (set_isCreatingNew false s)))) w)).
Proof. unfold _internalCloseDetailsView. by run. Qed.

End DeleteFolder.

(** X15. Deleting a folder with its prompts removes the prompts of that
    folder and the folder from the arrays and from the store, and nothing
    else from them; when the prompt that was open is gone the details view
    is closed and the cache of decrypted texts emptied. *)
Theorem delete_folder_and_prompts (P : Platform) (p : Page) (fid : Z) :
  folderToDeleteId (chrome p) = Some fid →
  let r := handleDeleteFolderAndPrompts p in
  let w := world p in
  let w' := world r.2 in
  let deleted :=
    Prompt.id <$> filter (λ q, Prompt.folderId q = Some fid)
                    (prompts (state w)) in
  r.1 = Normal tt
  ∧ prompts (state w')
    = filter (λ q, Prompt.folderId q ≠ Some fid) (prompts (state w))
  ∧ folders (state w') = filter (λ f, Folder.id f ≠ fid) (folders (state w))
  ∧ (∀ k, PROMPTS (db w') !! k =
          if decide (k ∈ deleted) then None else PROMPTS (db w) !! k)
  ∧ FOLDERS (db w') = delete fid (FOLDERS (db w))
  ∧ folderToDeleteId (chrome r.2) = None
  ∧ (∀ c, currentPromptId (state w) = Some c → c ≠ 0 →
          find_prompt (prompts (state w')) (Some c) = None →
          currentPromptId (state w') = None
          ∧ promptDetails_shown (ui w') = false
          ∧ decryptedCache (state w') = ∅).
Proof.
  intros Hdel r w w' deleted. subst r w'.
  unfold handleDeleteFolderAndPrompts.
  rewrite (MP_bind_run _ _ p p (Some fid)) by (unfold getsP; by rewrite Hdel).
  set (closing :=
    truthy_id (currentPromptId (state w))
    && negb (bool_decide (is_Some
         (find_prompt
            (filter (λ q, Prompt.folderId q ≠ Some fid) (prompts (state w)))
            (currentPromptId (state w)))))).
  set (w1 :=
    with_state (λ s,
      (if closing then set_currentPromptId None else id)
        ((if bool_decide (view s = ViewFolder (ViewFolderId fid))
          then set_view (ViewFolder ViewAll) else id)
           (set_folders (filter (λ f, Folder.id f ≠ fid) (folders s))
              (set_prompts
                 (filter (λ q, Prompt.folderId q ≠ Some fid) (prompts s))
                 s))))
      (with_db (λ d,
         set_FOLDERS (delete fid (FOLDERS d))
           (set_PROMPTS (foldl (λ m k, delete k m) (PROMPTS d) deleted) d))
         w)).
  assert (deleteFolderAndPrompts fid w = (Normal closing, w1)) as Hrun.
  { unfold deleteFolderAndPrompts. run. rewrite bulkRemove_run.
    unfold DB_remove_folder. subst w1 closing. run.
    destruct (bool_decide (view (state w) = _)); run;
      destruct (truthy_id _ && _); by run. }
  rewrite (MP_bind_run _ _ p (mkPage w1 (chrome p)) closing)
    by (rewrite in_world_run; fold w; by rewrite Hrun).
  set (p1 := with_chrome (set_folderToDeleteId None) (mkPage w1 (chrome p))).
  rewrite (MP_bind_run _ _ _ p1 tt) by reflexivity.
  destruct (updateUI_run p1) as (w2 & Hu & (H1 & H2 & H3) & _).
  rewrite (MP_bind_run _ _ _ _ tt Hu).
  change (prompts (state w2) = prompts (state w1)) in H1.
  change (folders (state w2) = folders (state w1)) in H2.
  change (db w2 = db w1) in H3.
  assert (prompts (state w1)
          = filter (λ q, Prompt.folderId q ≠ Some fid) (prompts (state w)))
    as Hps.
  { subst w1. simpl. destruct closing;
      destruct (bool_decide (view (state w) = _)); done. }
  assert (folders (state w1)
          = filter (λ f, Folder.id f ≠ fid) (folders (state w))) as Hfs.
  { subst w1. simpl. destruct closing;
      destruct (bool_decide (view (state w) = _)); done. }
  assert (∀ c, currentPromptId (state w) = Some c → c ≠ 0 →
    find_prompt
      (filter (λ q, Prompt.folderId q ≠ Some fid) (prompts (state w)))
      (Some c) = None → closing = true) as Hcl.
  { intros c Hc Hc0 Hnone. unfold closing. rewrite Hc, Hnone.
    cbn [truthy_id]. rewrite bool_decide_eq_false_2 by done.
    by rewrite bool_decide_eq_false_2 by by intros [? ?]. }
  clearbody closing. destruct closing.
  - rewrite in_world_run. cbn [world]. rewrite close_run.
    cbn [fst snd world chrome]. unfold with_ui, with_state.
    cbn [state ui db]. 
    cbn [set_promptDetails_shown set_decryptedCache set_newPromptLockInfo
         set_currentPromptId set_isCreatingNew prompts folders
         currentPromptId decryptedCache promptDetails_shown p1 with_chrome
         chrome set_folderToDeleteId folderToDeleteId].
    rewrite H1, H2, H3, Hps, Hfs. simpl.
    split; [done|]. split; [done|]. split; [done|].
    split; [intros k; apply foldl_delete_lookup|].
    split; [done|]. split; [done|]. done.
  - unfold mret, MP_ret. cbn [fst snd world chrome].
    rewrite H1, H2, H3, Hps, Hfs. simpl.
    split; [done|]. split; [done|]. split; [done|].
    split; [intros k; apply foldl_delete_lookup|].
    split; [done|]. split; [done|].
    intros c Hc Hc0 Hnone. by specialize (Hcl c Hc Hc0 Hnone).
Qed.

Lemma delete_folder_and_prompts_witness :
  let p :=
    mkPage
      (mkWorld
         (set_currentPromptId (Some 2)
            (set_folders [Scenario.F; Scenario.D]
               (set_prompts [Scenario.P2; Scenario.P3]
                  Scenario.empty_state)))
         Scenario.empty_ui
         (mkStore {[2 := Scenario.P2; 3 := Scenario.P3]}
            {[1 := Scenario.F; 5 := Scenario.D]})
         Scenario.empty_env)
      (mkChrome [] (Some 1) ∅ EmptyString EmptyString EmptyString EmptyString
         []) in
  let r := handleDeleteFolderAndPrompts (P := Reference.platform) p in
  r.1 = Normal tt
  ∧ prompts (state (world r.2)) = [Scenario.P3]
  ∧ folders (state (world r.2)) = [Scenario.D]
  ∧ PROMPTS (db (world r.2)) !! 2 = None
  ∧ PROMPTS (db (world r.2)) !! 3 = Some Scenario.P3
  ∧ currentPromptId (state (world r.2)) = None.
Proof.
  intros p r. subst r.
  destruct (delete_folder_and_prompts Reference.platform p 1)
    as (Hr & Hps & Hfs & Hdb & _ & _ & Hclose); [reflexivity|].
  split; [exact Hr|]. split; [by rewrite Hps|]. split; [by rewrite Hfs|].
  split; [by rewrite Hdb|]. split; [by rewrite Hdb|].
  destruct (Hclose 2) as [Hc _]; [reflexivity|done|by rewrite Hps|exact Hc].
Defined.

Section DeleteFolderMove.
Context {P : Platform}.

Lemma bulkPut_refs (refs : list nat) (w : World) :
  Forall (λ i, is_Some (prompts (state w) !! i)) refs →
  DB.bulkPut_prompts refs w =
    (Normal tt,
     with_db (λ d, set_PROMPTS
                (put_refs (prompts (state w)) refs (PROMPTS d)) d) w).
Proof.
  unfold DB.bulkPut_prompts, put_refs. revert w.
  induction refs as [|i refs IH]; intros w Hall.
  - by destruct w as [? ? [] ?].
  - inversion Hall as [|? ? [q Hq] Hrest]; subst.
    rewrite for_of_cons. run. rewrite Hq. run.
    rewrite IH by done. simpl. by rewrite Hq.
Qed.

Lemma filter_from_spec {A} (pred : A → bool) (l : list A) (k i : nat) :
  i ∈ filter_from pred l k ↔
  (k ≤ i)%nat ∧ ∃ a, l !! (i - k)%nat = Some a ∧ pred a = true.
Proof.
  revert k. induction l as [|a l IH]; intros k; simpl.
  - split; [by intros ?%elem_of_nil|]. by intros [_ (? & ? & _)].
  - assert (i ∈ filter_from pred l (S k) ↔
            (k < i)%nat ∧ ∃ b, l !! (i - S k)%nat = Some b ∧ pred b = true)
      as IH' by (rewrite IH; done).
    assert (∀ b, (k < i)%nat →
      (a :: l) !! (i - k)%nat = Some b ↔ l !! (i - S k)%nat = Some b) as Hs.
    { intros b Hlt. replace (i - k)%nat with (S (i - S k)) by lia. done. }
    destruct (pred a) eqn:Ha.
    + rewrite elem_of_cons, IH'. split.
      * intros [->|[Hlt (b & Hb & Hpb)]].
        -- split; [lia|]. exists a. by rewrite Nat.sub_diag.
        -- split; [lia|]. exists b. by rewrite Hs.
      * intros [Hle (b & Hb & Hpb)].
        destruct (decide (i = k)) as [->|Hne]; [by left|right].
        split; [lia|]. exists b. rewrite <- Hs by lia. done.
    + rewrite IH'. split.
      * intros [Hlt (b & Hb & Hpb)]. split; [lia|]. exists b. by rewrite Hs.
      * intros [Hle (b & Hb & Hpb)].
        destruct (decide (i = k)) as [->|Hne].
        { rewrite Nat.sub_diag in Hb. simpl in Hb. congruence. }
        split; [lia|]. exists b. rewrite <- Hs by lia. done.
Qed.

Lemma filter_refs_spec {A} (pred : A → bool) (l : list A) (i : nat) :
  i ∈ filter_refs pred l ↔ ∃ a, l !! i = Some a ∧ pred a = true.
Proof.
  unfold filter_refs. rewrite filter_from_spec, Nat.sub_0_r.
  split; [by intros [_ ?]|]. intros ?. split; [lia|done].
Qed.

(** A key that no prompt written has is left as it was. *)
Lemma put_refs_other (l : list Prompt.t) (refs : list nat)
    (m : gmap Z Prompt.t) (k : Z) :
  (∀ i q, i ∈ refs → l !! i = Some q → Prompt.id q ≠ k) →
  put_refs l refs m !! k = m !! k.
Proof.
  unfold put_refs. revert m.
  induction refs as [|i refs IH]; intros m Hk; simpl; [done|].
  rewrite IH.
  - destruct (l !! i) as [q|] eqn:Hq; [|done].
    apply lookup_insert_ne. eapply Hk; [|done]. apply elem_of_cons. by left.
  - intros j q Hj. apply Hk. apply elem_of_cons. by right.
Qed.

(** When the ids are distinct, a prompt written is in the store. *)
Lemma put_refs_written (l : list Prompt.t) (refs : list nat)
    (m : gmap Z Prompt.t) (i : nat) (q : Prompt.t) :
  NoDup (Prompt.id <$> l) →
  i ∈ refs → l !! i = Some q →
  put_refs l refs m !! Prompt.id q = Some q.
Proof.
  intros Hnd. unfold put_refs. revert m.
  induction refs as [|j refs IH]; intros m Hi Hq; simpl.
  - by apply elem_of_nil in Hi.
  - destruct (decide (i ∈ refs)) as [Hin|Hin]; [by apply IH|].
    apply elem_of_cons in Hi as [->|?]; [|done].
    rewrite Hq.
    change (put_refs l refs (<[Prompt.id q := q]> m) !! Prompt.id q = Some q).
    rewrite put_refs_other; [apply lookup_insert_eq|].
    intros j' q' Hj' Hq' Hid.
    assert (j' = j); [|by subst].
    eapply NoDup_lookup; [exact Hnd| |].
    + rewrite list_lookup_fmap, Hq'. simpl. by rewrite Hid.
    + by rewrite list_lookup_fmap, Hq.
Qed.

Lemma unfile_local :
  local_body (λ p, update_prompt p (Prompt.set_folderId None)) unfile_step.
Proof.
  intros i p w Hp. unfold unfile_step. run. by rewrite (alter_at _ _ _ _ Hp).
Qed.

Lemma unfile_frame : frame_step unfile_step.
Proof. done. Qed.

Lemma run_unfile (pred : Prompt.t → bool) (l : list Prompt.t) (w : World) :
  run_steps pred unfile_step l w =
    (Normal tt,
     (λ q, if pred q then Prompt.set_folderId None q else q) <$> l, w).
Proof.
  induction l as [|p l IH]; simpl; [done|].
  destruct (pred p); simpl; by rewrite IH.
Qed.

Lemma filter_refs_valid {A} (pred : A → bool) (l l' : list A) :
  length l' = length l →
  Forall (λ i, is_Some (l' !! i)) (filter_refs pred l).
Proof.
  intros Hlen. apply Forall_forall. intros i Hi.
  apply filter_refs_spec in Hi as (a & Ha & _).
  apply lookup_lt_is_Some. rewrite Hlen. by eapply lookup_lt_Some.
Qed.

(** The part of [deleteFolderMove] after the prompts are decrypted,
    from the world [w] in which the array of prompts is [l]; [l0] is the
    array at the start, from which [promptsToUpdate] was computed. *)
Lemma unfile_and_delete (fid : Z) (l0 : list Prompt.t) (w : World) :
  Forall2 (λ q0 q, in_folder fid q0 = in_folder fid q) l0 (prompts (state w)) →
  let refs := filter_refs (in_folder fid) l0 in
  let l' :=
    (λ q, if in_folder fid q then Prompt.set_folderId None q else q)
      <$> prompts (state w) in
  (for_of refs (λ p, update_prompt p (Prompt.set_folderId None));;
   DB.bulkPut_prompts refs;;
   DB_remove_folder fid;;
   modify (with_state (λ s,
     set_folders (filter (λ f, Folder.id f ≠ fid) (folders s)) s));;
   modify (with_state (λ s,
     if bool_decide (view s = ViewFolder (ViewFolderId fid))
     then set_view (ViewFolder ViewAll) s else s));;
   mret true) w =
  (Normal true,
   mkWorld
     ((if bool_decide (view (state w) = ViewFolder (ViewFolderId fid))
       then set_view (ViewFolder ViewAll) else id)
        (set_folders (filter (λ f, Folder.id f ≠ fid) (folders (state w)))
           (set_prompts l' (state w))))
     (ui w)
     (mkStore (put_refs l' refs (PROMPTS (db w)))
        (delete fid (FOLDERS (db w))))
     (env w)).
Proof.
  intros Hsame refs l'.
  assert (refs = filter_refs (in_folder fid) (prompts (state w))) as Hrefs.
  { unfold refs. by apply filter_from_ext. }
  unfold mbind at 1, M_bind at 1.
  rewrite Hrefs at 1.
  rewrite (for_of_local (in_folder fid) _ unfile_step w unfile_local
             unfile_frame).
  rewrite run_unfile. fold l'.
  unfold mbind at 1, M_bind at 1.
  rewrite bulkPut_refs.
  2:{ apply (filter_refs_valid _ l0).
      simpl. unfold l'. rewrite length_fmap. symmetry.
      by eapply Forall2_length. }
  unfold DB_remove_folder. run.
  destruct (bool_decide (view (state w) = _)); by run.
Qed.

End DeleteFolderMove.

Section DeleteFolderMoveRun.
Context {P : Platform}.

Lemma moved_to_root_id (locked : bool) (pw : string) (fid : Z)
    (q q' : Prompt.t) :
  moved_to_root locked pw fid q q' → Prompt.id q' = Prompt.id q.
Proof.
  unfold moved_to_root. destruct (in_folder fid q).
  - by intros (b & n & _ & ->).
  - by intros ->.
Qed.

Lemma M_bind_run {A B} (m : M A) (k : A → M B) (w w' : World) (a : A) :
  m w = (Normal a, w') → (m ≫= k) w = k a w'.
Proof. intros H. unfold mbind, M_bind. by rewrite H. Qed.

Lemma deleteFolderMove_run (w : World) (fid : Z) (fi : nat) (f : Folder.t)
    (pw : string) (r : bool) (rest : list Answer) :
  find_folder (folders (state w)) (Some fid) = Some (fi, f) →
  (Folder.isLocked f = true →
   answers (env w) = Submit pw r :: rest
   ∧ truthy_str pw = true
   ∧ CryptoService.decrypt (Folder.passwordCheck f) pw
     = Normal (VStr (String_ fid))
   ∧ Forall (λ q, in_folder fid q = true →
                  Prompt.body q ≠ VNull ∧ Prompt.notes q ≠ VNull)
       (prompts (state w))) →
  ∃ l' e',
    Forall2 (moved_to_root (Folder.isLocked f) pw fid) (prompts (state w)) l'
    ∧ deleteFolderMove fid w =
        (Normal true,
         mkWorld
           ((if bool_decide (view (state w) = ViewFolder (ViewFolderId fid))
             then set_view (ViewFolder ViewAll) else id)
              (set_folders
                 (filter (λ f, Folder.id f ≠ fid) (folders (state w)))
                 (set_prompts l' (state w))))
           (ui w)
           (mkStore
              (put_refs l' (filter_refs (in_folder fid) (prompts (state w)))
                 (PROMPTS (db w)))
              (delete fid (FOLDERS (db w))))
           e').
Proof.
  intros Hfind Hlocked.
  destruct (find_folder_lookup _ _ _ _ Hfind) as [Hfi [= Hid]].
  unfold deleteFolderMove.
  unfold mbind at 1, M_bind at 1, gets at 1.
  unfold mbind at 1, M_bind at 1, gets at 1.
  rewrite Hfind.
  destruct (Folder.isLocked f) eqn:Hl.
  - destruct (Hlocked eq_refl) as (Hans & Hpw & Hcheck & Hnull).
    destruct (run_unlock pw fid (prompts (state w))
                (with_env (λ e, set_answers rest
                   (set_dialogs
                      (PasswordPrompt
                         ("Enter password for " +:+
                          ModalService.quoted (Folder.name f) +:+
                          " to decrypt prompts before moving.")
                       :: dialogs e) e)) w) Hnull)
      as (l1 & Hrun & Hl1).
    set (w0 := with_env _ w) in Hrun.
    assert (Forall2 (λ q0 q, in_folder fid q0 = in_folder fid q)
              (prompts (state w)) l1) as Hsame.
    { eapply Forall2_impl; [exact Hl1|]. intros q q'.
      apply unlocked_from_in_folder. }
    pose proof (unfile_and_delete fid (prompts (state w))
                  (with_prompts l1 w0) Hsame) as Hrest.
    cbv zeta in Hrest.
    eexists _, _. split; [|].
    2:{ rewrite (M_bind_run _ _ w (with_prompts l1 w0) true).
        - etrans; [exact Hrest|]. reflexivity.
        - unfold ModalService.password, ModalService.next_answer. run.
          rewrite Hans. run. rewrite Hpw. run. rewrite Hcheck. run.
          unfold check_fails. rewrite <- Hid.
          rewrite bool_decide_eq_true_2 by done. run.
          change (mkWorld (state w) (ui w) (db w) _) with w0.
          change (prompts (state w)) with (prompts (state w0)).
          rewrite (for_of_local (in_folder fid) (decrypt_fields pw)
                     (unlock_step pw) w0 (decrypt_fields_local pw)
                     (unlock_step_frame pw)).
          change (prompts (state w0)) with (prompts (state w)).
          by rewrite Hrun. }
    simpl. clear -Hl1. induction Hl1 as [|q q1 l l1 Hq _ IH]; simpl;
      constructor; [|done].
    unfold unlocked_from in Hq. unfold moved_to_root.
    destruct (in_folder fid q) eqn:Hin.
    + destruct Hq as (b & n & Hb & Hn & ->).
      assert (in_folder fid (Prompt.set_notes n (Prompt.set_body b q)) = true)
        as -> by done.
      by exists b, n.
    + subst. by rewrite Hin.
  - pose proof (unfile_and_delete fid (prompts (state w)) w) as Hrest.
    cbv zeta in Hrest.
    eexists _, _. split; [|].
    2:{ rewrite (M_bind_run _ _ w w true) by done.
        etrans; [apply Hrest|].
        - by apply Forall_Forall2_diag, Forall_true.
        - reflexivity. }
    apply Forall2_fmap_r, Forall_Forall2_diag, Forall_forall.
    intros q _. unfold compose, moved_to_root.
    destruct (in_folder fid q); [|done].
    exists (Prompt.body q), (Prompt.notes q). split; [done|]. by destruct q.
Qed.

End DeleteFolderMoveRun.

(** X16. Deleting a folder and keeping its prompts: when the folder is
    unlocked, or locked and the password typed passes its check, every
    prompt of the folder gets no folder, with its body and notes decrypted
    when the folder was locked, and is put in the store; the other prompts
    are untouched and the folder is removed from the array and from the
    store. *)
Theorem delete_folder_keeps_prompts (P : Platform) (p : Page) (fid : Z)
    (fi : nat) (f : Folder.t) (pw : string) (r : bool) (rest : list Answer) :
  let w := world p in
  folderToDeleteId (chrome p) = Some fid →
  find_folder (folders (state w)) (Some fid) = Some (fi, f) →
  (Folder.isLocked f = true →
   answers (env w) = Submit pw r :: rest
   ∧ pw ≠ EmptyString
   ∧ CryptoService.decrypt (Folder.passwordCheck f) pw
     = Normal (VStr (String_ fid))
   ∧ Forall (λ q, in_folder fid q = true →
                  Prompt.body q ≠ VNull ∧ Prompt.notes q ≠ VNull)
       (prompts (state w))) →
  let res := handleDeleteFolderMove p in
  let w' := world res.2 in
  res.1 = Normal tt
  ∧ Forall2 (moved_to_root (Folder.isLocked f) pw fid)
      (prompts (state w)) (prompts (state w'))
  ∧ folders (state w') = filter (λ f, Folder.id f ≠ fid) (folders (state w))
  ∧ FOLDERS (db w') = delete fid (FOLDERS (db w))
  ∧ folderToDeleteId (chrome res.2) = None
  ∧ (∀ k, (∀ q, q ∈ prompts (state w) → in_folder fid q = true →
                Prompt.id q ≠ k) →
          PROMPTS (db w') !! k = PROMPTS (db w) !! k)
  ∧ (NoDup (Prompt.id <$> prompts (state w)) →
     ∀ i q q', prompts (state w) !! i = Some q → in_folder fid q = true →
       prompts (state w') !! i = Some q' →
       PROMPTS (db w') !! Prompt.id q = Some q').
Proof.
  intros w Hdel Hfind Hlocked res w'. subst res w'.
  destruct (deleteFolderMove_run w fid fi f pw r rest Hfind)
    as (l' & e' & Hl' & Hrun).
  { intros Hl. destruct (Hlocked Hl) as (? & ? & ? & ?).
    repeat split; try done. by apply truthy_str_true. }
  unfold handleDeleteFolderMove.
  rewrite (MP_bind_run _ _ p p (Some fid)) by (unfold getsP; by rewrite Hdel).
  set (w1 := mkWorld _ _ _ _) in Hrun.
  rewrite (MP_bind_run _ _ p (mkPage w1 (chrome p)) true)
    by (rewrite in_world_run; fold w; by rewrite Hrun).
  set (p1 := with_chrome (set_folderToDeleteId None) (mkPage w1 (chrome p))).
  rewrite (MP_bind_run _ _ _ p1 tt) by reflexivity.
  destruct (updateUI_run p1) as (w2 & -> & (H1 & H2 & H3) & _).
  cbn [fst snd world chrome].
  assert (prompts (state (world p1)) = l') as Hps.
  { subst p1. simpl. by destruct (bool_decide _). }
  assert (folders (state (world p1))
          = filter (λ f, Folder.id f ≠ fid) (folders (state w))) as Hfs.
  { subst p1. simpl. by destruct (bool_decide _). }
  rewrite H1, H2, H3, Hps, Hfs.
  assert (Forall2 (λ q q', Prompt.id q' = Prompt.id q) (prompts (state w)) l')
    as Hids.
  { eapply Forall2_impl; [exact Hl'|]. intros q q'. apply moved_to_root_id. }
  split; [done|]. split; [done|]. split; [done|]. split; [done|].
  split; [done|]. split.
  - intros k Hk. simpl. apply put_refs_other.
    intros i q' Hi Hq'. apply filter_refs_spec in Hi as (q & Hq & Hin).
    rewrite (Forall2_lookup_lr _ _ _ _ _ _ Hids Hq Hq').
    apply Hk; [|done]. by eapply list_elem_of_lookup_2.
  - intros Hnd i q q' Hq Hin Hq'. simpl.
    rewrite <- (Forall2_lookup_lr _ _ _ _ _ _ Hids Hq Hq').
    apply (put_refs_written _ _ _ i); [| |done].
    + assert (Prompt.id <$> l' = Prompt.id <$> prompts (state w)) as ->;
        [|done].
      clear -Hids. induction Hids; simpl; [done|]. by f_equal.
    + apply filter_refs_spec. by exists q.
Qed.

Lemma delete_folder_keeps_prompts_witness :
  let p :=
    mkPage
      (mkWorld
         (set_folders [Scenario.F_locked]
            (set_prompts [Scenario.P2_locked; Scenario.P3]
               Scenario.empty_state))
         Scenario.empty_ui (mkStore ∅ ∅)
         (set_answers [Submit "pw1" false] Scenario.empty_env))
      (mkChrome [] (Some 1) ∅ EmptyString EmptyString EmptyString EmptyString
         []) in
  let res := handleDeleteFolderMove (P := Reference.platform) p in
  res.1 = Normal tt
  ∧ folders (state (world res.2)) = []
  ∧ (Prompt.body <$> prompts (state (world res.2)) !! 0%nat)
    = Some (VStr "secret")
  ∧ (Prompt.folderId <$> prompts (state (world res.2)) !! 0%nat) = Some None.
Proof.
  intros p res.
  destruct (delete_folder_keeps_prompts Reference.platform p 1 0%nat
              Scenario.F_locked "pw1" false [])
    as (Hres & Hps & Hfs & _);
    [reflexivity|reflexivity| |].
  { intros _. split; [reflexivity|]. split; [done|].
    split; [vm_compute; reflexivity|].
    repeat (constructor; [intros _; split; vm_compute; discriminate|]).
    constructor. }
  split; [exact Hres|]. split; [exact Hfs|].
  split; vm_compute; reflexivity.
Defined.

(** X17. Deleting a locked folder and keeping its prompts is refused
    when the dialog is cancelled, left empty, or answered with a password
    that fails the check of the folder: the state, the form, the store and
    the folder awaiting deletion are unchanged.  When the folder awaiting
    deletion is not in the array the handler throws. *)
Theorem delete_folder_move_rejected (P : Platform) (p : Page) (fid : Z) :
  let w := world p in
  folderToDeleteId (chrome p) = Some fid →
  match find_folder (folders (state w)) (Some fid) with
  | None => True
  | Some (_, f) =>
      Folder.isLocked f = true
      ∧ match next_reply (answers (env w)) with
        | Some pw =>
            pw = EmptyString
            ∨ CryptoService.decrypt (Folder.passwordCheck f) pw
              ≠ Normal (VStr (String_ fid))
        | None => True
        end
  end →
  let res := handleDeleteFolderMove p in
  state (world res.2) = state w
  ∧ ui (world res.2) = ui w
  ∧ db (world res.2) = db w
  ∧ chrome res.2 = chrome p
  ∧ (find_folder (folders (state w)) (Some fid) = None →
     res = (Throw, p)).
Proof.
  intros w Hdel Hcase res. subst res.
  unfold handleDeleteFolderMove.
  rewrite (MP_bind_run _ _ p p (Some fid)) by (unfold getsP; by rewrite Hdel).
  assert (∃ c w1,
    deleteFolderMove fid w = (c, w1)
    ∧ state w1 = state w ∧ ui w1 = ui w ∧ db w1 = db w
    ∧ c ≠ Normal true
    ∧ (find_folder (folders (state w)) (Some fid) = None →
       c = Throw ∧ w1 = w))
    as (c & w1 & Hrun & Hs & Hu & Hd & Hc & Hnone).
  { unfold deleteFolderMove. run.
    destruct (find_folder _ _) as [[fi f]|] eqn:Hfind; run.
    2:{ eexists _, _. by repeat split. }
    destruct (find_folder_lookup _ _ _ _ Hfind) as [Hfi [= Hid]].
    destruct Hcase as [Hl Hreply]. rewrite Hl.
    unfold ModalService.password, ModalService.next_answer. run.
    destruct (answers (env w)) as [|[|pw r] rest] eqn:Hans; run;
      [eexists _, _; by repeat split..|].
    destruct (truthy_str pw) eqn:Hpw; run;
      [|eexists _, _; by repeat split].
    simpl in Hreply. destruct Hreply as [->|Hreply]; [done|].
    destruct (CryptoService.decrypt _ pw) as [check|]; run;
      [|eexists _, _; by repeat split].
    unfold check_fails. rewrite <- Hid.
    rewrite bool_decide_eq_false_2 by congruence. run.
    eexists _, _; by repeat split. }
  unfold mbind, MP_bind.
  assert (in_world (deleteFolderMove fid) p = (c, mkPage w1 (chrome p)))
    as ->.
  { rewrite in_world_run. fold w. by rewrite Hrun. }
  destruct c as [[]|]; [done| |].
  - unfold mret, MP_ret. simpl. repeat split; try done.
    intros Hn. by destruct (Hnone Hn).
  - simpl. repeat split; try done.
    intros Hn. destruct (Hnone Hn) as [_ ->]. unfold w.
    by destruct p.
Qed.

Lemma delete_folder_move_rejected_witness :
  let p :=
    mkPage
      (mkWorld
         (set_folders [Scenario.F_locked]
            (set_prompts [Scenario.P2_locked; Scenario.P3]
               Scenario.empty_state))
         Scenario.empty_ui (mkStore ∅ ∅)
         (set_answers [Submit "wrong" false] Scenario.empty_env))
      (mkChrome [] (Some 1) ∅ EmptyString EmptyString EmptyString EmptyString
         []) in
  let res := handleDeleteFolderMove (P := Reference.platform) p in
  state (world res.2) = state (world p)
  ∧ db (world res.2) = db (world p)
  ∧ folderToDeleteId (chrome res.2) = Some 1.
Proof.
  intros p res. subst res.
  destruct (delete_folder_move_rejected Reference.platform p 1)
    as (Hs & _ & Hd & Hc & _); [reflexivity| |].
  { split; [reflexivity|]. right. vm_compute. discriminate. }
  split; [exact Hs|]. split; [exact Hd|]. by rewrite Hc.
Defined.

(** ** Tags *)

Lemma remove_commas_no_comma (s s1 s2 : string) :
  remove_commas s ≠ s1 +:+ "," +:+ s2.
Proof.
  revert s1. induction s as [|c s IH]; intros s1; simpl.
  - by destruct s1.
  - destruct (Ascii.eqb c ",") eqn:Hc; [apply IH|].
    destruct s1 as [|c1 s1]; simpl.
    + intros [= -> _]. by rewrite Ascii.eqb_refl in Hc.
    + intros [= _ H]. by apply IH in H.
Qed.

Lemma filter_ne_fresh (t : string) (l : list string) :
  t ∉ l → filter (λ u, u ≠ t) l = l.
Proof.
  induction l as [|a l IH]; [done|]. intros Hin.
  apply not_elem_of_cons in Hin as [Hne Hin].
  rewrite filter_cons_True by done. by rewrite IH.
Qed.




Section Retag.
Context {P : Platform}.

Lemma retag_frame (f : list string → list string) : frame_step (retag_step f).
Proof. done. Qed.

Lemma run_retag (pred : Prompt.t → bool) (f : list string → list string)
    (l : list Prompt.t) (w : World) :
  run_steps pred (retag_step f) l w =
    (Normal tt,
     (λ q, if pred q then Prompt.set_tags (f (Prompt.tags q)) q else q) <$> l,
     w).
Proof.
  induction l as [|p l IH]; simpl; [done|].
  destruct (pred p); simpl; by rewrite IH.
Qed.

(** A loop that rewrites the tags of the prompts kept by [pred], and
    [DB.bulkPut] of these prompts after it. *)
Lemma retag_loop (pred : Prompt.t → bool) (f : list string → list string)
    (body : nat → M unit) (w : World) :
  local_body body (retag_step f) →
  let refs := filter_refs pred (prompts (state w)) in
  let l' :=
    (λ q, if pred q then Prompt.set_tags (f (Prompt.tags q)) q else q)
      <$> prompts (state w) in
  for_of refs body w = (Normal tt, with_prompts l' w)
  ∧ DB.bulkPut_prompts refs (with_prompts l' w) =
      (Normal tt,
       with_db (λ d, set_PROMPTS (put_refs l' refs (PROMPTS d)) d)
         (with_prompts l' w)).
Proof.
  intros Hbody refs l'. split.
  - unfold refs.
    rewrite (for_of_local pred body (retag_step f) w Hbody (retag_frame f)).
    by rewrite run_retag.
  - rewrite bulkPut_refs; [done|].
    apply (filter_refs_valid _ (prompts (state w))).
    simpl. unfold l'. by rewrite length_fmap.
Qed.

Lemma delete_tag_local (tagName : string) :
  local_body
    (λ p, o ← read_prompt p;
          update_prompt p
            (Prompt.set_tags (filter (λ t, t ≠ tagName) (Prompt.tags o))))
    (retag_step (filter (λ t, t ≠ tagName))).
Proof.
  intros i p w Hp. unfold retag_step. run. rewrite Hp. run.
  by rewrite (alter_at _ _ _ _ Hp).
Qed.

Lemma rename_tag_local (oldName newName : string) :
  local_body
    (λ p, o ← read_prompt p;
          update_prompt p
            (Prompt.set_tags (rename_tag oldName newName (Prompt.tags o)));;
          o ← read_prompt p;
          update_prompt p (Prompt.set_tags (Set_spread (Prompt.tags o))))
    (retag_step (λ tags, Set_spread (rename_tag oldName newName tags))).
Proof.
  intros i p w Hp. unfold retag_step. run. rewrite Hp. run.
  rewrite (alter_at _ _ _ _ Hp).
  rewrite list_lookup_insert_eq by by eapply lookup_lt_Some. run.
  rewrite alter_insert_at by by eapply lookup_lt_Some. done.
Qed.

(** The store after the loop: the keys of the prompts that were not
    rewritten are as they were, and when the ids are distinct every
    prompt rewritten is stored as rewritten. *)
Lemma put_refs_retagged (pred : Prompt.t → bool)
    (f : list string → list string) (l : list Prompt.t)
    (m : gmap Z Prompt.t) :
  let refs := filter_refs pred l in
  let l' :=
    (λ q, if pred q then Prompt.set_tags (f (Prompt.tags q)) q else q) <$> l in
  (∀ k, (∀ q, q ∈ l → pred q = true → Prompt.id q ≠ k) →
        put_refs l' refs m !! k = m !! k)
  ∧ (NoDup (Prompt.id <$> l) →
     ∀ i q q', l !! i = Some q → pred q = true → l' !! i = Some q' →
       put_refs l' refs m !! Prompt.id q = Some q').
Proof.
  intros refs l'.
  assert (∀ i q q', l !! i = Some q → l' !! i = Some q' →
                    Prompt.id q' = Prompt.id q) as Hid.
  { intros i q q' Hq. unfold l'. rewrite list_lookup_fmap, Hq. simpl.
    intros [= <-]. by destruct (pred q). }
  split.
  - intros k Hk. apply put_refs_other.
    intros i q' Hi Hq'. apply filter_refs_spec in Hi as (q & Hq & Hin).
    rewrite (Hid _ _ _ Hq Hq').
    apply Hk; [|done]. by eapply list_elem_of_lookup_2.
  - intros Hnd i q q' Hq Hin Hq'.
    rewrite <- (Hid _ _ _ Hq Hq').
    apply (put_refs_written _ _ _ i); [| |done].
    + assert (Prompt.id <$> l' = Prompt.id <$> l) as ->; [|done].
      unfold l'. rewrite <- list_fmap_compose. apply list_fmap_ext.
      intros j x _. simpl. by destruct (pred x).
    + apply filter_refs_spec. by exists q.
Qed.

End Retag.

(** X20. [handleDeleteTag] returns and removes the tag from every prompt,
    from the global tags and from the store of tags; the other tags and
    fields of the prompts, the folders and their store are unchanged, the
    prompts that had the tag are put in the store and no other entry of it
    is written, and a view on the deleted tag goes back to all prompts. *)
Theorem delete_tag_everywhere (P : Platform) (p : Page) (tagName : string) :
  let res := handleDeleteTag tagName p in
  let w := world p in
  let w' := world res.2 in
  res.1 = Normal tt
  ∧ prompts (state w')
    = (λ q, Prompt.set_tags (filter (λ t, t ≠ tagName) (Prompt.tags q)) q)
        <$> prompts (state w)
  ∧ Forall (λ q, tagName ∉ Prompt.tags q) (prompts (state w'))
  ∧ globalTags (chrome res.2)
    = filter (λ t, t ≠ tagName) (globalTags (chrome p))
  ∧ TAGS (chrome res.2) = TAGS (chrome p) ∖ {[tagName]}
  ∧ folders (state w') = folders (state w)
  ∧ FOLDERS (db w') = FOLDERS (db w)
  ∧ (∀ k, (∀ q, q ∈ prompts (state w) → tagName ∈ Prompt.tags q →
                Prompt.id q ≠ k) →
          PROMPTS (db w') !! k = PROMPTS (db w) !! k)
  ∧ (NoDup (Prompt.id <$> prompts (state w)) →
     ∀ i q q', prompts (state w) !! i = Some q → tagName ∈ Prompt.tags q →
       prompts (state w') !! i = Some q' →
       PROMPTS (db w') !! Prompt.id q = Some q')
  ∧ (is_blank (search (chrome p)) = true →
     view (state w') =
       if bool_decide (view (state w) = ViewTag tagName)
       then ViewFolder ViewAll else view (state w)).
Proof.
  intros res w w'. subst res w'.
  set (l' :=
    (λ q, if has_tag tagName q
          then Prompt.set_tags (filter (λ t, t ≠ tagName) (Prompt.tags q)) q
          else q) <$> prompts (state w)).
  set (refs := filter_refs (has_tag tagName) (prompts (state w))).
  assert (l' = (λ q, Prompt.set_tags
                  (filter (λ t, t ≠ tagName) (Prompt.tags q)) q)
               <$> prompts (state w)) as Hl'.
  { unfold l'. apply list_fmap_ext. intros i q _. unfold has_tag.
    case_bool_decide as Hin; [done|].
    rewrite filter_ne_fresh by done. by destruct q. }
  assert (∃ w1,
    deleteTagFromPrompts tagName w = (Normal tt, w1)
    ∧ prompts (state w1) = l'
    ∧ folders (state w1) = folders (state w)
    ∧ db w1 = mkStore (put_refs l' refs (PROMPTS (db w))) (FOLDERS (db w))
    ∧ view (state w1) =
        (if bool_decide (view (state w) = ViewTag tagName)
         then ViewFolder ViewAll else view (state w)))
    as (w1 & Hrun & Hps & Hfs & Hdb & Hview).
  { unfold deleteTagFromPrompts.
    unfold mbind at 1, M_bind at 1, gets at 1.
    destruct (retag_loop (has_tag tagName) (filter (λ t, t ≠ tagName)) _ w
                (delete_tag_local tagName)) as [Hloop Hput].
    fold l' refs in Hloop, Hput.
    rewrite (M_bind_run _ _ _ _ tt Hloop).
    rewrite (M_bind_run _ _ _ _ tt Hput).
    run.
    destruct (bool_decide (view (state w) = ViewTag tagName)); run;
      destruct (truthy_id _ || _); run;
      try (destruct (bool_decide (tagName ∈ _)); run);
      eexists; (split; [reflexivity|]); by repeat split. }
  unfold handleDeleteTag.
  set (p0 :=
    with_chrome (λ c,
      set_globalTags (filter (λ t, t ≠ tagName) (globalTags c)) c) p).
  set (p1 := with_chrome (λ c, set_TAGS (TAGS c ∖ {[tagName]}) c) p0).
  rewrite (MP_bind_run _ _ p p0 tt) by reflexivity.
  rewrite (MP_bind_run _ _ p0 p1 tt) by reflexivity.
  rewrite (MP_bind_run _ _ p1 (mkPage w1 (chrome p1)) tt)
    by (rewrite in_world_run; change (world p1) with w; by rewrite Hrun).
  destruct (updateUI_run (mkPage w1 (chrome p1)))
    as (w2 & -> & (H1 & H2 & H3) & _ & _ & _ & Hv).
  cbn [fst snd world chrome] in *.
  rewrite H1, H2, H3, Hps, Hfs, Hdb, Hv, Hview. cbn [PROMPTS FOLDERS].
  destruct (put_refs_retagged (has_tag tagName) (filter (λ t, t ≠ tagName))
              (prompts (state w)) (PROMPTS (db w))) as [Hother Hwritten].
  fold l' refs in Hother, Hwritten.
  split; [done|]. split; [done|]. split.
  { rewrite Hl'. apply Forall_fmap, Forall_forall. intros q _. simpl.
    rewrite list_elem_of_filter. by intros [? _]. }
  split; [done|]. split; [done|]. split; [done|]. split; [done|]. split.
  { intros k Hk. apply Hother. intros q Hq Hin. apply Hk; [done|].
    unfold has_tag in Hin. by apply bool_decide_eq_true in Hin. }
  split.
  { intros Hnd i q q' Hq Hin Hq'. apply (Hwritten Hnd i); [done| |done].
    unfold has_tag. by apply bool_decide_eq_true. }
  intros Hblank. simpl. by rewrite Hblank.
Qed.

Lemma Set_spread_elem (l : list string) (x : string) :
  x ∈ Set_spread l ↔ x ∈ l.
Proof.
  induction l as [|t l IH]; simpl; [done|].
  rewrite !elem_of_cons, list_elem_of_filter, IH.
  destruct (decide (x = t)); tauto.
Qed.

Lemma Set_spread_NoDup (l : list string) : NoDup (Set_spread l).
Proof.
  induction l as [|t l IH]; simpl; [constructor|].
  constructor.
  - rewrite list_elem_of_filter. by intros [? _].
  - by apply NoDup_filter.
Qed.

Lemma rename_tag_elem (oldName newName : string) (l : list string)
    (x : string) :
  x ∈ rename_tag oldName newName l ↔
  (x ∈ l ∧ x ≠ oldName) ∨ (x = newName ∧ oldName ∈ l).
Proof.
  unfold rename_tag. rewrite list_elem_of_fmap. split.
  - intros (t & -> & Ht). case_decide as Hd; [right|left]; by subst.
  - intros [[Hx Hne]|[-> Hold]].
    + exists x. by rewrite decide_False.
    + exists oldName. by rewrite decide_True.
Qed.

Lemma replace_first_new (oldName newName : string) (l : list string) :
  oldName ∈ l → newName ∈ replace_first oldName newName l.
Proof.
  induction l as [|t l IH]; simpl; [by intros ?%elem_of_nil|].
  intros Hin. case_decide as Hd; [apply elem_of_cons; by left|].
  apply elem_of_cons in Hin as [->|Hin]; [done|].
  apply elem_of_cons. right. by apply IH.
Qed.

Lemma replace_first_old (oldName newName : string) (l : list string) :
  NoDup l → oldName ≠ newName → oldName ∉ replace_first oldName newName l.
Proof.
  intros Hnd Hne. induction Hnd as [|t l Ht Hnd IH]; simpl;
    [apply not_elem_of_nil|].
  case_decide as Hd.
  - subst. apply not_elem_of_cons. done.
  - apply not_elem_of_cons. split; [done|]. apply IH.
Qed.

(** X21. [handleRenameTag] returns; a prompt without the old tag is
    unchanged, a prompt with it has afterwards, without repeats, its other
    tags and the new one, and is put in the store; the new name is a global
    tag and in the store of tags, the old one no longer (for distinct
    names and global tags without repeats); folders are unchanged and a
    view on the old tag becomes a view on the new one. *)
Theorem rename_tag_everywhere (P : Platform) (p : Page)
    (oldName newName : string) :
  let res := handleRenameTag oldName newName p in
  let w := world p in
  let w' := world res.2 in
  res.1 = Normal tt
  ∧ Forall2
      (λ q q',
         q' = Prompt.set_tags (Prompt.tags q') q
         ∧ (oldName ∉ Prompt.tags q → q' = q)
         ∧ (oldName ∈ Prompt.tags q → NoDup (Prompt.tags q'))
         ∧ (∀ t, t ∈ Prompt.tags q' ↔
                 (t ∈ Prompt.tags q ∧ t ≠ oldName)
                 ∨ (t = newName ∧ oldName ∈ Prompt.tags q)))
      (prompts (state w)) (prompts (state w'))
  ∧ newName ∈ globalTags (chrome res.2)
  ∧ (NoDup (globalTags (chrome p)) → oldName ≠ newName →
     oldName ∉ globalTags (chrome res.2))
  ∧ TAGS (chrome res.2) = TAGS (chrome p) ∖ {[oldName]} ∪ {[newName]}
  ∧ folders (state w') = folders (state w)
  ∧ FOLDERS (db w') = FOLDERS (db w)
  ∧ (∀ k, (∀ q, q ∈ prompts (state w) → oldName ∈ Prompt.tags q →
                Prompt.id q ≠ k) →
          PROMPTS (db w') !! k = PROMPTS (db w) !! k)
  ∧ (NoDup (Prompt.id <$> prompts (state w)) →
     ∀ i q q', prompts (state w) !! i = Some q → oldName ∈ Prompt.tags q →
       prompts (state w') !! i = Some q' →
       PROMPTS (db w') !! Prompt.id q = Some q')
  ∧ (is_blank (search (chrome p)) = true →
     view (state w') =
       if bool_decide (view (state w) = ViewTag oldName)
       then ViewTag newName else view (state w)).
Proof.
  intros res w w'. subst res w'.
  set (f := λ tags, Set_spread (rename_tag oldName newName tags)).
  set (l' :=
    (λ q, if has_tag oldName q
          then Prompt.set_tags (f (Prompt.tags q)) q
          else q) <$> prompts (state w)).
  set (refs := filter_refs (has_tag oldName) (prompts (state w))).
  assert (∃ w1,
    renameTagInPrompts oldName newName w = (Normal tt, w1)
    ∧ prompts (state w1) = l'
    ∧ folders (state w1) = folders (state w)
    ∧ db w1 = mkStore (put_refs l' refs (PROMPTS (db w))) (FOLDERS (db w))
    ∧ view (state w1) =
        (if bool_decide (view (state w) = ViewTag oldName)
         then ViewTag newName else view (state w)))
    as (w1 & Hrun & Hps & Hfs & Hdb & Hview).
  { unfold renameTagInPrompts.
    unfold mbind at 1, M_bind at 1, gets at 1.
    destruct (retag_loop (has_tag oldName) f _ w
                (rename_tag_local oldName newName)) as [Hloop Hput].
    fold l' refs in Hloop, Hput.
    rewrite (M_bind_run _ _ _ _ tt Hloop).
    rewrite (M_bind_run _ _ _ _ tt Hput).
    run.
    destruct (bool_decide (view (state w) = ViewTag oldName)); run;
      destruct (truthy_id _ || _); run;
      try (destruct (bool_decide (oldName ∈ _)); run);
      eexists; (split; [reflexivity|]); by repeat split. }
  unfold handleRenameTag.
  set (p0 :=
    with_chrome (λ c,
      set_globalTags (replace_first oldName newName (globalTags c)) c) p).
  set (p1 :=
    with_chrome (λ c,
      if bool_decide (newName ∈ globalTags c) then c
      else set_globalTags (globalTags c ++ [newName]) c) p0).
  set (p2 := with_chrome (λ c, set_TAGS (TAGS c ∖ {[oldName]}) c) p1).
  set (p3 := with_chrome (λ c, set_TAGS (TAGS c ∪ {[newName]}) c) p2).
  rewrite (MP_bind_run _ _ p p0 tt) by reflexivity.
  rewrite (MP_bind_run _ _ p0 p1 tt) by reflexivity.
  rewrite (MP_bind_run _ _ p1 p2 tt) by reflexivity.
  rewrite (MP_bind_run _ _ p2 p3 tt) by reflexivity.
  rewrite (MP_bind_run _ _ p3 (mkPage w1 (chrome p3)) tt)
    by (rewrite in_world_run; change (world p3) with w; by rewrite Hrun).
  destruct (updateUI_run (mkPage w1 (chrome p3)))
    as (w2 & -> & (H1 & H2 & H3) & _ & _ & _ & Hv).
  cbn [fst snd world chrome] in *.
  rewrite H1, H2, H3, Hps, Hfs, Hdb, Hv, Hview. cbn [PROMPTS FOLDERS].
  destruct (put_refs_retagged (has_tag oldName) f
              (prompts (state w)) (PROMPTS (db w))) as [Hother Hwritten].
  fold l' refs in Hother, Hwritten.
  assert (globalTags (chrome p3) = globalTags (chrome p1)) as Hg3
    by reflexivity.
  assert (TAGS (chrome p3) = TAGS (chrome p) ∖ {[oldName]} ∪ {[newName]})
    as Ht3.
  { subst p3 p2 p1 p0. simpl. destruct (bool_decide (newName ∈ _));
      reflexivity. }
  assert (search (chrome p3) = search (chrome p)) as Hs3.
  { subst p3 p2 p1 p0. simpl. destruct (bool_decide (newName ∈ _));
      reflexivity. }
  rewrite Hg3, Ht3, Hs3.
  split; [done|]. split.
  { unfold l'. apply Forall2_fmap_r, Forall_Forall2_diag, Forall_forall.
    intros q _. unfold compose, has_tag.
    destruct (decide (oldName ∈ Prompt.tags q)) as [Hin|Hin];
      [rewrite (bool_decide_eq_true_2 _ Hin)
      |rewrite (bool_decide_eq_false_2 _ Hin)]; simpl.
    - split; [done|]. split; [done|]. split; [intros _; apply Set_spread_NoDup|].
      intros t. unfold f. by rewrite Set_spread_elem, rename_tag_elem.
    - split; [by destruct q|]. split; [done|]. split; [done|].
      intros t. split; [|tauto]. intros Ht. left. split; [done|].
      by intros ->. }
  split.
  { subst p1 p0. simpl.
    destruct (decide (newName
                ∈ replace_first oldName newName (globalTags (chrome p))))
      as [Hin|Hin];
      [rewrite (bool_decide_eq_true_2 _ Hin)
      |rewrite (bool_decide_eq_false_2 _ Hin)]; simpl; [done|].
    apply elem_of_app. right. by apply list_elem_of_singleton. }
  split.
  { intros Hnd Hne. subst p1 p0. simpl.
    pose proof (replace_first_old oldName newName _ Hnd Hne) as Hold.
    destruct (decide (newName
                ∈ replace_first oldName newName (globalTags (chrome p))))
      as [Hin|Hin];
      [rewrite (bool_decide_eq_true_2 _ Hin)
      |rewrite (bool_decide_eq_false_2 _ Hin)]; simpl; [done|].
    rewrite elem_of_app, list_elem_of_singleton. tauto. }
  split; [done|]. split; [done|]. split; [done|]. split.
  { intros k Hk. apply Hother. intros q Hq Hin. apply Hk; [done|].
    unfold has_tag in Hin. by apply bool_decide_eq_true in Hin. }
  split.
  { intros Hnd i q q' Hq Hin Hq'. apply (Hwritten Hnd i); [done| |done].
    unfold has_tag. by apply bool_decide_eq_true. }
  intros Hblank. simpl. by rewrite Hblank.
Qed.

(** ** Deleting prompts, the sidebar and the select mode *)

Section PageRuns.
Context {P : Platform}.

Lemma confirm_run (message : string) (p : Page) :
  ModalService_confirm message p =
    (Normal match answers (env (world p)) with
            | Submit _ _ :: _ => true
            | _ => false
            end,
     mkPage
       (with_env (set_answers (tail (answers (env (world p))))) (world p))
       (set_confirmations (message :: confirmations (chrome p)) (chrome p))).
Proof.
  unfold ModalService_confirm, ModalService.next_answer. runp.
  destruct (answers (env (world p))) as [|[|pw r] rest] eqn:Hans; runp;
    try done.
  by destruct p as [[? ? ? []] ?]; simpl in *; subst.
Qed.

(** [updateUI] when the details are closed. *)
Lemma updateUI_closed (p : Page) :
  isCreatingNew (state (world p)) = false →
  currentPromptId (state (world p)) = None →
  updateUI p =
    (Normal tt,
     with_world (λ w,
       with_ui (set_promptDetails_shown false)
         (if is_blank (search (chrome p)) then w
          else with_state (set_view ViewSearch) w)) p).
Proof.
  intros Hnew Hcur. unfold updateUI. runp. rewrite Hnew, Hcur. simpl.
  destruct (truthy_str (trim (search (chrome p)))) eqn:Hq.
  - assert (is_blank (search (chrome p)) = false) as ->.
    { apply not_true_is_false. intros Hb. apply trim_blank in Hb.
      apply truthy_str_true in Hq. done. }
    runp; rewrite ?Hnew, ?Hcur; reflexivity.
  - assert (is_blank (search (chrome p)) = true) as ->.
    { apply trim_blank. by apply truthy_str_false. }
    runp; rewrite ?Hnew, ?Hcur; reflexivity.
Qed.

End PageRuns.

(** X22. [handleBulkDelete] does nothing on an empty selection.
    Otherwise it asks for confirmation with the number of selected prompts;
    when confirmed the selected prompts, and no others, are removed from
    the array and from the store, the selection is emptied, select mode is
    left and the details view is closed if its prompt was selected; when
    not confirmed the state, the form and the store are unchanged. *)
Theorem bulk_delete_removes_selection (P : Platform) (p : Page) :
  let w := world p in
  let selected := selectedPromptIds (state w) in
  let message :=
    "Delete " +:+ pretty (size selected) +:+ " selected prompts?" in
  let res := handleBulkDelete p in
  let w' := world res.2 in
  res.1 = Normal tt
  ∧ if decide (selected = ∅) then res.2 = p
    else
      confirmations (chrome res.2) = message :: confirmations (chrome p)
      ∧ match answers (env w) with
        | Submit _ _ :: _ =>
            prompts (state w')
            = filter (λ q, Prompt.id q ∉ selected) (prompts (state w))
            ∧ (∀ k, PROMPTS (db w') !! k =
                    if decide (k ∈ selected) then None
                    else PROMPTS (db w) !! k)
            ∧ selectedPromptIds (state w') = ∅
            ∧ isSelectMode (state w') = false
            ∧ folders (state w') = folders (state w)
            ∧ FOLDERS (db w') = FOLDERS (db w)
            ∧ (∀ c, currentPromptId (state w) = Some c → c ∈ selected →
                    currentPromptId (state w') = None
                    ∧ promptDetails_shown (ui w') = false)
        | _ => state w' = state w ∧ ui w' = ui w ∧ db w' = db w
        end.
Proof.
  intros w selected message res w'. subst res w'.
  unfold handleBulkDelete.
  rewrite (MP_bind_run _ _ p p selected) by reflexivity.
  destruct (decide (selected = ∅)) as [Hempty|Hne].
  { rewrite bool_decide_eq_true_2; [done|]. by rewrite Hempty. }
  rewrite bool_decide_eq_false_2
    by (intros Hz%size_empty_inv; apply Hne; by apply leibniz_equiv).
  fold message.
  rewrite (MP_bind_run _ _ _ _ _ (confirm_run message p)). fold w.
  destruct (answers (env w)) as [|[|pw r] rest] eqn:Hans;
    [by unfold mret, MP_ret; simpl..|].
  set (p0 := mkPage _ _).
  set (w1 :=
    with_state (λ s,
      set_isSelectMode false
        (set_selectedPromptIds ∅
           (set_prompts (filter (λ q, Prompt.id q ∉ selected) (prompts s)) s)))
      (with_db (λ d,
         set_PROMPTS
           (foldl (λ m k, delete k m) (PROMPTS d) (elements selected)) d)
         (world p0))).
  set (closing :=
    match currentPromptId (state w) with
    | Some c => bool_decide (c ∈ selected)
    | None => false
    end).
  assert (
    (in_world (DB_bulkRemove_prompts (elements selected));;
     in_world (modify (with_state (λ s,
       set_prompts (filter (λ p, Prompt.id p ∉ selected) (prompts s)) s)));;
     current ← getsP (λ p, currentPromptId (state (world p)));
     in_world (modify (with_state (set_selectedPromptIds ∅)));;
     in_world (modify (with_state (set_isSelectMode false)));;
     updateUI;;
     if match current with
        | Some c => bool_decide (c ∈ selected)
        | None => false
        end
     then in_world _internalCloseDetailsView else mret tt) p0
    = (updateUI;;
       if closing then in_world _internalCloseDetailsView else mret tt)
        (mkPage w1 (chrome p0))) as Hrun.
  { rewrite (MP_bind_run _ _ p0 _ tt)
      by (rewrite in_world_run, bulkRemove_run; reflexivity).
    reflexivity. }
  rewrite Hrun. clear Hrun.
  destruct (updateUI_run (mkPage w1 (chrome p0)))
    as (w2 & Hu & (H1 & H2 & H3) & H4 & H5 & _).
  rewrite (MP_bind_run _ _ _ _ tt Hu).
  cbn [world chrome] in H1, H2, H3, H4, H5.
  assert (∀ k, PROMPTS (db w1) !! k =
               if decide (k ∈ selected) then None else PROMPTS (db w) !! k)
    as Hdb.
  { intros k. subst w1. simpl. rewrite foldl_delete_lookup.
    destruct (decide (k ∈ elements selected)) as [Hin|Hin];
      rewrite elem_of_elements in Hin;
      [by rewrite decide_True|by rewrite decide_False]. }
  destruct closing eqn:Hclosing.
  - rewrite in_world_run. cbn [world]. rewrite close_run.
    cbn [fst snd world chrome]. unfold with_ui, with_state.
    cbn [state ui db set_promptDetails_shown set_decryptedCache
         set_newPromptLockInfo set_currentPromptId set_isCreatingNew prompts
         folders currentPromptId isSelectMode selectedPromptIds
         promptDetails_shown].
    rewrite H1, H2, H3, H4, H5.
    split; [done|]. split; [done|]. split; [done|].
    split; [exact Hdb|]. done.
  - unfold mret, MP_ret. cbn [fst snd world chrome].
    rewrite H1, H2, H3, H4, H5.
    split; [done|]. split; [done|]. split; [done|].
    split; [exact Hdb|]. do 4 (split; [done|]).
    intros c Hc Hin. exfalso. unfold closing in Hclosing.
    rewrite Hc in Hclosing. by rewrite bool_decide_eq_true_2 in Hclosing.
Qed.

(** X23. [handleDeletePrompt] asks for confirmation; when confirmed the
    open prompt, and no other, is removed from the array and from the
    store and the details view is closed, whichever of the two timers
    fires first; when not confirmed the state, the form and the store are
    unchanged. *)
Theorem delete_prompt_removes_current (P : Platform) (p : Page)
    (closeFirst : bool) (c : Z) :
  currentPromptId (state (world p)) = Some c →
  c ≠ 0 →
  let w := world p in
  let res := handleDeletePrompt closeFirst p in
  let w' := world res.2 in
  res.1 = Normal tt
  ∧ confirmations (chrome res.2)
    = "Are you sure you want to delete this prompt?"
        :: confirmations (chrome p)
  ∧ match answers (env w) with
    | Submit _ _ :: _ =>
        prompts (state w')
        = filter (λ q, Prompt.id q ≠ c) (prompts (state w))
        ∧ PROMPTS (db w') = delete c (PROMPTS (db w))
        ∧ folders (state w') = folders (state w)
        ∧ FOLDERS (db w') = FOLDERS (db w)
        ∧ currentPromptId (state w') = None
        ∧ isCreatingNew (state w') = false
        ∧ promptDetails_shown (ui w') = false
    | _ => state w' = state w ∧ ui w' = ui w ∧ db w' = db w
    end.
Proof.
  intros Hcur Hc w res w'. subst res w'. unfold handleDeletePrompt.
  rewrite (MP_bind_run _ _ p p (Some c)) by (by unfold getsP; rewrite Hcur).
  cbn [truthy_id]. rewrite bool_decide_eq_false_2 by done. cbn [negb].
  rewrite (MP_bind_run _ _ _ _ _ (confirm_run _ p)). fold w.
  destruct (answers (env w)) as [|[|pw r] rest] eqn:Hans;
    [by unfold mret, MP_ret; simpl..|].
  set (p0 := mkPage _ _).
  rewrite (MP_bind_run _ _ p0 p0 (Some c))
    by exact (f_equal (λ x, (Normal x, p0)) Hcur).
  set (w1 :=
    with_state (λ s,
      set_prompts (filter (λ q, Prompt.id q ≠ c) (prompts s)) s)
      (with_db (λ d, set_PROMPTS (delete c (PROMPTS d)) d) (world p0))).
  rewrite (MP_bind_run _ _ p0 _ tt) by reflexivity.
  rewrite (MP_bind_run _ _ _ (mkPage w1 (chrome p0)) tt) by reflexivity.
  destruct closeFirst.
  - rewrite (MP_bind_run _ _ _ _ tt)
      by (rewrite in_world_run; cbn [world]; rewrite close_run; reflexivity).
    rewrite updateUI_closed by reflexivity.
    cbn [fst snd world chrome with_world].
    by destruct (is_blank _).
  - destruct (updateUI_run (mkPage w1 (chrome p0)))
      as (w2 & Hu & (H1 & H2 & H3) & _).
    rewrite (MP_bind_run _ _ _ _ tt Hu).
    cbn [world chrome] in H1, H2, H3.
    rewrite in_world_run. cbn [world]. rewrite close_run.
    cbn [fst snd world chrome]. unfold with_ui, with_state.
    cbn [state ui db set_promptDetails_shown set_decryptedCache
         set_newPromptLockInfo set_currentPromptId set_isCreatingNew prompts
         folders currentPromptId isCreatingNew promptDetails_shown].
    by rewrite H1, H2, H3.
Qed.

Lemma delete_prompt_removes_current_witness :
  let p :=
    mkPage
      (mkWorld
         (set_currentPromptId (Some 3)
            (set_prompts [Scenario.P2; Scenario.P3] Scenario.empty_state))
         Scenario.empty_ui
         (mkStore {[2 := Scenario.P2; 3 := Scenario.P3]} ∅)
         (set_answers [Submit EmptyString false] Scenario.empty_env))
      (mkChrome [] None ∅ EmptyString EmptyString EmptyString EmptyString
         []) in
  let res := handleDeletePrompt (P := Reference.platform) true p in
  res.1 = Normal tt
  ∧ prompts (state (world res.2)) = [Scenario.P2]
  ∧ PROMPTS (db (world res.2)) !! 3 = None
  ∧ currentPromptId (state (world res.2)) = None.
Proof.
  intros p res. subst res.
  destruct (delete_prompt_removes_current Reference.platform p true 3)
    as (Hr & _ & Hps & Hdb & _ & _ & Hc & _); [reflexivity|done|].
  split; [exact Hr|]. split; [by rewrite Hps|].
  split; [by rewrite Hdb|exact Hc].
Defined.

(** X24. A click on a row of the sidebar empties the search box, shows
    the view of that row, or all prompts when that view was already
    shown, and, once the timer of [_internalCloseDetailsView] has fired,
    no prompt is open and the details view is hidden; the prompts, the
    folders, the store and the selection are unchanged. *)
Theorem sidebar_click_switches_view (P : Platform) (p : Page)
    (target : NavItem) :
  let w := world p in
  let res := handleSidebarNavClick target p in
  let w' := world res.2 in
  res.1 = Normal tt
  ∧ view (state w') =
      (if bool_decide (view (state w) = nav_view target)
       then ViewFolder ViewAll
       else nav_view target)
  ∧ search (chrome res.2) = EmptyString
  ∧ currentPromptId (state w') = None
  ∧ isCreatingNew (state w') = false
  ∧ promptDetails_shown (ui w') = false
  ∧ same_vault w w'
  ∧ isSelectMode (state w') = isSelectMode (state w)
  ∧ selectedPromptIds (state w') = selectedPromptIds (state w).
Proof.
  intros w res w'. subst res w'. unfold handleSidebarNavClick.
  rewrite (MP_bind_run _ _ p _ tt) by reflexivity.
  rewrite (MP_bind_run _ _ _ _ tt) by reflexivity.
  set (p1 := mkPage _ _).
  destruct (updateUI_run p1) as (w2 & Hu & (H1 & H2 & H3) & H4 & H5 & _ & H6).
  rewrite (MP_bind_run _ _ _ _ tt Hu).
  rewrite in_world_run. cbn [world]. rewrite close_run.
  cbn [fst snd world chrome]. unfold with_ui, with_state.
  cbn [state ui db set_promptDetails_shown set_decryptedCache
       set_newPromptLockInfo set_currentPromptId set_isCreatingNew prompts
       folders currentPromptId isCreatingNew promptDetails_shown view
       isSelectMode selectedPromptIds].
  unfold same_vault.
  cbn [state ui db set_promptDetails_shown set_decryptedCache
       set_newPromptLockInfo set_currentPromptId set_isCreatingNew prompts
       folders currentPromptId isCreatingNew promptDetails_shown view
       isSelectMode selectedPromptIds].
  rewrite H1, H2, H3, H4, H5, H6. by repeat split.
Qed.

(** X25. [toggleSelectMode] flips the select mode and never changes the
    prompts, the folders, the store or the view.  Leaving select mode
    empties the selection; entering it keeps the selection and hides the
    details of the open prompt, if there is one. *)
Theorem toggleSelectMode_spec (P : Platform) (w : World) :
  let r := toggleSelectMode w in
  r.1 = Normal tt
  ∧ isSelectMode (state r.2) = negb (isSelectMode (state w))
  ∧ same_vault w r.2
  ∧ env r.2 = env w
  ∧ view (state r.2) = view (state w)
  ∧ (if isSelectMode (state w)
     then selectedPromptIds (state r.2) = ∅
          ∧ currentPromptId (state r.2) = currentPromptId (state w)
          ∧ ui r.2 = ui w
     else selectedPromptIds (state r.2) = selectedPromptIds (state w)
          ∧ if truthy_id (currentPromptId (state w))
            then currentPromptId (state r.2) = None
                 ∧ promptDetails_shown (ui r.2) = false
            else currentPromptId (state r.2) = currentPromptId (state w)
                 ∧ ui r.2 = ui w).
Proof.
  intros r. subst r. unfold toggleSelectMode. run.
  destruct (isSelectMode (state w)) eqn:Hsel; run.
  - by repeat split.
  - destruct (truthy_id (currentPromptId (state w))) eqn:Hcur; run.
    + unfold detached, renderPromptDetails. run. by repeat split.
    + by repeat split.
Qed.


(** ** Renaming a folder and adding a global tag *)


